(** * mugglepay webhook monitor: a shallow embedding of the ingestion pipeline

    The development follows the TypeScript sources of the service:

    - [src/utils/signatureVerification.ts]  (HMAC-SHA256 check of a request),
      in its two revisions (with and without the surrounding try/catch);
    - [src/services/tokenService.ts]        (legacy token-event shape);
    - the address-activity revision of the token service
      ([validatePayload], [processTransaction], [handleWebhook]);
    - [src/controllers/webhookController.ts] (the HTTP handler), with its
      revisions: the one that logs every step, the one that also checks the
      signing key and wraps each stage in a [try], and the first one, which
      compares a token.

    Part I holds the model, Part II the properties of the specification,
    Part III further properties of the code.

    Modelling conventions.
    - A JavaScript string is the list of its UTF-16 code units.
    - A byte is a [Z] in [0, 255]; a 32-bit word is a [Z] reduced modulo 2^32.
    - A JavaScript number is [NaN] or a rational: rounding to binary64 is not
      modelled, neither are the infinities.
    - [undefined] is [None]; a thrown exception is the outcome [Throw].
    - The service object's [Map] is a [gmap] from hashes to records; every
      stateful function passes the state (the map and the log) explicitly. *)

From Stdlib Require Import ZArith QArith List String Ascii Bool Lia.
From stdpp Require Import base option list gmap strings.

Local Open Scope Z_scope.

(* ===================================================================== *)
(** * Part I.  The model                                                   *)
(* ===================================================================== *)

(** ** JavaScript values used by the service *)

Module JS.

(** A string: its UTF-16 code units. *)
Definition JSString : Type := list Z.

(** The literal of an ASCII text. *)
Definition lit (s : string) : JSString :=
  map (fun c : ascii => Z.of_N (N_of_ascii c)) (list_ascii_of_string s).

(** [a === b] on strings. *)
Definition str_eqb (a b : JSString) : bool := bool_decide (a = b).

(** A number. *)
Inductive number : Type :=
| NaN
| Num (q : Q).

Definition isNaN (x : number) : bool :=
  match x with NaN => true | Num _ => false end.

(** [a - b], [a / b] and [a > 0].  A quotient by zero is not finite, and the
    model keeps no number for it; the sources divide by [LAMPORTS_PER_SOL]
    only. *)
Definition sub (a b : number) : number :=
  match a, b with
  | Num x, Num y => Num (x - y)
  | _, _ => NaN
  end.

Definition div (a b : number) : number :=
  match a, b with
  | Num x, Num y => if Qeq_bool y 0 then NaN else Num (x / y)
  | _, _ => NaN
  end.

Definition gt0 (a : number) : bool :=
  match a with
  | Num x => negb (Qle_bool x 0)
  | NaN => false
  end.

(** [undefined] read as a number is [NaN]. *)
Definition toNumber (v : option Z) : number :=
  match v with
  | Some z => Num (inject_Z z)
  | None => NaN
  end.

(** [arr[i]]: [undefined] outside the array. *)
Definition index {A : Type} (arr : list A) (i : Z) : option A :=
  if i <? 0 then None else nth_error arr (Z.to_nat i).

(** [arr[k]] where the key itself may be [undefined]: the array has no
    property of that name. *)
Definition index_opt {A : Type} (arr : list A) (k : option Z) : option A :=
  match k with
  | Some i => index arr i
  | None => None
  end.

(** [arr.findIndex(p)]: the first position whose element satisfies [p];
    [None] stands for -1. *)
Fixpoint findIndex {A : Type} (p : A -> bool) (arr : list A) : option nat :=
  match arr with
  | [] => None
  | x :: rest => if p x then Some O else option_map S (findIndex p rest)
  end.

(** What the host supplies and the sources only call: Unicode lower-casing
    and the date parser behind [new Date(s).getTime()]. *)
Record Host : Type := {
  toLowerCase : JSString -> JSString;
  Date_getTime : JSString -> number
}.

End JS.
Export JS.

(** ** UTF-8, as [Buffer.toString('utf8')] and [hmac.update(s, 'utf8')] use it *)

Module Utf8.

Definition is_high_surrogate (u : Z) : bool := (0xD800 <=? u) && (u <=? 0xDBFF).
Definition is_low_surrogate (u : Z) : bool := (0xDC00 <=? u) && (u <=? 0xDFFF).

(** U+FFFD, the replacement character, and its three bytes. *)
Definition replacement : Z := 0xFFFD.
Definition replacement_bytes : list Z := [0xEF; 0xBF; 0xBD].

Definition continuation (x : Z) : Z := Z.lor 0x80 (Z.land x 0x3F).

Definition encode_scalar (cp : Z) : list Z :=
  if cp <? 0x80 then [cp]
  else if cp <? 0x800 then [Z.lor 0xC0 (Z.shiftr cp 6); continuation cp]
  else if cp <? 0x10000 then
    [Z.lor 0xE0 (Z.shiftr cp 12); continuation (Z.shiftr cp 6); continuation cp]
  else
    [Z.lor 0xF0 (Z.shiftr cp 18); continuation (Z.shiftr cp 12);
     continuation (Z.shiftr cp 6); continuation cp].

(** The scalar value of a surrogate pair. *)
Definition pair_scalar (hi lo : Z) : Z :=
  0x10000 + Z.shiftl (hi - 0xD800) 10 + (lo - 0xDC00).

(** Encoding of a string: a surrogate pair gives four bytes, a surrogate
    on its own is replaced by U+FFFD. *)
Fixpoint encode (s : JSString) : list Z :=
  match s with
  | [] => []
  | u :: rest =>
    if is_high_surrogate u then
      match rest with
      | v :: rest' =>
        if is_low_surrogate v then encode_scalar (pair_scalar u v) ++ encode rest'
        else replacement_bytes ++ encode rest
      | [] => replacement_bytes
      end
    else if is_low_surrogate u then replacement_bytes ++ encode rest
    else encode_scalar u ++ encode rest
  end.

(** The code units of a decoded scalar value. *)
Definition units (cp : Z) : JSString :=
  if cp <? 0x10000 then [cp]
  else [0xD800 + Z.shiftr (cp - 0x10000) 10; 0xDC00 + Z.land (cp - 0x10000) 0x3FF].

(** The decoder's state: the bits read so far, the continuation bytes still
    expected, and the range allowed for the next byte. *)
Record dstate : Type := {
  bits : Z;
  needed : nat;
  lower : Z;
  upper : Z
}.

Definition idle : dstate := {| bits := 0; needed := O; lower := 0x80; upper := 0xBF |}.

(** A byte read when no sequence is open. *)
Definition lead (b : Z) : JSString * dstate :=
  if b <=? 0x7F then ([b], idle)
  else if (0xC2 <=? b) && (b <=? 0xDF) then
    ([], {| bits := Z.land b 0x1F; needed := 1; lower := 0x80; upper := 0xBF |})
  else if (0xE0 <=? b) && (b <=? 0xEF) then
    ([], {| bits := Z.land b 0xF; needed := 2;
            lower := if b =? 0xE0 then 0xA0 else 0x80;
            upper := if b =? 0xED then 0x9F else 0xBF |})
  else if (0xF0 <=? b) && (b <=? 0xF4) then
    ([], {| bits := Z.land b 0x7; needed := 3;
            lower := if b =? 0xF0 then 0x90 else 0x80;
            upper := if b =? 0xF4 then 0x8F else 0xBF |})
  else ([replacement], idle).

Definition step (st : dstate) (b : Z) : JSString * dstate :=
  match needed st with
  | O => lead b
  | S n =>
    if (lower st <=? b) && (b <=? upper st) then
      let cp := Z.lor (Z.shiftl (bits st) 6) (Z.land b 0x3F) in
      match n with
      | O => (units cp, idle)
      | S _ => ([], {| bits := cp; needed := n; lower := 0x80; upper := 0xBF |})
      end
    else
      (* the open sequence is ill-formed: one U+FFFD, and the byte is read again *)
      let '(out, st') := lead b in (replacement :: out, st')
  end.

Fixpoint decode_from (st : dstate) (bs : list Z) : JSString :=
  match bs with
  | [] => match needed st with O => [] | S _ => [replacement] end
  | b :: rest => let '(out, st') := step st b in out ++ decode_from st' rest
  end.

(** [buf.toString('utf8')]. *)
Definition decode (bs : list Z) : JSString := decode_from idle bs.

End Utf8.

(** ** SHA-256 and HMAC, as Node's [crypto.createHmac('sha256', key)] computes them *)

Module Sha256.

(** 32-bit words. *)
Definition wrap (x : Z) : Z := x mod 2 ^ 32.
Definition add (x y : Z) : Z := wrap (x + y).
Definition rotr (n x : Z) : Z := Z.lor (Z.shiftr x n) (wrap (Z.shiftl x (32 - n))).

Definition Ch (x y z : Z) : Z := Z.lxor (Z.land x y) (Z.land (Z.lnot x) z).
Definition Maj (x y z : Z) : Z := Z.lxor (Z.lxor (Z.land x y) (Z.land x z)) (Z.land y z).
Definition Sigma0 (x : Z) : Z := Z.lxor (Z.lxor (rotr 2 x) (rotr 13 x)) (rotr 22 x).
Definition Sigma1 (x : Z) : Z := Z.lxor (Z.lxor (rotr 6 x) (rotr 11 x)) (rotr 25 x).
Definition sigma0 (x : Z) : Z := Z.lxor (Z.lxor (rotr 7 x) (rotr 18 x)) (Z.shiftr x 3).
Definition sigma1 (x : Z) : Z := Z.lxor (Z.lxor (rotr 17 x) (rotr 19 x)) (Z.shiftr x 10).

(** The round constants (fractional parts of the cube roots of the first
    sixty-four primes) and the initial hash value. *)
Definition K : list Z := [
  1116352408; 1899447441; 3049323471; 3921009573; 961987163; 1508970993;
  2453635748; 2870763221; 3624381080; 310598401; 607225278; 1426881987;
  1925078388; 2162078206; 2614888103; 3248222580; 3835390401; 4022224774;
  264347078; 604807628; 770255983; 1249150122; 1555081692; 1996064986;
  2554220882; 2821834349; 2952996808; 3210313671; 3336571891; 3584528711;
  113926993; 338241895; 666307205; 773529912; 1294757372; 1396182291;
  1695183700; 1986661051; 2177026350; 2456956037; 2730485921; 2820302411;
  3259730800; 3345764771; 3516065817; 3600352804; 4094571909; 275423344;
  430227734; 506948616; 659060556; 883997877; 958139571; 1322822218;
  1537002063; 1747873779; 1955562222; 2024104815; 2227730452; 2361852424;
  2428436474; 2756734187; 3204031479; 3329325298 ].

Record regs : Type := {
  ra : Z; rb : Z; rc : Z; rd : Z; re : Z; rf : Z; rg : Z; rh : Z
}.

Definition H0 : regs := {|
  ra := 1779033703; rb := 3144134277; rc := 1013904242; rd := 2773480762;
  re := 1359893119; rf := 2600822924; rg := 528734635; rh := 1541459225 |}.

(** The message schedule is kept as a window of sixteen words, oldest
    first: the word sixteen places later is computed from the window. *)
Definition extend (w : list Z) : Z :=
  add (add (sigma1 (nth 14 w 0)) (nth 9 w 0)) (add (sigma0 (nth 1 w 0)) (nth 0 w 0)).

Definition round (st : regs * list Z) (k : Z) : regs * list Z :=
  let '(r, w) := st in
  let t1 := add (add (add (rh r) (Sigma1 (re r))) (add (Ch (re r) (rf r) (rg r)) k)) (hd 0 w) in
  let t2 := add (Sigma0 (ra r)) (Maj (ra r) (rb r) (rc r)) in
  ({| ra := add t1 t2; rb := ra r; rc := rb r; rd := rc r;
      re := add (rd r) t1; rf := re r; rg := rf r; rh := rg r |},
   tl w ++ [extend w]).

Definition compress (h : regs) (block : list Z) : regs :=
  let r := fst (fold_left round K (h, block)) in
  {| ra := add (ra h) (ra r); rb := add (rb h) (rb r); rc := add (rc h) (rc r);
     rd := add (rd h) (rd r); re := add (re h) (re r); rf := add (rf h) (rf r);
     rg := add (rg h) (rg r); rh := add (rh h) (rh r) |}.

(** Big-endian bytes of a word, and back. *)
Definition word_bytes (x : Z) : list Z :=
  [Z.shiftr x 24 mod 256; Z.shiftr x 16 mod 256; Z.shiftr x 8 mod 256; x mod 256].

Fixpoint words (bs : list Z) : list Z :=
  match bs with
  | b0 :: b1 :: b2 :: b3 :: rest =>
    (Z.shiftl b0 24 + Z.shiftl b1 16 + Z.shiftl b2 8 + b3) :: words rest
  | _ => []
  end.

Fixpoint blocks (fuel : nat) (ws : list Z) : list (list Z) :=
  match fuel, ws with
  | S fuel', _ :: _ => firstn 16 ws :: blocks fuel' (skipn 16 ws)
  | _, _ => []
  end.

(** Padding: the bit 1, zeros, and the bit length on eight bytes. *)
Definition pad (msg : list Z) : list Z :=
  let len := Z.of_nat (length msg) in
  msg ++ [128] ++ repeat 0 (Z.to_nat ((55 - len) mod 64))
      ++ word_bytes (Z.shiftr (8 * len) 32) ++ word_bytes (8 * len).

Definition regs_bytes (r : regs) : list Z :=
  word_bytes (ra r) ++ word_bytes (rb r) ++ word_bytes (rc r) ++ word_bytes (rd r) ++
  word_bytes (re r) ++ word_bytes (rf r) ++ word_bytes (rg r) ++ word_bytes (rh r).

Definition sha256 (msg : list Z) : list Z :=
  let ws := words (pad msg) in
  regs_bytes (fold_left compress (blocks (length ws) ws) H0).

End Sha256.

Module Hmac.

Definition block_size : nat := 64%nat.

(** The key on one block: hashed when longer, then filled with zeros. *)
Definition block_key (key : list Z) : list Z :=
  let k := if (block_size <? length key)%nat then Sha256.sha256 key else key in
  k ++ repeat 0 (block_size - length k).

Definition hmac_sha256 (key msg : list Z) : list Z :=
  let k := block_key key in
  Sha256.sha256 (map (Z.lxor 0x5c) k ++ Sha256.sha256 (map (Z.lxor 0x36) k ++ msg)).

(** [digest('hex')]: two lower-case hexadecimal digits for each byte. *)
Definition hex_digit (d : Z) : Z := if d <? 10 then 48 + d else 87 + d.

Definition hex (bs : list Z) : JSString :=
  flat_map (fun b => [hex_digit (b / 16); hex_digit (b mod 16)]) bs.

End Hmac.

(** ** Records, configuration and effects *)

Module Types.

(** [TokenTransfer] of [src/types/index.ts].  The two addresses are read
    out of an array by index in the address-activity revision, so they may
    be [undefined]. *)
Record TokenTransfer : Type := {
  amount : number;
  tokenAddress : JSString;
  from : option JSString;
  to : option JSString;
  timestamp : number;
  transactionHash : JSString
}.

(** [config] of [src/config/config.ts]: the environment read at start-up.
    [usdcTokenAddress] is the base-58 text of the key; the signing key is
    [undefined] when the variable is not set. *)
Record Config : Type := {
  solanaAddress : JSString;
  usdcTokenAddress : JSString;
  alchemyWebhookSigningKey : option JSString
}.

(** [LAMPORTS_PER_SOL] of [@solana/web3.js]. *)
Definition LAMPORTS_PER_SOL : Z := 1000000000.

End Types.
Export Types.

Module Effects.

Inductive level : Type := LDebug | LInfo | LError.

(** A thrown value: a [TypeError] of the runtime or an [Error] of the code,
    with its message.  [ErrorOf text value] is an [Error] whose message is
    built by a template, the text followed by a string of the program. *)
Inductive Exn : Type :=
| TypeError (message : string)
| Error (message : string)
| ErrorOf (message : string) (value : JSString).

Inductive outcome (A : Type) : Type :=
| Return (a : A)
| Throw (e : Exn).
Arguments Return {A} a.
Arguments Throw {A} e.

(** The service's [Map] and what the loggers wrote, latest entry first. *)
Record State : Type := {
  transfers : gmap JSString TokenTransfer;
  logs : list (level * string)
}.

Definition initial : State := {| transfers := ∅; logs := [] |}.

(** A computation: it runs on a state and ends by returning or throwing;
    what it did to the state stays done in both cases. *)
Definition M (A : Type) : Type := State -> outcome A * State.

#[global] Instance M_ret : MRet M := fun A a s => (Return a, s).

#[global] Instance M_bind : MBind M := fun A B f m s =>
  match m s with
  | (Return a, s') => f a s'
  | (Throw e, s') => (Throw e, s')
  end.

Definition throw {A : Type} (e : Exn) : M A := fun s => (Throw e, s).

Definition lift {A : Type} (o : outcome A) : M A := fun s => (o, s).

(** [try { body } catch (error) { handler }]. *)
Definition try_catch {A : Type} (body : M A) (handler : Exn -> M A) : M A := fun s =>
  match body s with
  | (Throw e, s') => handler e s'
  | r => r
  end.

(** [logger.debug], [logger.info], [logger.error]. *)
Definition logger (l : level) (message : string) : M unit := fun s =>
  (Return tt, {| transfers := transfers s; logs := (l, message) :: logs s |}).

(** [this.transfers.set(key, value)] and [this.transfers.get(key)]. *)
Definition transfers_set (key : JSString) (value : TokenTransfer) : M unit := fun s =>
  (Return tt, {| transfers := <[key := value]> (transfers s); logs := logs s |}).

Definition transfers_get (key : JSString) : M (option TokenTransfer) := fun s =>
  (Return (transfers s !! key), s).

(** [x.p] where [x] may be [null] or [undefined]. *)
Definition deref {A : Type} (x : option A) (message : string) : outcome A :=
  match x with
  | Some a => Return a
  | None => Throw (TypeError message)
  end.

End Effects.
Export Effects.

(** ** [src/utils/signatureVerification.ts] *)

Module Crypto.

(** [crypto.createHmac('sha256', key)]: the key is taken as UTF-8 text; a
    key that is [undefined] is refused with a [TypeError]. *)
Definition createHmac (key : option JSString) : outcome (list Z) :=
  match key with
  | Some k => Return (Utf8.encode k)
  | None => Throw (TypeError "The key argument must be of type string")
  end.

(** [hmac.update(data, 'utf8')] followed by [hmac.digest('hex')]. *)
Definition update_digest (hmac : list Z) (data : JSString) : JSString :=
  Hmac.hex (Hmac.hmac_sha256 hmac (Utf8.encode data)).

End Crypto.

Module SignatureVerification.

(** Nothing here catches what [createHmac] throws. *)
Definition verifyAlchemySignature
    (rawBody signature : JSString) (signingKey : option JSString) : outcome bool :=
  match Crypto.createHmac signingKey with
  | Throw e => Throw e
  | Return hmac =>
    let digest := Crypto.update_digest hmac rawBody in
    Return (str_eqb signature digest)
  end.

End SignatureVerification.

(** The revision of the same file that logs and catches. *)

Module SignatureVerificationLogged.

Definition verifyAlchemySignature
    (rawBody signature : JSString) (signingKey : option JSString) : M bool :=
  try_catch
    (logger LDebug "Starting signature verification";;
     hmac ← lift (Crypto.createHmac signingKey);
     let digest := Crypto.update_digest hmac rawBody in
     let isValid := str_eqb signature digest in
     logger LDebug "Signature verification completed";;
     mret isValid)
    (fun _ =>
       logger LError "Error during signature verification";;
       mret false).

End SignatureVerificationLogged.

(** ** [src/services/tokenService.ts]: the legacy token-event shape *)

Module Legacy.

(** A field of the [event] object: absent, present with a value that is not
    a string, or a string. *)
Inductive field : Type :=
| Absent
| NotString
| Str (s : JSString).

Record Event : Type := {
  ev_tokenAddress : field;
  ev_to : field;
  ev_from : field;
  ev_amount : field;
  ev_hash : field;
  ev_timestamp : field
}.

(** The request body: not an object at all, an object whose [event] is
    missing or not an object, or an object with an [event]. *)
Inductive payload : Type :=
| NotAnObject
| NoEvent
| WithEvent (event : Event).

(** What [validatePayload] asserts the payload to be. *)
Record ValidEvent : Type := {
  tokenAddress : JSString;
  to : JSString;
  from : JSString;
  amount : JSString;
  hash : JSString;
  timestamp : JSString
}.

Definition present (f : field) : bool :=
  match f with Absent => false | _ => true end.

(** [requiredFields.filter(field => !(field in event))]. *)
Definition missingFields (e : Event) : list string :=
  map fst (filter (fun x => negb (present (snd x)))
    [("tokenAddress", ev_tokenAddress e); ("to", ev_to e); ("from", ev_from e);
     ("amount", ev_amount e); ("hash", ev_hash e); ("timestamp", ev_timestamp e)]%string).

(** [typeof x !== 'string'] throws the given message. *)
Definition string_of (f : field) (message : string) : outcome JSString :=
  match f with
  | Str s => Return s
  | _ => Throw (Error message)
  end.

(** [/^[1-9A-HJ-NP-Za-km-z]{32,44}$/]. *)
Definition base58_char (c : Z) : bool :=
  ((49 <=? c) && (c <=? 57)) || ((65 <=? c) && (c <=? 72)) || ((74 <=? c) && (c <=? 78))
  || ((80 <=? c) && (c <=? 90)) || ((97 <=? c) && (c <=? 107)) || ((109 <=? c) && (c <=? 122)).

Definition address_re (s : JSString) : bool :=
  forallb base58_char s && (32 <=? length s)%nat && (length s <=? 44)%nat.

(** [/^\d*\.?\d*$/]: digits, at most one point, digits, the end. *)
Definition is_digit (c : Z) : bool := (48 <=? c) && (c <=? 57).

Fixpoint skip_digits (s : JSString) : JSString :=
  match s with
  | c :: rest => if is_digit c then skip_digits rest else s
  | [] => []
  end.

Definition amount_re (s : JSString) : bool :=
  match skip_digits s with
  | [] => true
  | c :: rest => (c =? 46) && match skip_digits rest with [] => true | _ :: _ => false end
  end.

(** [parseFloat], on the text that reaches it.  The call comes after
    [amount_re] has matched, so signs, exponents and leading blanks do not
    occur: the longest prefix of digits with at most one point is read, and
    a prefix without any digit is [NaN]. *)
Fixpoint take_digits (s : JSString) : list Z :=
  match s with
  | c :: rest => if is_digit c then (c - 48) :: take_digits rest else []
  | [] => []
  end.

Definition decimal (ds : list Z) : Z := fold_left (fun acc d => 10 * acc + d) ds 0.

Definition parseFloat (s : JSString) : number :=
  let int := take_digits s in
  let frac :=
    match skip_digits s with
    | c :: rest => if c =? 46 then take_digits rest else []
    | [] => []
    end in
  match int, frac with
  | [], [] => NaN
  | _, _ => Num (inject_Z (decimal (int ++ frac)) / inject_Z (10 ^ Z.of_nat (length frac)))
  end.

Section Service.

Variable host : Host.
Variable config : Config.

Definition must (b : bool) (message : string) : outcome unit :=
  if b then Return tt else Throw (Error message).

Definition and_then {A B : Type} (o : outcome A) (k : A -> outcome B) : outcome B :=
  match o with
  | Return a => k a
  | Throw e => Throw e
  end.

(** The body of the [try] in [validatePayload]. *)
Definition check (p : payload) : outcome ValidEvent :=
  match p with
  | NotAnObject => Throw (Error "Payload must be an object")
  | NoEvent => Throw (Error "Missing or invalid event object")
  | WithEvent e =>
    match missingFields e with
    | (_ :: _) as missing =>
      Throw (Error ("Missing required fields: " ++ String.concat ", " missing))
    | [] =>
      and_then (string_of (ev_tokenAddress e) "tokenAddress must be a string") (fun tokenAddress =>
      and_then (string_of (ev_to e) "to address must be a string") (fun to =>
      and_then (string_of (ev_from e) "from address must be a string") (fun from =>
      and_then (string_of (ev_amount e) "amount must be a string") (fun amount =>
      and_then (string_of (ev_hash e) "hash must be a string") (fun hash =>
      and_then (string_of (ev_timestamp e) "timestamp must be a string") (fun timestamp =>
      and_then (must (address_re tokenAddress) "Invalid token address format") (fun _ =>
      and_then (must (address_re to) "Invalid recipient address format") (fun _ =>
      and_then (must (address_re from) "Invalid sender address format") (fun _ =>
      and_then (must (amount_re amount) "Invalid amount format") (fun _ =>
      and_then (must (negb (isNaN (Date_getTime host timestamp))) "Invalid timestamp format") (fun _ =>
      Return {| tokenAddress := tokenAddress; to := to; from := from;
                amount := amount; hash := hash; timestamp := timestamp |})))))))))))
    end
  end.

Definition validatePayload (p : payload) : M ValidEvent :=
  try_catch (lift (check p))
    (fun error => logger LError "Payload validation failed";; throw error).

(** The inner [try] of [handleWebhook]: build the record, refuse a [NaN],
    store. *)
Definition record (event : ValidEvent) : M unit :=
  try_catch
    (let transfer := {|
       Types.amount := parseFloat (amount event);
       Types.tokenAddress := tokenAddress event;
       Types.from := Some (from event);
       Types.to := Some (to event);
       Types.timestamp := Date_getTime host (timestamp event);
       Types.transactionHash := hash event |} in
     (if isNaN (Types.amount transfer) then throw (Error "Failed to parse amount") else mret tt);;
     (if isNaN (Types.timestamp transfer) then throw (Error "Failed to parse timestamp") else mret tt);;
     transfers_set (Types.transactionHash transfer) transfer;;
     logger LInfo "Transfer recorded")
    (fun error => logger LError "Failed to process transfer";; throw error).

Definition handleWebhook (p : payload) : M unit :=
  try_catch
    (logger LDebug "Received webhook payload";;
     event ← validatePayload p;
     let eventTokenAddress := toLowerCase host (tokenAddress event) in
     let configTokenAddress := toLowerCase host (usdcTokenAddress config) in
     logger LDebug "Comparing token addresses";;
     if negb (str_eqb eventTokenAddress configTokenAddress) then
       logger LInfo "Non-USDC transfer ignored"
     else
       let eventRecipient := toLowerCase host (to event) in
       let monitoredAddress := toLowerCase host (solanaAddress config) in
       logger LDebug "Comparing recipient addresses";;
       if negb (str_eqb eventRecipient monitoredAddress) then
         logger LInfo "Transfer to different address ignored"
       else record event)
    (fun error => logger LError "Error handling webhook";; throw error).

(** [typeof txHash !== 'string'] cannot hold for the typed argument. *)
Definition getTransferByHash (txHash : JSString) : M (option TokenTransfer) :=
  try_catch
    (transfer ← transfers_get txHash;
     match transfer with
     | Some _ => logger LInfo "Transfer found"
     | None => logger LInfo "Transfer not found"
     end;;
     mret transfer)
    (fun error => logger LError "Error retrieving transfer";; throw error).

End Service.

End Legacy.

(** ** The address-activity revision of the token service *)

Module RawActivity.

(** The payload of [src/types/index.ts], with the fields the service reads.
    Where [validatePayload] or the per-item [try] guards against a missing
    part the model lets the part be missing: an array may be empty,
    [account_keys] and [instructions] may be absent ([None]), and an item of
    the transaction list may be [null] ([None]). *)
Record TransactionInstruction : Type := {
  accounts : list Z
}.

Record TransactionMessage : Type := {
  account_keys : option (list JSString);
  instructions : option (list TransactionInstruction)
}.

Record TransactionMeta : Type := {
  fee : Z;
  pre_balances : list Z;
  post_balances : list Z
}.

Record TransactionDetail : Type := {
  message : list TransactionMessage
}.

Record Transaction : Type := {
  signature : JSString;
  transaction : list TransactionDetail;
  meta : list TransactionMeta
}.

(** An element of [event.transaction]. *)
Definition item : Type := option Transaction.

Record AlchemyWebhookPayload : Type := {
  type : option JSString;
  event : option (list item)
}.

(** The request body: [None] when it is not an object. *)
Definition payload : Type := option AlchemyWebhookPayload.

Definition ADDRESS_ACTIVITY : JSString := lit "ADDRESS_ACTIVITY".

(** The native-asset marker written into [tokenAddress]. *)
Definition SOL : JSString := lit "SOL".

Section Service.

Variable host : Host.
Variable config : Config.

Definition must (b : bool) (message : string) : outcome unit :=
  if b then Return tt else Throw (Error message).

Definition and_then {A B : Type} (o : outcome A) (k : A -> outcome B) : outcome B :=
  match o with
  | Return a => k a
  | Throw e => Throw e
  end.

(** [!x] for a string that may be absent. *)
Definition falsy (s : option JSString) : bool :=
  match s with
  | None | Some [] => true
  | Some (_ :: _) => false
  end.

(** The body of the [try] in [validatePayload]: only the first item of the
    list is looked at.  On success the payload is known to carry the list. *)
Definition check (p : payload) : outcome (list item) :=
  match p with
  | None => Throw (Error "Payload must be an object")
  | Some typedPayload =>
    and_then (must (negb (falsy (type typedPayload))) "Missing webhook type") (fun _ =>
    and_then (if bool_decide (type typedPayload = Some ADDRESS_ACTIVITY) then Return tt
              else Throw (ErrorOf "Unsupported webhook type: "
                                  (default (lit "undefined") (type typedPayload)))) (fun _ =>
    match event typedPayload with
    | Some ((Some transaction0 :: _) as items) =>
      match transaction transaction0 with
      | {| message := message0 :: _ |} :: _ =>
        and_then (must (bool_decide (is_Some (account_keys message0)))
                       "Missing or invalid account_keys") (fun _ =>
        and_then (must (bool_decide (is_Some (instructions message0)))
                       "Missing or invalid instructions") (fun _ =>
        match meta transaction0 with
        | _ :: _ => Return items
        | [] => Throw (Error "Missing transaction metadata")
        end))
      | _ => Throw (Error "Invalid transaction structure")
      end
    | _ => Throw (Error "Missing transaction data")
    end))
  end.

Definition validatePayload (p : payload) : M (list item) :=
  try_catch (lift (check p))
    (fun error => logger LError "Payload validation failed";; throw error).

Definition isMonitoredAddress (address : JSString) : bool :=
  str_eqb (toLowerCase host address) (toLowerCase host (solanaAddress config)).

(** [processTransaction(transaction, requestId)]; [now] is what [Date.now()]
    returns during the call.  The handler of the [catch] reads
    [transaction.signature] for its log entry before it rethrows. *)
Definition processTransaction (tx : item) (now : number) : M unit :=
  try_catch
    (t ← lift (deref tx "Cannot read properties of null (reading 'transaction')");
     detail ← lift (deref (head (transaction t)) "Cannot read properties of undefined (reading 'message')");
     let message := head (message detail) in
     let meta := head (meta t) in
     msg ← lift (deref message "Cannot read properties of undefined (reading 'account_keys')");
     let accounts := account_keys msg in
     let instructions := instructions msg in
     m ← lift (deref meta "Cannot read properties of undefined (reading 'pre_balances')");
     logger LDebug "Processing transaction";;
     keys ← lift (deref accounts "Cannot read properties of undefined (reading 'findIndex')");
     match findIndex isMonitoredAddress keys with
     | None => logger LDebug "Monitored address not found in transaction"
     | Some monitoredAddressIndex =>
       let preBalance := toNumber (nth_error (pre_balances m) monitoredAddressIndex) in
       let postBalance := toNumber (nth_error (post_balances m) monitoredAddressIndex) in
       let balanceChange := div (sub postBalance preBalance) (Num (inject_Z LAMPORTS_PER_SOL)) in
       if gt0 balanceChange then
         ins ← lift (deref instructions "Cannot read properties of undefined (reading '0')");
         first ← lift (deref (head ins) "Cannot read properties of undefined (reading 'accounts')");
         let transfer := {|
           amount := balanceChange;
           tokenAddress := SOL;
           from := index_opt keys (head (RawActivity.accounts first));
           to := nth_error keys monitoredAddressIndex;
           timestamp := now;
           transactionHash := signature t |} in
         transfers_set (transactionHash transfer) transfer;;
         logger LInfo "SOL transfer recorded"
       else
         logger LDebug "No positive balance change for monitored address"
     end)
    (fun error =>
       _ ← lift (deref tx "Cannot read properties of null (reading 'signature')");
       logger LError "Error processing transaction";;
       throw error).

(** The loop of [handleWebhook] from the [i]-th item on; [clock i] is the
    time at which the [i]-th item is processed.  The handler of the inner
    [catch] reads [transaction.signature] for its log entry. *)
Fixpoint processAll (clock : nat -> number) (i : nat) (items : list item) : M unit :=
  match items with
  | [] => mret tt
  | tx :: rest =>
    try_catch (processTransaction tx (clock i))
      (fun _ =>
         _ ← lift (deref tx "Cannot read properties of null (reading 'signature')");
         logger LError "Error processing transaction in webhook");;
    processAll clock (S i) rest
  end.

Definition handleWebhook (clock : nat -> number) (p : payload) : M unit :=
  try_catch
    (logger LDebug "Received webhook payload";;
     items ← validatePayload p;
     processAll clock 0 items;;
     logger LInfo "Webhook processing completed")
    (fun error => logger LError "Error handling webhook";; throw error).

Definition getTransferByHash (txHash : JSString) : M (option TokenTransfer) :=
  try_catch
    (transfer ← transfers_get txHash;
     match transfer with
     | Some _ => logger LInfo "Transfer found"
     | None => logger LInfo "Transfer not found"
     end;;
     mret transfer)
    (fun error => logger LError "Error retrieving transfer";; throw error).

End Service.

End RawActivity.

(** ** [src/controllers/webhookController.ts] *)

Module Controller.

(** The value of [req.headers['x-alchemy-signature']]: missing, one string,
    or the array Node builds for a header sent more than once. *)
Inductive header : Type :=
| HAbsent
| HString (s : JSString)
| HArray (l : list JSString).

Record Request (Body : Type) : Type := {
  x_alchemy_signature : header;
  rawBody : option (list Z);
  body : Body
}.
Arguments x_alchemy_signature {Body} _.
Arguments rawBody {Body} _.
Arguments body {Body} _.

Inductive reply : Type :=
| Message (text : string)
| Transfer (t : TokenTransfer).

Record Response : Type := {
  status : Z;
  json : reply
}.

Section Handlers.

Context {Body : Type}.
Variable config : Config.

(** [tokenService.handleWebhook] and [tokenService.getTransferByHash] of the
    service the controller is linked with. *)
Variable tokenService_handleWebhook : Body -> M unit.
Variable tokenService_getTransferByHash : JSString -> M (option TokenTransfer).

Definition handleWebhook (req : Request Body) : M Response :=
  try_catch
    (match x_alchemy_signature req with
     | HString ((_ :: _) as signature) =>
       match rawBody req with
       | None =>
         logger LError "Raw body not available";;
         mret {| status := 500; json := Message "Internal server error" |}
       | Some raw =>
         isValid ← lift (SignatureVerification.verifyAlchemySignature
                           (Utf8.decode raw) signature (alchemyWebhookSigningKey config));
         if negb isValid then
           logger LError "Invalid webhook signature";;
           mret {| status := 401; json := Message "Invalid signature" |}
         else
           tokenService_handleWebhook (body req);;
           mret {| status := 200; json := Message "Webhook processed successfully" |}
       end
     | _ =>
       logger LError "Missing or invalid signature";;
       mret {| status := 401; json := Message "Missing signature" |}
     end)
    (fun _ =>
       logger LError "Error processing webhook";;
       mret {| status := 500; json := Message "Internal server error" |}).

Definition queryTransaction (txHash : JSString) : M Response :=
  try_catch
    (transfer ← tokenService_getTransferByHash txHash;
     match transfer with
     | None => mret {| status := 404; json := Message "Transaction not found" |}
     | Some t => mret {| status := 200; json := Transfer t |}
     end)
    (fun _ =>
       logger LError "Error querying transaction";;
       mret {| status := 500; json := Message "Internal server error" |}).

End Handlers.

End Controller.

(** ** A host and a configuration for the worked examples

    Lower-casing of the Basic Latin letters, and dates in the interchange
    format of ECMAScript with the UTC designator,
    [YYYY-MM-DDTHH:mm:ss.sssZ].  The general statements of Part II do not
    depend on this host: they are proved for every [Host]. *)

Module Sample.

Definition lower (c : Z) : Z := if (65 <=? c) && (c <=? 90) then c + 32 else c.

Definition toLowerCase (s : JSString) : JSString := map lower s.

Definition digit (c : Z) : option Z :=
  if (48 <=? c) && (c <=? 57) then Some (c - 48) else None.

Fixpoint number_of (acc : Z) (s : JSString) : option Z :=
  match s with
  | [] => Some acc
  | c :: rest =>
    match digit c with
    | Some d => number_of (10 * acc + d) rest
    | None => None
    end
  end.

Definition leap (y : Z) : bool :=
  ((y mod 4 =? 0) && negb (y mod 100 =? 0)) || (y mod 400 =? 0).

Definition days_in_month (y m : Z) : Z :=
  if m =? 2 then (if leap y then 29 else 28)
  else if (m =? 4) || (m =? 6) || (m =? 9) || (m =? 11) then 30 else 31.

(** Days from 1970-01-01 to the given day of the proleptic Gregorian
    calendar. *)
Definition days_from_civil (y m d : Z) : Z :=
  let y' := if m <=? 2 then y - 1 else y in
  let era := y' / 400 in
  let yoe := y' - era * 400 in
  let doy := (153 * (if 2 <? m then m - 3 else m + 9) + 2) / 5 + d - 1 in
  let doe := yoe * 365 + yoe / 4 - yoe / 100 + doy in
  era * 146097 + doe - 719468.

Definition getTime (s : JSString) : number :=
  match s with
  | [y1; y2; y3; y4; s1; m1; m2; s2; d1; d2; t; h1; h2; c1; n1; n2; c2; e1; e2; p; f1; f2; f3; z] =>
    match number_of 0 [y1; y2; y3; y4], number_of 0 [m1; m2], number_of 0 [d1; d2],
          number_of 0 [h1; h2], number_of 0 [n1; n2], number_of 0 [e1; e2],
          number_of 0 [f1; f2; f3] with
    | Some y, Some m, Some d, Some h, Some n, Some e, Some f =>
      if (s1 =? 45) && (s2 =? 45) && (t =? 84) && (c1 =? 58) && (c2 =? 58) && (p =? 46)
         && (z =? 90) && (1 <=? m) && (m <=? 12) && (1 <=? d) && (d <=? days_in_month y m)
         && (h <=? 23) && (n <=? 59) && (e <=? 59)
      then Num (inject_Z ((((days_from_civil y m d * 24 + h) * 60 + n) * 60 + e) * 1000 + f))
      else NaN
    | _, _, _, _, _, _, _ => NaN
    end
  | _ => NaN
  end.

Definition host : Host := {| JS.toLowerCase := toLowerCase; JS.Date_getTime := getTime |}.

Definition monitored : JSString := lit "9xQeWvG816bUx9EPjHmaT23yvVM2ZWbrrpZb9PusVFin".
Definition usdc : JSString := lit "EPjFWdd5AufqSSqeM2qN1xzybapC8G4wEGGkZwyTDt1v".
Definition sender : JSString := lit "4Nd1mBQtrMJVYVfKf2PJy9NZUZdTAsp7D4xWLs4gDB4T".
Definition secret : JSString := lit "whsec_test".

Definition config : Config := {|
  solanaAddress := monitored;
  usdcTokenAddress := usdc;
  alchemyWebhookSigningKey := Some secret |}.

End Sample.

(** ** The revisions of the HTTP handler that log *)

(** The revision of [webhookController.ts] with a request identifier and a
    log entry for every step.  After the service has returned, the entry
    [Webhook processed successfully] reads [req.body.webhookId]: [nullish]
    tells whether [req.body] is [null] or [undefined], in which case the
    read throws. *)

Module ControllerLogged.

Import Controller.

Section Handlers.

Context {Body : Type}.
Variable config : Config.

(** The revision of [verifyAlchemySignature] the controller is linked with,
    whether [req.body] is [null] or [undefined], and the service. *)
Variable verifyAlchemySignature : JSString -> JSString -> option JSString -> M bool.
Variable nullish : Body -> bool.
Variable tokenService_handleWebhook : Body -> M unit.
Variable tokenService_getTransferByHash : JSString -> M (option TokenTransfer).

(** The argument [req.body.webhookId || 'unknown'] of a log entry. *)
Definition webhookType (b : Body) : M unit :=
  if nullish b then throw (TypeError "Cannot read properties of undefined (reading 'webhookId')")
  else mret tt.

Definition handleWebhook (req : Request Body) : M Response :=
  logger LInfo "Received webhook request";;
  try_catch
    (match x_alchemy_signature req with
     | HString ((_ :: _) as signature) =>
       match rawBody req with
       | None =>
         logger LError "Raw body not available";;
         mret {| status := 500; json := Message "Internal server error" |}
       | Some raw =>
         logger LDebug "Processing webhook body";;
         isValid ← verifyAlchemySignature
                     (Utf8.decode raw) signature (alchemyWebhookSigningKey config);
         if negb isValid then
           logger LError "Invalid webhook signature";;
           mret {| status := 401; json := Message "Invalid signature" |}
         else
           logger LInfo "Signature verification successful";;
           tokenService_handleWebhook (body req);;
           webhookType (body req);;
           logger LInfo "Webhook processed successfully";;
           mret {| status := 200; json := Message "Webhook processed successfully" |}
       end
     | _ =>
       logger LError "Missing or invalid signature";;
       mret {| status := 401; json := Message "Missing signature" |}
     end)
    (fun _ =>
       logger LError "Error processing webhook";;
       mret {| status := 500; json := Message "Internal server error" |}).

Definition queryTransaction (txHash : JSString) : M Response :=
  logger LInfo "Transaction query request received";;
  try_catch
    (transfer ← tokenService_getTransferByHash txHash;
     match transfer with
     | None =>
       logger LInfo "Transaction not found";;
       mret {| status := 404; json := Message "Transaction not found" |}
     | Some t =>
       logger LInfo "Transaction found";;
       mret {| status := 200; json := Transfer t |}
     end)
    (fun _ =>
       logger LError "Error querying transaction";;
       mret {| status := 500; json := Message "Internal server error" |}).

End Handlers.

End ControllerLogged.

(** The revision that, besides, refuses to work without a signing key and
    wraps the verification and the service call each in a [try] of its
    own. *)

Module ControllerGuarded.

Import Controller.

Section Handlers.

Context {Body : Type}.
Variable config : Config.
Variable verifyAlchemySignature : JSString -> JSString -> option JSString -> M bool.
Variable nullish : Body -> bool.
Variable tokenService_handleWebhook : Body -> M unit.

(** [!config.alchemyWebhookSigningKey]: the key is missing or empty. *)
Definition no_key (key : option JSString) : bool :=
  match key with
  | None | Some [] => true
  | Some (_ :: _) => false
  end.

(** What a stage tells the handler: go on with a value, or answer now. *)
Inductive stage (A : Type) : Type :=
| Next (a : A)
| Answer (r : Response).
Arguments Next {A} a.
Arguments Answer {A} r.

(** The [try] around the verification: it returns out of the handler when
    the signature is refused and when the verifier throws. *)
Definition verification (raw : list Z) (signature : JSString) : M (stage unit) :=
  try_catch
    (isValid ← verifyAlchemySignature
                 (Utf8.decode raw) signature (alchemyWebhookSigningKey config);
     if negb isValid then
       logger LError "Invalid webhook signature";;
       mret (Answer {| status := 401; json := Message "Invalid signature" |})
     else mret (Next tt))
    (fun _ =>
       logger LError "Error during signature verification";;
       mret (Answer {| status := 500;
                       json := Message "Internal server error - Signature verification failed" |})).

(** The [try] around the call of the service. *)
Definition processing (b : Body) : M (stage unit) :=
  try_catch
    (tokenService_handleWebhook b;; mret (Next tt))
    (fun _ =>
       logger LError "Error in tokenService.handleWebhook";;
       mret (Answer {| status := 500;
                       json := Message "Internal server error - Webhook processing failed" |})).

Definition handleWebhook (req : Request Body) : M Response :=
  logger LInfo "Received webhook request";;
  try_catch
    (logger LDebug "Full request details";;
     match x_alchemy_signature req with
     | HString ((_ :: _) as signature) =>
       match rawBody req with
       | None =>
         logger LError "Raw body not available";;
         mret {| status := 500; json := Message "Internal server error - Raw body missing" |}
       | Some raw =>
         if no_key (alchemyWebhookSigningKey config) then
           logger LError "Webhook signing key not configured";;
           mret {| status := 500;
                   json := Message "Internal server error - Configuration issue" |}
         else
           logger LDebug "Processing webhook body";;
           verified ← verification raw signature;
           match verified with
           | Answer r => mret r
           | Next _ =>
             logger LInfo "Signature verification successful";;
             processed ← processing (body req);
             match processed with
             | Answer r => mret r
             | Next _ =>
               ControllerLogged.webhookType nullish (body req);;
               logger LInfo "Webhook processed successfully";;
               mret {| status := 200; json := Message "Webhook processed successfully" |}
             end
           end
       end
     | _ =>
       logger LError "Missing or invalid signature";;
       mret {| status := 401; json := Message "Missing signature" |}
     end)
    (fun _ =>
       logger LError "Unexpected error in webhook handler";;
       mret {| status := 500; json := Message "Internal server error - Unexpected error" |}).

End Handlers.

End ControllerGuarded.

(** The first revision of the handler, which compares the header
    [x-webhook-auth] with a token of the configuration
    ([config.alchemyWebhookAuthToken], the empty string when the variable is
    not set). *)

Module ControllerToken.

Import Controller.

Record Request (Body : Type) : Type := {
  x_webhook_auth : header;
  body : Body
}.
Arguments x_webhook_auth {Body} _.
Arguments body {Body} _.

Section Handlers.

Context {Body : Type}.
Variable alchemyWebhookAuthToken : JSString.
Variable tokenService_handleWebhook : Body -> M unit.

(** [authToken !== config.alchemyWebhookAuthToken]. *)
Definition differs (authToken : header) : bool :=
  match authToken with
  | HString s => negb (str_eqb s alchemyWebhookAuthToken)
  | HAbsent | HArray _ => true
  end.

Definition handleWebhook (req : Request Body) : M Response :=
  try_catch
    (if differs (x_webhook_auth req) then
       logger LError "Invalid webhook authentication";;
       mret {| status := 401; json := Message "Unauthorized" |}
     else
       tokenService_handleWebhook (body req);;
       mret {| status := 200; json := Message "Webhook processed successfully" |})
    (fun _ =>
       logger LError "Error processing webhook";;
       mret {| status := 500; json := Message "Internal server error" |}).

End Handlers.

End ControllerToken.

(** ** The notions of the specification the properties are stated with *)

Module Spec.

(** The signature the specification expects for a body received as bytes:
    HMAC-SHA256 over the bytes themselves, in lower-case hexadecimal. *)
Definition hmac_hex (rawBytes : list Z) (sharedSecret : JSString) : JSString :=
  Hmac.hex (Hmac.hmac_sha256 (Utf8.encode sharedSecret) rawBytes).

(** [verify] on bytes, as the controller calls it: the buffer is turned
    into a string first ([req.rawBody.toString('utf8')]). *)
Definition verify (rawBytes : list Z) (claimedSignature sharedSecret : JSString) : outcome bool :=
  SignatureVerification.verifyAlchemySignature
    (Utf8.decode rawBytes) claimedSignature (Some sharedSecret).

(** One bit of one element (a byte of a body, a code unit of a string)
    inverted. *)
Definition flip_bit (s : list Z) (i : nat) (bit : Z) : list Z :=
  match nth_error s i with
  | Some c => firstn i s ++ Z.lxor c (2 ^ bit) :: skipn (S i) s
  | None => s
  end.

(** A lower-case hexadecimal digit. *)
Definition lower_hex (c : Z) : Prop := 48 <= c <= 57 \/ 97 <= c <= 102.

(** Well-formed UTF-8: the byte sequences of the Unicode standard
    (one byte; two bytes from C2; three bytes, without the overlong forms
    and the surrogates; four bytes up to U+10FFFF). *)
Inductive well_formed_utf8 : list Z -> Prop :=
| wf_end : well_formed_utf8 []
| wf_one (b : Z) (rest : list Z) :
    0 <= b <= 0x7F -> well_formed_utf8 rest -> well_formed_utf8 (b :: rest)
| wf_two (b1 b2 : Z) (rest : list Z) :
    0xC2 <= b1 <= 0xDF -> 0x80 <= b2 <= 0xBF ->
    well_formed_utf8 rest -> well_formed_utf8 (b1 :: b2 :: rest)
| wf_three (b1 b2 b3 : Z) (rest : list Z) :
    0xE0 <= b1 <= 0xEF ->
    (if b1 =? 0xE0 then 0xA0 else 0x80) <= b2 <= (if b1 =? 0xED then 0x9F else 0xBF) ->
    0x80 <= b3 <= 0xBF ->
    well_formed_utf8 rest -> well_formed_utf8 (b1 :: b2 :: b3 :: rest)
| wf_four (b1 b2 b3 b4 : Z) (rest : list Z) :
    0xF0 <= b1 <= 0xF4 ->
    (if b1 =? 0xF0 then 0x90 else 0x80) <= b2 <= (if b1 =? 0xF4 then 0x8F else 0xBF) ->
    0x80 <= b3 <= 0xBF -> 0x80 <= b4 <= 0xBF ->
    well_formed_utf8 rest -> well_formed_utf8 (b1 :: b2 :: b3 :: b4 :: rest).

(** The balance change of step 2, in the display unit. *)
Definition delta (preBalance postBalance : Z) : Q :=
  ((inject_Z postBalance - inject_Z preBalance) / inject_Z LAMPORTS_PER_SOL)%Q.

(** The parts of a transaction item that extraction reads: the account keys
    and the instruction list of its first message, and its first [meta]. *)
Definition item_parts (t : RawActivity.Transaction) (keys : list JSString)
    (ins : option (list RawActivity.TransactionInstruction))
    (m : RawActivity.TransactionMeta) : Prop :=
  exists detail details messages metas,
    RawActivity.transaction t = detail :: details
    /\ RawActivity.message detail
       = {| RawActivity.account_keys := Some keys; RawActivity.instructions := ins |} :: messages
    /\ RawActivity.meta t = m :: metas.

(** The record that processing one item files, if any: what
    [processTransaction] passes to [this.transfers.set], read off its body. *)
Definition stored_by (host : Host) (config : Config) (tx : RawActivity.item) (now : number)
    : option TokenTransfer :=
  t ← tx;
  detail ← head (RawActivity.transaction t);
  msg ← head (RawActivity.message detail);
  m ← head (RawActivity.meta t);
  keys ← RawActivity.account_keys msg;
  i ← findIndex (RawActivity.isMonitoredAddress host config) keys;
  let balanceChange :=
    div (sub (toNumber (nth_error (RawActivity.post_balances m) i))
             (toNumber (nth_error (RawActivity.pre_balances m) i)))
        (Num (inject_Z LAMPORTS_PER_SOL)) in
  if gt0 balanceChange then
    ins ← RawActivity.instructions msg;
    first ← head ins;
    Some {| amount := balanceChange; tokenAddress := RawActivity.SOL;
            from := index_opt keys (head (RawActivity.accounts first));
            to := nth_error keys i; timestamp := now;
            transactionHash := RawActivity.signature t |}
  else None.

Definition file (r : option TokenTransfer) (store : gmap JSString TokenTransfer)
    : gmap JSString TokenTransfer :=
  match r with
  | Some x => <[transactionHash x := x]> store
  | None => store
  end.

(** The store after the items of a list have been processed in order, the
    first of them at time [clock i]. *)
Fixpoint filed (host : Host) (config : Config) (clock : nat -> number) (i : nat)
    (items : list RawActivity.item) (store : gmap JSString TokenTransfer)
    : gmap JSString TokenTransfer :=
  match items with
  | [] => store
  | tx :: rest =>
    filed host config clock (S i) rest (file (stored_by host config tx (clock i)) store)
  end.

(** Whether the processing of an item fails: [processTransaction], run on
    the item, throws. *)
Definition fails (host : Host) (config : Config) (tx : RawActivity.item) : bool :=
  match fst (RawActivity.processTransaction host config tx NaN initial) with
  | Throw _ => true
  | Return _ => false
  end.

(** How often an entry stands in a log. *)
Definition level_eqb (a b : level) : bool :=
  match a, b with
  | LDebug, LDebug | LInfo, LInfo | LError, LError => true
  | _, _ => false
  end.

Definition occurrences (entry : level * string) (log : list (level * string)) : nat :=
  length (List.filter
            (fun e => level_eqb (fst e) (fst entry) && String.eqb (snd e) (snd entry)) log).

(** Every record of the store is filed under its own hash. *)
Definition coherent (store : gmap JSString TokenTransfer) : Prop :=
  forall h r, store !! h = Some r -> transactionHash r = h.

(** The states the service can be in: it starts empty and then serves
    notifications of either shape, and queries. *)
Inductive reachable (host : Host) (config : Config) : State -> Prop :=
| reach_initial : reachable host config initial
| reach_legacy (p : Legacy.payload) (s : State) :
    reachable host config s ->
    reachable host config (snd (Legacy.handleWebhook host config p s))
| reach_activity (clock : nat -> number) (p : RawActivity.payload) (s : State) :
    reachable host config s ->
    reachable host config (snd (RawActivity.handleWebhook host config clock p s))
| reach_query (h : JSString) (s : State) :
    reachable host config s ->
    reachable host config (snd (Legacy.getTransferByHash h s)).

(** Strings of decimal digits, and the plain decimal numerals: digits with
    at most one point among them, and at least one digit. *)
Definition digits (s : JSString) : Prop := Forall (fun c => 48 <= c <= 57) s.

Definition plain_decimal_numeral (s : JSString) : Prop :=
  exists int frac,
    digits int /\ digits frac /\ (int <> [] \/ frac <> [])
    /\ (s = int ++ 46 :: frac \/ (frac = [] /\ s = int)).

(** A request whose signature header is absent, not a string (or the empty
    string, which the handler takes for a missing header), or a string that
    the verifier refuses for the body received. *)
Definition unauthenticated {Body : Type} (config : Config) (req : Controller.Request Body)
    : Prop :=
  match Controller.x_alchemy_signature req with
  | Controller.HAbsent | Controller.HArray _ => True
  | Controller.HString signature =>
    signature = []
    \/ exists raw,
         Controller.rawBody req = Some raw
         /\ SignatureVerification.verifyAlchemySignature
              (Utf8.decode raw) signature (alchemyWebhookSigningKey config) = Return false
  end.

(** The record that the legacy service builds from an event, and its two
    filters. *)
Definition transfer_of (host : Host) (event : Legacy.ValidEvent) : TokenTransfer := {|
  amount := Legacy.parseFloat (Legacy.amount event);
  tokenAddress := Legacy.tokenAddress event;
  from := Some (Legacy.from event);
  to := Some (Legacy.to event);
  timestamp := Date_getTime host (Legacy.timestamp event);
  transactionHash := Legacy.hash event |}.

Definition monitored_token (host : Host) (config : Config) (event : Legacy.ValidEvent) : bool :=
  str_eqb (toLowerCase host (Legacy.tokenAddress event))
          (toLowerCase host (usdcTokenAddress config)).

Definition monitored_recipient (host : Host) (config : Config) (event : Legacy.ValidEvent)
    : bool :=
  str_eqb (toLowerCase host (Legacy.to event)) (toLowerCase host (solanaAddress config)).

(** A state with more log entries. *)
Definition logged (entries : list (level * string)) (s : State) : State :=
  {| transfers := transfers s; logs := entries ++ logs s |}.

(** A request that carries a signature the verifier accepts. *)
Definition authentic {Body : Type} (config : Config) (req : Controller.Request Body) : Prop :=
  exists signature raw,
    Controller.x_alchemy_signature req = Controller.HString signature
    /\ Controller.rawBody req = Some raw
    /\ SignatureVerification.verifyAlchemySignature
         (Utf8.decode raw) signature (alchemyWebhookSigningKey config) = Return true.

End Spec.

(** ** Items and payloads of the worked examples *)

Module Scenario.

Import RawActivity.

Definition item_of (sig : JSString) (keys : list JSString)
    (ins : list TransactionInstruction) (pre post : list Z) : Transaction := {|
  signature := sig;
  transaction := [{| message := [{| account_keys := Some keys; instructions := Some ins |}] |}];
  meta := [{| fee := 5000; pre_balances := pre; post_balances := post |}] |}.

Definition transfer_instruction : TransactionInstruction := {| accounts := [0; 1] |}.

(** The monitored address at index 1 receives half a SOL. *)
Definition received : Transaction :=
  item_of (lit "sigReceived") [Sample.sender; Sample.monitored] [transfer_instruction]
    [5000000000; 1000000000] [4499995000; 1500000000].

(** The monitored address pays. *)
Definition paid : Transaction :=
  item_of (lit "sigPaid") [Sample.sender; Sample.monitored] [transfer_instruction]
    [5000000000; 1500000000] [5400000000; 1099995000].

(** A second incoming transfer. *)
Definition received_again : Transaction :=
  item_of (lit "sigAgain") [Sample.sender; Sample.monitored] [transfer_instruction]
    [4000000000; 1500000000] [1999995000; 3500000000].

(** An incoming transfer whose instruction list is empty. *)
Definition no_instructions : Transaction :=
  item_of (lit "sigNoInstructions") [Sample.sender; Sample.monitored] []
    [5000000000; 1000000000] [4499995000; 1500000000].

(** An incoming transfer whose first instruction names no account. *)
Definition no_accounts : Transaction :=
  item_of (lit "sigNoAccounts") [Sample.sender; Sample.monitored] [{| accounts := [] |}]
    [5000000000; 1000000000] [4499995000; 1500000000].

(** An item without balance metadata. *)
Definition no_meta : Transaction := {|
  signature := lit "sigNoMeta";
  transaction := [{| message := [{| account_keys := Some [Sample.sender; Sample.monitored];
                                    instructions := Some [transfer_instruction] |}] |}];
  meta := [] |}.

Definition activity (items : list item) : payload :=
  Some {| type := Some ADDRESS_ACTIVITY; event := Some items |}.

Definition clock (i : nat) : number := Num (inject_Z (1700000000000 + Z.of_nat i)).

(** A legacy event to the monitored address, in the monitored token. *)
Definition token_event (amount hash : JSString) : Legacy.payload :=
  Legacy.WithEvent {|
    Legacy.ev_tokenAddress := Legacy.Str Sample.usdc;
    Legacy.ev_to := Legacy.Str Sample.monitored;
    Legacy.ev_from := Legacy.Str Sample.sender;
    Legacy.ev_amount := Legacy.Str amount;
    Legacy.ev_hash := Legacy.Str hash;
    Legacy.ev_timestamp := Legacy.Str (lit "2024-01-01T00:00:00.000Z") |}.

(** The JSON text of such an event, as it comes over the wire. *)
Definition quoted (s : JSString) : list Z := 34 :: s ++ [34].

Definition member (key : string) (value : JSString) : list Z :=
  quoted (lit key) ++ 58 :: quoted value.

Definition token_event_json (amount hash : JSString) : list Z :=
  lit "{" ++ quoted (lit "event") ++ lit ":{"
  ++ member "tokenAddress" Sample.usdc ++ lit "," ++ member "to" Sample.monitored ++ lit ","
  ++ member "from" Sample.sender ++ lit "," ++ member "amount" amount ++ lit ","
  ++ member "hash" hash ++ lit ","
  ++ member "timestamp" (lit "2024-01-01T00:00:00.000Z") ++ lit "}}".

(** A request whose signature is the digest of its raw body. *)
Definition signed {Body : Type} (raw : list Z) (b : Body) : Controller.Request Body := {|
  Controller.x_alchemy_signature :=
    Controller.HString (Crypto.update_digest (Utf8.encode Sample.secret) (Utf8.decode raw));
  Controller.rawBody := Some raw;
  Controller.body := b |}.

(** One item, and a batch, processed by the address-activity service from
    the empty state. *)
Definition run_item (t : Transaction) : outcome unit * State :=
  RawActivity.processTransaction Sample.host Sample.config (Some t) (clock 0) initial.

Definition run_batch (items : list item) : outcome unit * State :=
  RawActivity.handleWebhook Sample.host Sample.config clock (activity items) initial.

(** The legacy service, the record of scenario A, the record of the same
    event with the amount 7, and the state after scenario A. *)
Definition legacy : Legacy.payload -> M unit := Legacy.handleWebhook Sample.host Sample.config.

Definition record_A : TokenTransfer := {|
  amount := Legacy.parseFloat (lit "12.5");
  tokenAddress := Sample.usdc;
  from := Some Sample.sender;
  to := Some Sample.monitored;
  timestamp := Num (inject_Z 1704067200000);
  transactionHash := lit "abc123" |}.

Definition record_A' : TokenTransfer := {|
  amount := Legacy.parseFloat (lit "7");
  tokenAddress := Sample.usdc;
  from := Some Sample.sender;
  to := Some Sample.monitored;
  timestamp := Num (inject_Z 1704067200000);
  transactionHash := lit "abc123" |}.

Definition after_A : State := snd (legacy (token_event (lit "12.5") (lit "abc123")) initial).

End Scenario.

(** ** Further notions: what a notification files, and what the store holds *)

Module Notions.

(** The Base58 alphabet of Bitcoin and Solana: the digits and letters
    without [0], [O], [I] and [l]. *)
Definition base58_alphabet : JSString :=
  lit "123456789ABCDEFGHJKLMNPQRSTUVWXYZabcdefghijkmnopqrstuvwxyz".

(** The six messages of the type checks and the five of the format checks
    of the legacy [validatePayload], with the two of the shape checks. *)
Definition shape_errors : list string :=
  ["Payload must be an object"; "Missing or invalid event object"]%string.

Definition type_errors : list string :=
  ["tokenAddress must be a string"; "to address must be a string";
   "from address must be a string"; "amount must be a string";
   "hash must be a string"; "timestamp must be a string"]%string.

Definition format_errors : list string :=
  ["Invalid token address format"; "Invalid recipient address format";
   "Invalid sender address format"; "Invalid amount format";
   "Invalid timestamp format"]%string.

Definition requiredFields : list string :=
  ["tokenAddress"; "to"; "from"; "amount"; "hash"; "timestamp"]%string.

(** The record that a legacy notification files, if any: the payload
    passes validation and both filters, and its amount parses. *)
Definition legacy_stored (host : Host) (config : Config) (p : Legacy.payload)
    : option TokenTransfer :=
  match Legacy.check host p with
  | Return event =>
    if Spec.monitored_token host config event && Spec.monitored_recipient host config event
       && negb (isNaN (Legacy.parseFloat (Legacy.amount event)))
    then Some (Spec.transfer_of host event)
    else None
  | Throw _ => None
  end.

(** Whether the legacy [handleWebhook] throws on a payload: validation
    fails, or the amount of a transfer that passes the filters does not
    parse. *)
Definition legacy_throws (host : Host) (config : Config) (p : Legacy.payload) : bool :=
  match Legacy.check host p with
  | Return event =>
    Spec.monitored_token host config event && Spec.monitored_recipient host config event
    && isNaN (Legacy.parseFloat (Legacy.amount event))
  | Throw _ => true
  end.

(** The items that the loop of the address-activity [handleWebhook] gets
    to: those before the first [null]; and the items of a payload that
    passes validation. *)
Fixpoint processed (items : list RawActivity.item) : list RawActivity.item :=
  match items with
  | Some t :: rest => Some t :: processed rest
  | _ => []
  end.

Definition accepted (p : RawActivity.payload) : list RawActivity.item :=
  match RawActivity.check p with
  | Return items => items
  | Throw _ => []
  end.


(** A service whose outcome and whose effect on the store do not depend on
    what has been logged before. *)
Definition log_independent {Body : Type} (service : Body -> M unit) : Prop :=
  forall (b : Body) (s s' : State),
    transfers s = transfers s' ->
    fst (service b s) = fst (service b s')
    /\ transfers (snd (service b s)) = transfers (snd (service b s')).

(** A service that throws on a body that is [null] or [undefined]. *)
Definition refuses_nullish {Body : Type} (nullish : Body -> bool) (service : Body -> M unit)
    : Prop :=
  forall (b : Body) (s : State), nullish b = true -> exists e, fst (service b s) = Throw e.

(** The verifier of [src/utils/signatureVerification.ts] as a computation. *)
Definition unguarded (rawBody signature : JSString) (signingKey : option JSString) : M bool :=
  lift (SignatureVerification.verifyAlchemySignature rawBody signature signingKey).

(** The status of a reply, when the handler has replied. *)
Definition status_of (r : outcome Controller.Response * State) : option Z :=
  match fst r with
  | Return response => Some (Controller.status response)
  | Throw _ => None
  end.

(** The replies of the guarded revision of the handler. *)
Definition guarded_replies : list Controller.Response :=
  [ {| Controller.status := 401; Controller.json := Controller.Message "Missing signature" |};
    {| Controller.status := 500;
       Controller.json := Controller.Message "Internal server error - Raw body missing" |};
    {| Controller.status := 500;
       Controller.json := Controller.Message "Internal server error - Configuration issue" |};
    {| Controller.status := 401; Controller.json := Controller.Message "Invalid signature" |};
    {| Controller.status := 500;
       Controller.json := Controller.Message "Internal server error - Webhook processing failed" |};
    {| Controller.status := 500;
       Controller.json := Controller.Message "Internal server error - Unexpected error" |};
    {| Controller.status := 200;
       Controller.json := Controller.Message "Webhook processed successfully" |} ].

End Notions.

(** ** Inputs of the further examples *)

Module Cases.

Import RawActivity.

(** An incoming transfer whose list of balances before the transaction
    stops short of the monitored address. *)
Definition short_balances : Transaction :=
  Scenario.item_of (lit "sigShort") [Sample.sender; Sample.monitored]
    [Scenario.transfer_instruction] [5000000000] [4499995000; 1500000000].

(** The configuration of the examples without its signing key. *)
Definition keyless : Config := {|
  solanaAddress := Sample.monitored;
  usdcTokenAddress := Sample.usdc;
  alchemyWebhookSigningKey := None |}.

(** A body of the legacy shape that is [null] or [undefined] is not an
    object. *)
Definition not_an_object (p : Legacy.payload) : bool :=
  match p with
  | Legacy.NotAnObject => true
  | _ => false
  end.

(** The request of scenario A, and a request with some signature. *)
Definition request_A : Controller.Request Legacy.payload :=
  Scenario.signed (Scenario.token_event_json (lit "12.5") (lit "abc123"))
                  (Scenario.token_event (lit "12.5") (lit "abc123")).

Definition request_abc : Controller.Request Legacy.payload := {|
  Controller.x_alchemy_signature := Controller.HString (lit "abc");
  Controller.rawBody := Some (lit "{}");
  Controller.body := Legacy.NoEvent |}.

End Cases.

(* ===================================================================== *)
(** * Part II.  Properties                                                 *)
(* ===================================================================== *)

(** Unfolding of the computations. *)
Ltac run :=
  unfold mbind, mret, M_bind, M_ret, try_catch, lift, throw, logger,
    transfers_set, transfers_get, deref in *; simpl in *.

#[local] Arguments SignatureVerification.verifyAlchemySignature : simpl never.

(** ** Signature verification *)

Section Verify.

Import SignatureVerification.

Lemma str_eqb_true (a b : JSString) : str_eqb a b = true <-> a = b.
Proof. unfold str_eqb. apply bool_decide_eq_true. Qed.

Lemma str_eqb_false (a b : JSString) : str_eqb a b = false <-> a <> b.
Proof. unfold str_eqb. apply bool_decide_eq_false. Qed.

Lemma str_eqb_refl (a : JSString) : str_eqb a a = true.
Proof. now apply str_eqb_true. Qed.

(** The digest has thirty-two bytes, whatever the input. *)
Lemma sha256_length (msg : list Z) : length (Sha256.sha256 msg) = 32%nat.
Proof. reflexivity. Qed.

Lemma word_bytes_range (x : Z) : Forall (fun b => 0 <= b < 256) (Sha256.word_bytes x).
Proof.
  unfold Sha256.word_bytes.
  repeat constructor; apply Z.mod_pos_bound; lia.
Qed.

Lemma sha256_range (msg : list Z) : Forall (fun b => 0 <= b < 256) (Sha256.sha256 msg).
Proof.
  unfold Sha256.sha256, Sha256.regs_bytes.
  repeat (apply Forall_app; split); apply word_bytes_range.
Qed.

Lemma hex_length (bs : list Z) : length (Hmac.hex bs) = (2 * length bs)%nat.
Proof.
  unfold Hmac.hex. induction bs as [|b bs IH]; simpl; [reflexivity|].
  rewrite IH. lia.
Qed.

Lemma hex_digit_lower (d : Z) : 0 <= d < 16 -> Spec.lower_hex (Hmac.hex_digit d).
Proof.
  intros Hd. unfold Hmac.hex_digit, Spec.lower_hex.
  destruct (Z.ltb_spec d 10); lia.
Qed.

Lemma hex_lower (bs : list Z) :
  Forall (fun b => 0 <= b < 256) bs -> Forall Spec.lower_hex (Hmac.hex bs).
Proof.
  unfold Hmac.hex. induction 1 as [|b bs Hb _ IH]; simpl; [constructor|].
  constructor; [|constructor; [|exact IH]]; apply hex_digit_lower.
  - split; [apply Z.div_pos; lia | apply Z.div_lt_upper_bound; lia].
  - apply Z.mod_pos_bound; lia.
Qed.

Lemma digest_shape (key data : JSString) :
  length (Crypto.update_digest (Utf8.encode key) data) = 64%nat
  /\ Forall Spec.lower_hex (Crypto.update_digest (Utf8.encode key) data).
Proof.
  unfold Crypto.update_digest, Hmac.hmac_sha256. split.
  - rewrite hex_length, sha256_length. reflexivity.
  - apply hex_lower, sha256_range.
Qed.

(** Inverting a bit of an element of a list changes the list. *)
Lemma lxor_pow2_neq (c bit : Z) : 0 <= bit -> Z.lxor c (2 ^ bit) <> c.
Proof.
  intros Hb Heq.
  assert (H : Z.testbit (Z.lxor c (2 ^ bit)) bit = Z.testbit c bit) by now rewrite Heq.
  rewrite Z.lxor_spec, Z.pow2_bits_true in H by assumption.
  destruct (Z.testbit c bit); discriminate.
Qed.

Lemma flip_bit_neq (s : list Z) (i : nat) (bit : Z) :
  (i < length s)%nat -> 0 <= bit -> Spec.flip_bit s i bit <> s.
Proof.
  intros Hi Hb. unfold Spec.flip_bit.
  destruct (nth_error s i) as [c|] eqn:Hc.
  - intros Heq.
    assert (H : nth_error (firstn i s ++ Z.lxor c (2 ^ bit) :: skipn (S i) s) i
                = Some (Z.lxor c (2 ^ bit))).
    { rewrite nth_error_app2; rewrite length_firstn, Nat.min_l by lia; [|lia].
      now rewrite Nat.sub_diag. }
    rewrite Heq, Hc in H. injection H as H. symmetry in H.
    now apply lxor_pow2_neq in H.
  - apply nth_error_None in Hc. lia.
Qed.

(** *** UTF-8: decoding well-formed bytes loses nothing *)

Lemma land_shiftl_small (x y n : Z) :
  0 <= n -> 0 <= y < 2 ^ n -> Z.land (Z.shiftl x n) y = 0.
Proof.
  intros Hn Hy. apply Z.bits_inj'. intros k Hk. rewrite Z.land_spec, Z.bits_0.
  destruct (Z.lt_ge_cases k n) as [Hlt|Hge].
  - rewrite Z.shiftl_spec_low by assumption. reflexivity.
  - destruct (Z.eq_dec y 0) as [->|Hy0]; [rewrite Z.bits_0; apply andb_false_r|].
    rewrite (Z.bits_above_log2 y k), andb_false_r; [reflexivity|lia|].
    apply Z.lt_le_trans with n; [|assumption].
    apply Z.log2_lt_pow2; lia.
Qed.

Lemma lor_shiftl_add (x y n : Z) :
  0 <= n -> 0 <= y < 2 ^ n -> Z.lor (Z.shiftl x n) y = x * 2 ^ n + y.
Proof.
  intros Hn Hy. pose proof (land_shiftl_small x y n Hn Hy) as Hland.
  rewrite <- Z.lxor_lor by assumption.
  rewrite <- Z.add_nocarry_lxor by assumption.
  now rewrite Z.shiftl_mul_pow2.
Qed.

Ltac tests :=
  repeat match goal with
  | |- context [?a <=? ?b] =>
    first [ replace (a <=? b) with true by (symmetry; apply Z.leb_le; lia)
          | replace (a <=? b) with false by (symmetry; apply Z.leb_gt; lia) ]
  | |- context [?a <? ?b] =>
    first [ replace (a <? b) with true by (symmetry; apply Z.ltb_lt; lia)
          | replace (a <? b) with false by (symmetry; apply Z.ltb_ge; lia) ]
  end; cbn [andb orb negb].

Lemma land_low (b n : Z) : 0 <= n -> Z.land b (Z.ones n) = b mod 2 ^ n.
Proof. intros Hn. now apply Z.land_ones. Qed.

Lemma continuation_arith (x : Z) : Utf8.continuation x = 0x80 + x mod 64.
Proof.
  unfold Utf8.continuation. change 0x3F with (Z.ones 6). rewrite Z.land_ones by lia.
  change 0x80 with (Z.shiftl 2 6) at 1. rewrite lor_shiftl_add; [reflexivity|lia|].
  apply Z.mod_pos_bound. lia.
Qed.

Lemma encode_scalar_2 (cp : Z) :
  0x80 <= cp < 0x800 -> Utf8.encode_scalar cp = [0xC0 + cp / 64; 0x80 + cp mod 64].
Proof.
  intros H. unfold Utf8.encode_scalar. tests. rewrite continuation_arith.
  rewrite Z.shiftr_div_pow2 by lia. change (2 ^ 6) with 64.
  change 0xC0 with (Z.shiftl 6 5) at 1. rewrite lor_shiftl_add; [reflexivity|lia|].
  change (2 ^ 5) with 32. Z.div_mod_to_equations. lia.
Qed.

Lemma encode_scalar_3 (cp : Z) :
  0x800 <= cp < 0x10000 ->
  Utf8.encode_scalar cp = [0xE0 + cp / 4096; 0x80 + (cp / 64) mod 64; 0x80 + cp mod 64].
Proof.
  intros H. unfold Utf8.encode_scalar. tests. rewrite !continuation_arith.
  rewrite !Z.shiftr_div_pow2 by lia. change (2 ^ 6) with 64. change (2 ^ 12) with 4096.
  change 0xE0 with (Z.shiftl 14 4) at 1. rewrite lor_shiftl_add; [reflexivity|lia|].
  change (2 ^ 4) with 16. Z.div_mod_to_equations. lia.
Qed.

Lemma encode_scalar_4 (cp : Z) :
  0x10000 <= cp < 0x110000 ->
  Utf8.encode_scalar cp
  = [0xF0 + cp / 262144; 0x80 + (cp / 4096) mod 64; 0x80 + (cp / 64) mod 64; 0x80 + cp mod 64].
Proof.
  intros H. unfold Utf8.encode_scalar. tests. rewrite !continuation_arith.
  rewrite !Z.shiftr_div_pow2 by lia.
  change (2 ^ 6) with 64. change (2 ^ 12) with 4096. change (2 ^ 18) with 262144.
  change 0xF0 with (Z.shiftl 30 3) at 1. rewrite lor_shiftl_add; [reflexivity|lia|].
  change (2 ^ 3) with 8. Z.div_mod_to_equations. lia.
Qed.

(** A continuation byte adds its six low bits. *)
Lemma push_bits (acc b : Z) :
  0x80 <= b <= 0xBF -> Z.lor (Z.shiftl acc 6) (Z.land b 0x3F) = acc * 64 + (b - 0x80).
Proof.
  intros Hb. change 0x3F with (Z.ones 6). rewrite Z.land_ones by lia.
  rewrite lor_shiftl_add; [|lia|apply Z.mod_pos_bound; lia].
  change (2 ^ 6) with 64. Z.div_mod_to_equations. lia.
Qed.

Lemma lead_bits (b n base : Z) :
  0 <= n -> base = Z.shiftl (Z.shiftr base n) n -> base <= b < base + 2 ^ n ->
  Z.land b (Z.ones n) = b - base.
Proof.
  intros Hn Hbase Hb. rewrite Z.land_ones by assumption.
  rewrite Z.shiftl_mul_pow2 in Hbase by assumption.
  symmetry. apply Z.mod_unique with (Z.shiftr base n); lia.
Qed.

Lemma units_small (cp : Z) : cp < 0x10000 -> Utf8.units cp = [cp].
Proof. intros H. unfold Utf8.units. now tests. Qed.

Lemma encode_unit (cp : Z) (tail : JSString) :
  cp < 0xD800 \/ 0xDFFF < cp ->
  Utf8.encode (cp :: tail) = Utf8.encode_scalar cp ++ Utf8.encode tail.
Proof.
  intros H. cbn [Utf8.encode]. unfold Utf8.is_high_surrogate, Utf8.is_low_surrogate.
  destruct H; tests; reflexivity.
Qed.

Lemma encode_units_pair (cp : Z) (tail : JSString) :
  0x10000 <= cp < 0x110000 ->
  Utf8.encode (Utf8.units cp ++ tail) = Utf8.encode_scalar cp ++ Utf8.encode tail.
Proof.
  intros H. unfold Utf8.units. tests. cbn [app Utf8.encode].
  change 0x3FF with (Z.ones 10). rewrite Z.land_ones, Z.shiftr_div_pow2 by lia.
  change (2 ^ 10) with 1024.
  unfold Utf8.is_high_surrogate, Utf8.is_low_surrogate.
  assert (0 <= (cp - 65536) / 1024 < 1024 /\ 0 <= (cp - 65536) mod 1024 < 1024)
    by (Z.div_mod_to_equations; lia).
  tests. f_equal. f_equal. unfold Utf8.pair_scalar.
  rewrite Z.shiftl_mul_pow2 by lia. change (2 ^ 10) with 1024.
  Z.div_mod_to_equations. lia.
Qed.

Lemma decode_two (b1 b2 : Z) (rest : list Z) :
  0xC2 <= b1 <= 0xDF -> 0x80 <= b2 <= 0xBF ->
  Utf8.decode_from Utf8.idle (b1 :: b2 :: rest)
  = ((b1 - 0xC0) * 64 + (b2 - 0x80)) :: Utf8.decode_from Utf8.idle rest.
Proof.
  intros H1 H2. cbn [Utf8.decode_from Utf8.step Utf8.idle Utf8.needed].
  unfold Utf8.lead. tests.
  cbn [Utf8.decode_from Utf8.step Utf8.needed Utf8.lower Utf8.upper Utf8.bits app]. tests.
  rewrite push_bits by assumption.
  change 0x1F with (Z.ones 5). rewrite (lead_bits b1 5 0xC0) by (try reflexivity; lia).
  rewrite units_small by lia. reflexivity.
Qed.

Lemma decode_three (b1 b2 b3 : Z) (rest : list Z) :
  0xE0 <= b1 <= 0xEF ->
  (if b1 =? 0xE0 then 0xA0 else 0x80) <= b2 <= (if b1 =? 0xED then 0x9F else 0xBF) ->
  0x80 <= b3 <= 0xBF ->
  Utf8.decode_from Utf8.idle (b1 :: b2 :: b3 :: rest)
  = (((b1 - 0xE0) * 64 + (b2 - 0x80)) * 64 + (b3 - 0x80)) :: Utf8.decode_from Utf8.idle rest
  /\ 0x800 <= ((b1 - 0xE0) * 64 + (b2 - 0x80)) * 64 + (b3 - 0x80) < 0x10000
  /\ (((b1 - 0xE0) * 64 + (b2 - 0x80)) * 64 + (b3 - 0x80) < 0xD800
      \/ 0xDFFF < ((b1 - 0xE0) * 64 + (b2 - 0x80)) * 64 + (b3 - 0x80)).
Proof.
  intros H1 H2 H3. cbn [Utf8.decode_from Utf8.step Utf8.idle Utf8.needed].
  unfold Utf8.lead. tests.
  cbn [Utf8.decode_from Utf8.step Utf8.needed Utf8.lower Utf8.upper Utf8.bits app].
  destruct (Z.eqb_spec b1 0xE0) as [He0|He0]; destruct (Z.eqb_spec b1 0xED) as [Hed|Hed];
    try lia; tests;
    cbn [Utf8.decode_from Utf8.step Utf8.needed Utf8.lower Utf8.upper Utf8.bits app]; tests;
    rewrite !push_bits by lia;
    change 0xF with (Z.ones 4); rewrite (lead_bits b1 4 0xE0) by (try reflexivity; lia);
    rewrite units_small by lia; (split; [reflexivity|lia]).
Qed.

Lemma decode_four (b1 b2 b3 b4 : Z) (rest : list Z) :
  0xF0 <= b1 <= 0xF4 ->
  (if b1 =? 0xF0 then 0x90 else 0x80) <= b2 <= (if b1 =? 0xF4 then 0x8F else 0xBF) ->
  0x80 <= b3 <= 0xBF -> 0x80 <= b4 <= 0xBF ->
  let cp := (((b1 - 0xF0) * 64 + (b2 - 0x80)) * 64 + (b3 - 0x80)) * 64 + (b4 - 0x80) in
  Utf8.decode_from Utf8.idle (b1 :: b2 :: b3 :: b4 :: rest)
  = Utf8.units cp ++ Utf8.decode_from Utf8.idle rest
  /\ 0x10000 <= cp < 0x110000.
Proof.
  intros H1 H2 H3 H4 cp. subst cp. cbn [Utf8.decode_from Utf8.step Utf8.idle Utf8.needed].
  unfold Utf8.lead. tests.
  cbn [Utf8.decode_from Utf8.step Utf8.needed Utf8.lower Utf8.upper Utf8.bits app].
  destruct (Z.eqb_spec b1 0xF0) as [Hf0|Hf0]; destruct (Z.eqb_spec b1 0xF4) as [Hf4|Hf4];
    try lia; tests;
    cbn [Utf8.decode_from Utf8.step Utf8.needed Utf8.lower Utf8.upper Utf8.bits app]; tests;
    cbn [Utf8.decode_from Utf8.step Utf8.needed Utf8.lower Utf8.upper Utf8.bits app]; tests;
    rewrite !push_bits by lia;
    change 0x7 with (Z.ones 3); rewrite (lead_bits b1 3 0xF0) by (try reflexivity; lia);
    (split; [reflexivity|lia]).
Qed.

Lemma encode_decode (bs : list Z) :
  Spec.well_formed_utf8 bs -> Utf8.encode (Utf8.decode bs) = bs.
Proof.
  unfold Utf8.decode.
  induction 1 as [|b rest Hb _ IH|b1 b2 rest H1 H2 _ IH|b1 b2 b3 rest H1 H2 H3 _ IH
                  |b1 b2 b3 b4 rest H1 H2 H3 H4 _ IH].
  - reflexivity.
  - cbn [Utf8.decode_from Utf8.step Utf8.idle Utf8.needed]. unfold Utf8.lead. tests.
    cbn [app]. rewrite encode_unit by lia. unfold Utf8.encode_scalar. tests.
    cbn [app]. now rewrite IH.
  - rewrite decode_two by assumption. rewrite encode_unit by lia.
    rewrite encode_scalar_2 by lia. rewrite IH. cbn [app].
    f_equal; [|f_equal]; Z.div_mod_to_equations; lia.
  - destruct (decode_three b1 b2 b3 rest H1 H2 H3) as (-> & Hrange & Hsur).
    rewrite encode_unit by assumption. rewrite encode_scalar_3 by assumption.
    rewrite IH. cbn [app].
    assert (0x80 <= b2 <= 0xBF) by (destruct (b1 =? 0xE0), (b1 =? 0xED); lia).
    f_equal; [|f_equal; [|f_equal]]; Z.div_mod_to_equations; lia.
  - destruct (decode_four b1 b2 b3 b4 rest H1 H2 H3 H4) as (-> & Hrange).
    rewrite encode_units_pair by assumption. rewrite encode_scalar_4 by assumption.
    rewrite IH. cbn [app].
    assert (0x80 <= b2 <= 0xBF) by (destruct (b1 =? 0xF0), (b1 =? 0xF4); lia).
    f_equal; [|f_equal; [|f_equal; [|f_equal]]]; Z.div_mod_to_equations; lia.
Qed.

(** C9, evaluation at the failing input: with the signing key missing
    ([undefined]), [verifyAlchemySignature] of
    [src/utils/signatureVerification.ts] throws the [TypeError] of
    [crypto.createHmac]; it does not return [false]. *)
Theorem verifyAlchemySignature_throws_without_key (rawBody signature : JSString) :
  verifyAlchemySignature rawBody signature None
  = Throw (TypeError "The key argument must be of type string").
Proof. unfold verifyAlchemySignature, Crypto.createHmac. reflexivity. Qed.

(** With a key present nothing is thrown. *)
Lemma verifyAlchemySignature_returns (rawBody signature key : JSString) :
  exists b, verifyAlchemySignature rawBody signature (Some key) = Return b.
Proof. unfold verifyAlchemySignature. simpl. eauto. Qed.

(** The logging revision never throws, answers [false] when the key is
    missing, and leaves the stored transfers alone. *)
Lemma verifyAlchemySignature_logged_total
    (rawBody signature : JSString) (key : option JSString) (s : State) :
  exists b s',
    SignatureVerificationLogged.verifyAlchemySignature rawBody signature key s = (Return b, s')
    /\ transfers s' = transfers s
    /\ (key = None -> b = false)
    /\ (forall k, key = Some k -> b = str_eqb signature (Crypto.update_digest (Utf8.encode k) rawBody)).
Proof.
  unfold SignatureVerificationLogged.verifyAlchemySignature.
  destruct key as [k|]; run; eexists _, _; (split; [reflexivity|]); simpl;
    repeat split; congruence.
Qed.

(** C1, as amended.  For every body, signature and key given as strings,
    [verifyAlchemySignature] returns [true] exactly when the signature is the
    lower-case hexadecimal HMAC-SHA256 of the UTF-8 encoding of the body,
    keyed by the UTF-8 encoding of the key; that digest (sixty-four
    lower-case hexadecimal digits) verifies; every other signature, and so
    every digest with one bit of one code unit inverted, is refused; and for
    a body received as well-formed UTF-8 the digest is the HMAC of the very
    bytes received. *)
Theorem verifyAlchemySignature_iff_digest (rawBody signature key : JSString) :
  let digest := Hmac.hex (Hmac.hmac_sha256 (Utf8.encode key) (Utf8.encode rawBody)) in
  (verifyAlchemySignature rawBody signature (Some key) = Return true <-> signature = digest)
  /\ verifyAlchemySignature rawBody digest (Some key) = Return true
  /\ (forall s', s' <> digest -> verifyAlchemySignature rawBody s' (Some key) = Return false)
  /\ (forall i bit, (i < length digest)%nat -> 0 <= bit ->
        verifyAlchemySignature rawBody (Spec.flip_bit digest i bit) (Some key) = Return false)
  /\ (length digest = 64%nat /\ Forall Spec.lower_hex digest)
  /\ (forall rawBytes, Spec.well_formed_utf8 rawBytes ->
        (Spec.verify rawBytes signature key = Return true
         <-> signature = Spec.hmac_hex rawBytes key)).
Proof.
  intros digest.
  assert (Hother : forall s', s' <> digest ->
            verifyAlchemySignature rawBody s' (Some key) = Return false).
  { intros s' Hs'. unfold verifyAlchemySignature. simpl. f_equal.
    now apply str_eqb_false. }
  split; [split|split; [|split; [|split; [|split; [|intros rawBytes Hwf; split]]]]].
  - unfold verifyAlchemySignature. simpl. intros [= H]. now apply str_eqb_true in H.
  - intros ->. unfold verifyAlchemySignature. simpl. f_equal. apply str_eqb_refl.
  - unfold verifyAlchemySignature. simpl. f_equal. apply str_eqb_refl.
  - exact Hother.
  - intros i bit Hi Hb. apply Hother. now apply flip_bit_neq.
  - exact (digest_shape key rawBody).
  - unfold Spec.verify, verifyAlchemySignature, Spec.hmac_hex, Utf8.decode. simpl.
    unfold Crypto.update_digest. fold (Utf8.decode rawBytes).
    rewrite encode_decode by assumption.
    intros [= Heq]. now apply str_eqb_true in Heq.
  - unfold Spec.verify, verifyAlchemySignature, Spec.hmac_hex, Utf8.decode. simpl.
    unfold Crypto.update_digest. fold (Utf8.decode rawBytes).
    rewrite encode_decode by assumption.
    intros ->. f_equal. apply str_eqb_refl.
Qed.

(** C1, counterexample.  The body [80] (one byte, not UTF-8) with its own
    HMAC as signature is refused; the signature that the code accepts for it
    is accepted as well for the body [81], which differs from it in one bit.
    The same loss on strings: a surrogate on its own is hashed as U+FFFD, so
    the strings [D800] and [D801], one bit apart, share their signature. *)
Lemma verify_is_not_byte_exact :
  Spec.verify [0x80] (Spec.hmac_hex [0x80] Sample.secret) Sample.secret = Return false
  /\ Spec.verify [0x80] (Crypto.update_digest (Utf8.encode Sample.secret) (Utf8.decode [0x80]))
       Sample.secret = Return true
  /\ Spec.verify (Spec.flip_bit [0x80] 0 0)
       (Crypto.update_digest (Utf8.encode Sample.secret) (Utf8.decode [0x80]))
       Sample.secret = Return true
  /\ verifyAlchemySignature [0xD800]
       (Crypto.update_digest (Utf8.encode Sample.secret) [0xD800]) (Some Sample.secret)
     = Return true
  /\ verifyAlchemySignature (Spec.flip_bit [0xD800] 0 0)
       (Crypto.update_digest (Utf8.encode Sample.secret) [0xD800]) (Some Sample.secret)
     = Return true.
Proof. vm_compute. repeat split. Qed.

(** What the decoder and the encoder do on ill-formed input. *)
Example utf8_replacement :
  Utf8.decode [0x80] = [0xFFFD] /\ Utf8.decode [0x81] = [0xFFFD]
  /\ Utf8.decode [0xE2; 0x82] = [0xFFFD] /\ Utf8.decode [0xED; 0xA0; 0x80] = [0xFFFD; 0xFFFD; 0xFFFD]
  /\ Utf8.encode [0xD800] = [0xEF; 0xBF; 0xBD] /\ Utf8.encode [0xD801] = [0xEF; 0xBF; 0xBD]
  /\ Utf8.encode [0xD83D; 0xDE00] = [0xF0; 0x9F; 0x98; 0x80]
  /\ Utf8.decode [0xF0; 0x9F; 0x98; 0x80; 0xC3; 0xA9] = [0xD83D; 0xDE00; 0xE9].
Proof. repeat split. Qed.

(** A published test vector of HMAC-SHA256. *)
Example hmac_sha256_vector :
  Hmac.hex (Hmac.hmac_sha256 (lit "key") (lit "The quick brown fox jumps over the lazy dog"))
  = lit "f7bc83f430538424b13298e6aa6fb143ef4d59a14946175997479dbc2d1a3cd8".
Proof. vm_compute. reflexivity. Qed.

Example sha256_vector :
  Hmac.hex (Sha256.sha256 (lit "abc"))
  = lit "ba7816bf8f01cfea414140de5dae2223b00361a396177a9cb410ff61f20015ad".
Proof. vm_compute. reflexivity. Qed.

End Verify.

(** ** The store *)

Section Store.

Lemma coherent_empty : Spec.coherent ∅.
Proof. intros h r H. rewrite lookup_empty in H. discriminate. Qed.

Lemma coherent_insert (store : gmap JSString TokenTransfer) (r : TokenTransfer) :
  Spec.coherent store -> Spec.coherent (<[transactionHash r := r]> store).
Proof.
  intros Hc h r'. rewrite lookup_insert. case_decide as Hh.
  - intros [= <-]. exact Hh.
  - apply Hc.
Qed.

End Store.

(** ** Extraction from address-activity items *)

Section RawActivityProps.

Variable host : Host.
Variable config : Config.

Local Abbreviation isMonitoredAddress := (RawActivity.isMonitoredAddress host config).
Local Abbreviation processTransaction := (RawActivity.processTransaction host config).
Local Abbreviation processAll := (RawActivity.processAll host config).



Lemma gt0_delta (pre post : Z) :
  gt0 (div (sub (toNumber (Some post)) (toNumber (Some pre))) (Num (inject_Z LAMPORTS_PER_SOL)))
  = negb (Qle_bool (Spec.delta pre post) 0).
Proof. reflexivity. Qed.

Lemma delta_sign (pre post : Z) : (0 < Spec.delta pre post)%Q <-> pre < post.
Proof.
  unfold Spec.delta, Qlt, Qdiv, Qmult, Qinv, Qminus, Qplus, Qopp, inject_Z, LAMPORTS_PER_SOL.
  simpl. lia.
Qed.

(** What [processTransaction] does on an item that has its parts: it looks
    for the monitored address and, when found at [i], compares the balances
    at [i]. *)
Lemma processTransaction_parts
    (t : RawActivity.Transaction) (keys : list JSString)
    (ins : option (list RawActivity.TransactionInstruction)) (m : RawActivity.TransactionMeta)
    (now : number) (s : State) :
  Spec.item_parts t keys ins m ->
  processTransaction (Some t) now s =
  let s1 := {| transfers := transfers s; logs := (LDebug, "Processing transaction"%string) :: logs s |} in
  match findIndex isMonitoredAddress keys with
  | None =>
    (Return tt, {| transfers := transfers s;
                   logs := (LDebug, "Monitored address not found in transaction"%string) :: logs s1 |})
  | Some i =>
    let balanceChange :=
      div (sub (toNumber (nth_error (RawActivity.post_balances m) i))
               (toNumber (nth_error (RawActivity.pre_balances m) i)))
          (Num (inject_Z LAMPORTS_PER_SOL)) in
    if gt0 balanceChange then
      match ins with
      | Some (first :: _) =>
        (Return tt,
         {| transfers :=
              <[RawActivity.signature t :=
                 {| amount := balanceChange; tokenAddress := RawActivity.SOL;
                    from := index_opt keys (head (RawActivity.accounts first));
                    to := nth_error keys i; timestamp := now;
                    transactionHash := RawActivity.signature t |}]> (transfers s);
            logs := (LInfo, "SOL transfer recorded"%string) :: logs s1 |})
      | Some [] =>
        (Throw (TypeError "Cannot read properties of undefined (reading 'accounts')"),
         {| transfers := transfers s;
            logs := (LError, "Error processing transaction"%string) :: logs s1 |})
      | None =>
        (Throw (TypeError "Cannot read properties of undefined (reading '0')"),
         {| transfers := transfers s;
            logs := (LError, "Error processing transaction"%string) :: logs s1 |})
      end
    else
      (Return tt, {| transfers := transfers s;
                     logs := (LDebug, "No positive balance change for monitored address"%string)
                             :: logs s1 |})
  end.
Proof.
  intros (detail & details & messages & metas & Ht & Hd & Hm).
  unfold RawActivity.processTransaction. run. rewrite Ht, Hm. simpl. rewrite Hd. simpl.
  destruct (findIndex isMonitoredAddress keys) as [i|]; [|reflexivity].
  destruct (gt0 _); [|reflexivity].
  destruct ins as [[|first rest]|]; reflexivity.
Qed.

(** The effect of [processTransaction] on the store depends on the item
    alone; an item that is an object never makes the handler of the [catch]
    fail, and an item that files a record returns. *)
Lemma processTransaction_effect (tx : RawActivity.item) (now : number) (s : State) :
  transfers (snd (processTransaction tx now s))
  = Spec.file (Spec.stored_by host config tx now) (transfers s)
  /\ (tx = None ->
      processTransaction tx now s
      = (Throw (TypeError "Cannot read properties of null (reading 'signature')"), s))
  /\ (is_Some (Spec.stored_by host config tx now) -> fst (processTransaction tx now s) = Return tt)
  /\ (tx <> None ->
      forall e, fst (processTransaction tx now s) = Throw e ->
        In (LError, "Error processing transaction"%string) (logs (snd (processTransaction tx now s)))).
Proof.
  unfold RawActivity.processTransaction, Spec.stored_by.
  destruct tx as [t|]; run; [|repeat split; try reflexivity; try congruence; intros [? [=]]].
  destruct (RawActivity.transaction t) as [|detail details]; simpl;
    [repeat split; try congruence; try (intros [? [=]]); intros; now left|].
  destruct (RawActivity.message detail) as [|msg messages]; simpl;
    [repeat split; try congruence; try (intros [? [=]]); intros; now left|].
  destruct (RawActivity.meta t) as [|m metas]; simpl;
    [repeat split; try congruence; try (intros [? [=]]); intros; now left|].
  destruct (RawActivity.account_keys msg) as [keys|]; simpl;
    [|repeat split; try congruence; try (intros [? [=]]); intros; now left].
  destruct (findIndex isMonitoredAddress keys) as [i|]; simpl;
    [|repeat split; try congruence; try (intros [? [=]]); intros; discriminate].
  destruct (gt0 _); simpl;
    [|repeat split; try congruence; try (intros [? [=]]); intros; discriminate].
  destruct (RawActivity.instructions msg) as [[|first rest]|]; simpl;
    repeat split; try congruence; try (intros [? [=]]); intros; try discriminate; now left.
Qed.


(** The loop: as long as the items are objects nothing escapes it, and the
    store ends as if each item had been filed on its own. *)
Lemma processAll_objects (clock : nat -> number) (items : list RawActivity.item) :
  Forall (fun tx => tx <> None) items ->
  forall (i : nat) (s : State),
  exists s', processAll clock i items s = (Return tt, s')
             /\ transfers s' = Spec.filed host config clock i items (transfers s).
Proof.
  induction 1 as [|tx rest Htx _ IH]; intros i s.
  - exists s. split; reflexivity.
  - destruct (processTransaction_effect tx (clock i) s) as (Hstore & _ & _ & _).
    cbn [RawActivity.processAll Spec.filed].
    unfold mbind, M_bind, try_catch.
    destruct (processTransaction tx (clock i) s) as [[[]|e] s1] eqn:Hrun; simpl in Hstore.
    + destruct (IH (S i) s1) as (s' & Hs' & Hfiled).
      exists s'. split; [exact Hs'|]. rewrite Hfiled, Hstore. reflexivity.
    + destruct tx as [t|]; [|congruence]. run.
      destruct (IH (S i) {| transfers := transfers s1;
                            logs := (LError, "Error processing transaction in webhook"%string)
                                    :: logs s1 |})
        as (s' & Hs' & Hfiled).
      exists s'. split; [exact Hs'|]. rewrite Hfiled. simpl. rewrite Hstore. reflexivity.
Qed.

(** A [null] among the items ends the loop: the handler of the inner
    [catch] reads [transaction.signature] and throws in its turn, and the
    items after the [null] are not processed. *)
Lemma processAll_null (clock : nat -> number) (before after : list RawActivity.item) :
  Forall (fun tx => tx <> None) before ->
  forall (i : nat) (s : State),
  exists s',
    processAll clock i (before ++ None :: after) s
    = (Throw (TypeError "Cannot read properties of null (reading 'signature')"), s')
    /\ transfers s' = Spec.filed host config clock i before (transfers s).
Proof.
  induction 1 as [|tx rest Htx _ IH]; intros i s.
  - exists s. split; reflexivity.
  - destruct (processTransaction_effect tx (clock i) s) as (Hstore & _ & _ & _).
    cbn [app RawActivity.processAll Spec.filed].
    unfold mbind, M_bind, try_catch.
    destruct (processTransaction tx (clock i) s) as [[[]|e] s1] eqn:Hrun; simpl in Hstore.
    + destruct (IH (S i) s1) as (s' & Hs' & Hfiled).
      exists s'. split; [exact Hs'|]. rewrite Hfiled, Hstore. reflexivity.
    + destruct tx as [t|]; [|congruence]. run.
      destruct (IH (S i) {| transfers := transfers s1;
                            logs := (LError, "Error processing transaction in webhook"%string)
                                    :: logs s1 |})
        as (s' & Hs' & Hfiled).
      exists s'. split; [exact Hs'|]. rewrite Hfiled. simpl. rewrite Hstore. reflexivity.
Qed.

(** [handleWebhook] on a payload that passes [validatePayload]. *)
Lemma handleWebhook_checked (clock : nat -> number) (p : RawActivity.payload)
    (items : list RawActivity.item) (s : State) :
  RawActivity.check p = Return items ->
  RawActivity.handleWebhook host config clock p s
  = let s0 := {| transfers := transfers s;
                 logs := (LDebug, "Received webhook payload"%string) :: logs s |} in
    match processAll clock 0 items s0 with
    | (Return _, s1) =>
      (Return tt, {| transfers := transfers s1;
                     logs := (LInfo, "Webhook processing completed"%string) :: logs s1 |})
    | (Throw e, s1) =>
      (Throw e, {| transfers := transfers s1;
                   logs := (LError, "Error handling webhook"%string) :: logs s1 |})
    end.
Proof.
  intros Hcheck. unfold RawActivity.handleWebhook, RawActivity.validatePayload.
  run. rewrite Hcheck.
  destruct (processAll clock 0 items _) as [[[]|e] s1]; reflexivity.
Qed.

(** [handleWebhook] on a payload that [validatePayload] refuses: the error
    is thrown on, and the store is as before. *)
Lemma handleWebhook_refused (clock : nat -> number) (p : RawActivity.payload)
    (e : Exn) (s : State) :
  RawActivity.check p = Throw e ->
  fst (RawActivity.handleWebhook host config clock p s) = Throw e
  /\ transfers (snd (RawActivity.handleWebhook host config clock p s)) = transfers s.
Proof.
  intros Hcheck. unfold RawActivity.handleWebhook, RawActivity.validatePayload.
  run. rewrite Hcheck. split; reflexivity.
Qed.

(** A [null] item after the first makes the whole notification fail, and
    cuts the processing short. *)
Lemma handleWebhook_null_item (clock : nat -> number) (p : RawActivity.payload)
    (before after : list RawActivity.item) (s : State) :
  RawActivity.check p = Return (before ++ None :: after) ->
  Forall (fun tx => tx <> None) before ->
  fst (RawActivity.handleWebhook host config clock p s)
  = Throw (TypeError "Cannot read properties of null (reading 'signature')")
  /\ transfers (snd (RawActivity.handleWebhook host config clock p s))
     = Spec.filed host config clock 0 before (transfers s).
Proof.
  intros Hcheck Hbefore. rewrite (handleWebhook_checked clock p _ s Hcheck). cbv zeta.
  destruct (processAll_null clock before after Hbefore 0
              {| transfers := transfers s;
                 logs := (LDebug, "Received webhook payload"%string) :: logs s |})
    as (s' & Hs' & Hfiled).
  rewrite Hs'. simpl. split; [reflexivity|exact Hfiled].
Qed.

(** What is filed by a list of items: the last item that files under a hash
    decides the record found there. *)
Lemma filed_lookup_other (clock : nat -> number) (items : list RawActivity.item) (h : JSString) :
  forall (i : nat) (store : gmap JSString TokenTransfer),
  (forall k tx r, nth_error items k = Some tx ->
                  Spec.stored_by host config tx (clock (i + k)%nat) = Some r ->
                  transactionHash r <> h) ->
  Spec.filed host config clock i items store !! h = store !! h.
Proof.
  induction items as [|tx rest IH]; intros i store Hother; [reflexivity|].
  cbn [Spec.filed]. rewrite IH.
  - destruct (Spec.stored_by host config tx (clock i)) as [r|] eqn:Hr; [|reflexivity].
    simpl. apply lookup_insert_ne.
    apply (Hother O tx r eq_refl). now rewrite Nat.add_0_r.
  - intros k tx' r Hk Hr. apply (Hother (S k) tx' r Hk).
    now replace (i + S k)%nat with (S i + k)%nat by lia.
Qed.

Lemma filed_lookup_last (clock : nat -> number) (before after : list RawActivity.item)
    (tx : RawActivity.item) (r : TokenTransfer) :
  forall (i : nat) (store : gmap JSString TokenTransfer),
  Spec.stored_by host config tx (clock (i + length before)%nat) = Some r ->
  (forall k tx' r', nth_error after k = Some tx' ->
     Spec.stored_by host config tx' (clock (i + length before + 1 + k)%nat) = Some r' ->
     transactionHash r' <> transactionHash r) ->
  Spec.filed host config clock i (before ++ tx :: after) store !! transactionHash r = Some r.
Proof.
  induction before as [|b before IH]; intros i store Hr Hafter.
  - cbn [app Spec.filed]. simpl in Hr. rewrite Nat.add_0_r in Hr. rewrite Hr.
    rewrite filed_lookup_other.
    + simpl. apply lookup_insert_eq.
    + intros k tx' r' Hk Hr'. apply (Hafter k tx' r' Hk).
      simpl. now replace (i + 0 + 1 + k)%nat with (S i + k)%nat by lia.
  - cbn [app Spec.filed]. apply IH.
    + now replace (S i + length before)%nat with (i + length (b :: before))%nat by (simpl; lia).
    + intros k tx' r' Hk Hr'. apply (Hafter k tx' r' Hk).
      now replace (i + length (b :: before) + 1 + k)%nat
        with (S i + length before + 1 + k)%nat by (simpl; lia).
Qed.

(** Counting the entries of a log. *)
Lemma occurrences_app (entry : level * string) (log1 log2 : list (level * string)) :
  Spec.occurrences entry (log1 ++ log2)
  = (Spec.occurrences entry log1 + Spec.occurrences entry log2)%nat.
Proof. unfold Spec.occurrences. rewrite List.filter_app, length_app. reflexivity. Qed.

Lemma occurrences_positive (entry : level * string) (log : list (level * string)) :
  (0 < Spec.occurrences entry log)%nat -> In entry log.
Proof.
  unfold Spec.occurrences. induction log as [|[l m] log IH]; simpl; [lia|].
  destruct (Spec.level_eqb l (fst entry) && String.eqb m (snd entry)) eqn:Heq.
  - intros _. left. apply andb_true_iff in Heq as [Hl Hm].
    apply String.eqb_eq in Hm. destruct entry as [l' m']. simpl in *. subst m'.
    destruct l, l'; try discriminate; reflexivity.
  - intros H. right. apply IH, H.
Qed.

Local Abbreviation failure_in_item := (LError, "Error processing transaction"%string).
Local Abbreviation failure_in_loop := (LError, "Error processing transaction in webhook"%string).
Local Abbreviation failure_of_all := (LError, "Error handling webhook"%string).

(** What [processTransaction] writes to the log for an item that is an
    object: whether it throws depends on the item alone, and it writes its
    own error entry exactly when it throws. *)
Lemma processTransaction_log (t : RawActivity.Transaction) (now : number) (s : State) :
  exists entries,
    logs (snd (processTransaction (Some t) now s)) = entries ++ logs s
    /\ Spec.occurrences failure_in_loop entries = 0%nat
    /\ Spec.occurrences failure_of_all entries = 0%nat
    /\ if Spec.fails host config (Some t)
       then (exists e, fst (processTransaction (Some t) now s) = Throw e)
            /\ Spec.occurrences failure_in_item entries = 1%nat
       else fst (processTransaction (Some t) now s) = Return tt
            /\ Spec.occurrences failure_in_item entries = 0%nat.
Proof.
  unfold Spec.fails, RawActivity.processTransaction. run.
  assert (Hleaf : forall (o : outcome unit) (entries : list (level * string)),
            Spec.occurrences failure_in_loop entries = 0%nat ->
            Spec.occurrences failure_of_all entries = 0%nat ->
            match o with
            | Throw _ => Spec.occurrences failure_in_item entries = 1%nat
            | Return _ => Spec.occurrences failure_in_item entries = 0%nat
            end ->
            exists entries',
              entries ++ logs s = entries' ++ logs s
              /\ Spec.occurrences failure_in_loop entries' = 0%nat
              /\ Spec.occurrences failure_of_all entries' = 0%nat
              /\ if match o with Throw _ => true | Return _ => false end
                 then (exists e, o = Throw e)
                      /\ Spec.occurrences failure_in_item entries' = 1%nat
                 else o = Return tt /\ Spec.occurrences failure_in_item entries' = 0%nat).
  { intros o entries H1 H2 H3. exists entries. split; [reflexivity|]. split; [exact H1|].
    split; [exact H2|]. destruct o as [[]|e]; split; eauto. }
  destruct (RawActivity.transaction t) as [|detail details]; simpl;
    [apply (Hleaf (Throw _) [_]); reflexivity|].
  destruct (RawActivity.message detail) as [|msg messages]; simpl;
    [apply (Hleaf (Throw _) [_]); reflexivity|].
  destruct (RawActivity.meta t) as [|m metas]; simpl;
    [apply (Hleaf (Throw _) [_]); reflexivity|].
  destruct (RawActivity.account_keys msg) as [keys|]; simpl;
    [|apply (Hleaf (Throw _) [_; _]); reflexivity].
  destruct (findIndex isMonitoredAddress keys) as [i|]; simpl;
    [|apply (Hleaf (Return tt) [_; _]); reflexivity].
  destruct (gt0 _); simpl; [|apply (Hleaf (Return tt) [_; _]); reflexivity].
  destruct (RawActivity.instructions msg) as [[|first rest]|]; simpl.
  - apply (Hleaf (Throw _) [_; _]); reflexivity.
  - apply (Hleaf (Return tt) [_; _]); reflexivity.
  - apply (Hleaf (Throw _) [_; _]); reflexivity.
Qed.

(** Whether [processTransaction] throws does not depend on the time or on
    the state. *)
Lemma fails_throws (tx : RawActivity.item) (now : number) (s : State) :
  Spec.fails host config tx = true <-> exists e, fst (processTransaction tx now s) = Throw e.
Proof.
  destruct tx as [t|].
  - destruct (processTransaction_log t now s) as (entries & _ & _ & _ & H).
    destruct (Spec.fails host config (Some t)).
    + split; [intros _; apply H|reflexivity].
    + destruct H as [H _]. rewrite H. split; [discriminate|intros [e [=]]].
  - split; [|reflexivity]. intros _.
    rewrite (proj1 (proj2 (processTransaction_effect None now s)) eq_refl). simpl. eauto.
Qed.

(** The log of the loop: for every item that fails, one error entry of
    [processTransaction] and one of the loop. *)
Lemma processAll_log (clock : nat -> number) (items : list RawActivity.item) :
  Forall (fun tx => tx <> None) items ->
  forall (i : nat) (s : State),
  exists entries,
    logs (snd (processAll clock i items s)) = entries ++ logs s
    /\ Spec.occurrences failure_in_loop entries
       = length (List.filter (Spec.fails host config) items)
    /\ Spec.occurrences failure_in_item entries
       = length (List.filter (Spec.fails host config) items)
    /\ Spec.occurrences failure_of_all entries = 0%nat.
Proof.
  induction 1 as [|tx rest Htx _ IH]; intros i s.
  - exists []. repeat split; reflexivity.
  - destruct tx as [t|]; [|congruence].
    destruct (processTransaction_log t (clock i) s) as (item & Hlog & Hloop & Hall & Hitem).
    cbn [RawActivity.processAll List.filter].
    unfold mbind, M_bind, try_catch.
    destruct (processTransaction (Some t) (clock i) s) as [[[]|e] s1] eqn:Hrun;
      simpl in Hlog, Hitem.
    + destruct (Spec.fails host config (Some t));
        [destruct Hitem as [[e [=]] _]|destruct Hitem as [_ Hitem]].
      destruct (IH (S i) s1) as (entries & Hentries & H1 & H2 & H3).
      exists (entries ++ item). rewrite Hentries, Hlog, <- app_assoc.
      split; [reflexivity|]. rewrite !occurrences_app. lia.
    + destruct (Spec.fails host config (Some t));
        [destruct Hitem as [_ Hitem]|destruct Hitem as [[=] _]].
      run.
      destruct (IH (S i) {| transfers := transfers s1;
                            logs := (LError, "Error processing transaction in webhook"%string)
                                    :: logs s1 |})
        as (entries & Hentries & H1 & H2 & H3).
      exists (entries ++ failure_in_loop :: item). rewrite Hentries. simpl. rewrite Hlog.
      split; [rewrite <- app_assoc; reflexivity|].
      rewrite !occurrences_app.
      change (failure_in_loop :: item) with ([failure_in_loop] ++ item).
      rewrite !occurrences_app. simpl.
      change (Spec.occurrences failure_in_loop [failure_in_loop]) with 1%nat.
      change (Spec.occurrences failure_in_item [failure_in_loop]) with 0%nat.
      change (Spec.occurrences failure_of_all [failure_in_loop]) with 0%nat.
      lia.
Qed.

(** C3, as amended.  Let a payload pass [validatePayload] and let its items
    be objects.  Then [handleWebhook] returns, whatever happens to the single
    items: an item whose processing throws is logged and skipped, every item
    is processed, and the store ends as if each item had been filed on its
    own.  In particular the record of an item that files one is found under
    its hash afterwards, unless a later item of the list files the same
    hash.  The log gains, for every item whose processing throws, one error
    entry of [processTransaction] and one of the loop of [handleWebhook],
    and no entry that reports the notification as failed; an item fails, or
    not, whatever the time and the state. *)
Theorem handleWebhook_isolates_failures (clock : nat -> number) (p : RawActivity.payload)
    (items : list RawActivity.item) (s : State) :
  RawActivity.check p = Return items ->
  Forall (fun tx => tx <> None) items ->
  let result := RawActivity.handleWebhook host config clock p s in
  fst result = Return tt
  /\ transfers (snd result) = Spec.filed host config clock 0 items (transfers s)
  /\ (forall before tx after r,
        items = before ++ tx :: after ->
        Spec.stored_by host config tx (clock (length before)) = Some r ->
        (forall k tx' r', nth_error after k = Some tx' ->
           Spec.stored_by host config tx' (clock (length before + 1 + k)%nat) = Some r' ->
           transactionHash r' <> transactionHash r) ->
        transfers (snd result) !! transactionHash r = Some r)
  /\ (exists entries,
        logs (snd result) = entries ++ logs s
        /\ Spec.occurrences (LError, "Error processing transaction in webhook"%string) entries
           = length (List.filter (Spec.fails host config) items)
        /\ Spec.occurrences (LError, "Error processing transaction"%string) entries
           = length (List.filter (Spec.fails host config) items)
        /\ Spec.occurrences (LError, "Error handling webhook"%string) entries = 0%nat)
  /\ (forall tx, In tx items -> Spec.fails host config tx = true ->
        In (LError, "Error processing transaction in webhook"%string) (logs (snd result))
        /\ In (LError, "Error processing transaction"%string) (logs (snd result)))
  /\ (forall tx now s',
        Spec.fails host config tx = true
        <-> exists e, fst (RawActivity.processTransaction host config tx now s') = Throw e).
Proof.
  intros Hcheck Hitems result. subst result.
  rewrite (handleWebhook_checked clock p items s Hcheck). cbv zeta.
  set (s0 := {| transfers := transfers s;
                logs := (LDebug, "Received webhook payload"%string) :: logs s |}).
  destruct (processAll_objects clock items Hitems 0 s0) as (s' & Hs' & Hfiled).
  destruct (processAll_log clock items Hitems 0 s0) as (entries & Hlog & Hloop & Hitem & Hall).
  rewrite Hs' in Hlog |- *. simpl in Hlog. cbn [fst snd logs transfers].
  assert (Hentries : exists entries',
            (LInfo, "Webhook processing completed"%string) :: logs s' = entries' ++ logs s
            /\ Spec.occurrences failure_in_loop entries'
               = length (List.filter (Spec.fails host config) items)
            /\ Spec.occurrences failure_in_item entries'
               = length (List.filter (Spec.fails host config) items)
            /\ Spec.occurrences failure_of_all entries' = 0%nat).
  { exists ((LInfo, "Webhook processing completed"%string) :: entries
            ++ [(LDebug, "Received webhook payload"%string)]).
    rewrite Hlog. split; [simpl; rewrite <- app_assoc; reflexivity|].
    change (?e :: entries ++ ?l) with ([e] ++ entries ++ l).
    rewrite !occurrences_app, Hloop, Hitem, Hall. unfold Spec.occurrences. simpl.
    repeat split; lia. }
  split; [reflexivity|]. split; [exact Hfiled|]. split; [|split; [exact Hentries|split]].
  - intros before tx after r -> Hr Hafter. rewrite Hfiled. simpl.
    apply filed_lookup_last; assumption.
  - intros tx Hin Hfails. destruct Hentries as (entries' & Heq & H1 & H2 & _).
    rewrite Heq.
    assert (0 < length (List.filter (Spec.fails host config) items))%nat as Hpos.
    { assert (In tx (List.filter (Spec.fails host config) items)) as Hin'
        by (apply List.filter_In; split; assumption).
      destruct (List.filter (Spec.fails host config) items); [destruct Hin'|simpl; lia]. }
    split; apply in_or_app; left; apply occurrences_positive; lia.
  - intros tx now s''. apply fails_throws.
Qed.

(** The store stays coherent through every item. *)
Lemma stored_by_hash (tx : RawActivity.item) (now : number) (r : TokenTransfer) :
  Spec.stored_by host config tx now = Some r ->
  exists t, tx = Some t /\ transactionHash r = RawActivity.signature t.
Proof.
  unfold Spec.stored_by. destruct tx as [t|]; [|discriminate]. simpl.
  destruct (head (RawActivity.transaction t)) as [detail|]; [|discriminate]. simpl.
  destruct (head (RawActivity.message detail)) as [msg|]; [|discriminate]. simpl.
  destruct (head (RawActivity.meta t)) as [m|]; [|discriminate]. simpl.
  destruct (RawActivity.account_keys msg) as [keys|]; [|discriminate]. simpl.
  destruct (findIndex isMonitoredAddress keys) as [i|]; [|discriminate]. simpl.
  destruct (gt0 _); [|discriminate].
  destruct (RawActivity.instructions msg) as [ins|]; [|discriminate]. simpl.
  destruct (head ins) as [first|]; [|discriminate]. simpl.
  intros [= <-]. exists t. split; reflexivity.
Qed.

Lemma processTransaction_coherent (tx : RawActivity.item) (now : number) (s : State) :
  Spec.coherent (transfers s) ->
  Spec.coherent (transfers (snd (processTransaction tx now s))).
Proof.
  intros Hc. destruct (processTransaction_effect tx now s) as (-> & _).
  destruct (Spec.stored_by host config tx now) as [r|]; simpl; [|exact Hc].
  now apply coherent_insert.
Qed.

Lemma processAll_coherent (clock : nat -> number) (items : list RawActivity.item) :
  forall (i : nat) (s : State),
  Spec.coherent (transfers s) ->
  Spec.coherent (transfers (snd (processAll clock i items s))).
Proof.
  induction items as [|tx rest IH]; intros i s Hc; [exact Hc|].
  cbn [RawActivity.processAll]. unfold mbind, M_bind, try_catch.
  pose proof (processTransaction_coherent tx (clock i) s Hc) as Hc1.
  destruct (processTransaction tx (clock i) s) as [[[]|e] s1]; simpl in Hc1.
  - now apply IH.
  - destruct tx as [t|]; run; [|exact Hc1]. now apply IH.
Qed.

Lemma handleWebhook_raw_coherent (clock : nat -> number) (p : RawActivity.payload) (s : State) :
  Spec.coherent (transfers s) ->
  Spec.coherent (transfers (snd (RawActivity.handleWebhook host config clock p s))).
Proof.
  intros Hc. destruct (RawActivity.check p) as [items|e] eqn:Hcheck.
  - rewrite (handleWebhook_checked clock p items s Hcheck). cbv zeta.
    pose proof (processAll_coherent clock items 0
                  {| transfers := transfers s;
                     logs := (LDebug, "Received webhook payload"%string) :: logs s |} Hc) as H.
    destruct (processAll clock 0 items _) as [[[]|e] s1]; exact H.
  - destruct (handleWebhook_refused clock p e s Hcheck) as (_ & ->). exact Hc.
Qed.

(** An incoming transfer whose sender cannot be read.  With no first
    instruction the item fails with a [TypeError] and nothing is stored;
    with a first instruction that names no account nothing fails: the record
    is stored, its [from] being [undefined]. *)
Lemma processTransaction_missing_sender
    (t : RawActivity.Transaction) (keys : list JSString)
    (ins : option (list RawActivity.TransactionInstruction)) (m : RawActivity.TransactionMeta)
    (now : number) (s : State) (i : nat) (pre post : Z) :
  Spec.item_parts t keys ins m ->
  findIndex isMonitoredAddress keys = Some i ->
  nth_error (RawActivity.pre_balances m) i = Some pre ->
  nth_error (RawActivity.post_balances m) i = Some post ->
  (0 < Spec.delta pre post)%Q ->
  let result := processTransaction (Some t) now s in
  (ins = Some [] ->
   fst result = Throw (TypeError "Cannot read properties of undefined (reading 'accounts')")
   /\ transfers (snd result) = transfers s)
  /\
  (forall rest, ins = Some ({| RawActivity.accounts := [] |} :: rest) ->
   fst result = Return tt
   /\ exists r, transfers (snd result) = <[RawActivity.signature t := r]> (transfers s)
                /\ from r = None /\ amount r = Num (Spec.delta pre post)).
Proof.
  intros Hparts Hi Hpre Hpost Hlt result. subst result.
  rewrite (processTransaction_parts t keys ins m now s Hparts). cbv zeta.
  rewrite Hi, Hpre, Hpost, gt0_delta.
  destruct (Qle_bool (Spec.delta pre post) 0) eqn:Hle.
  { apply Qle_bool_iff in Hle. exfalso. exact (Qlt_not_le _ _ Hlt Hle). }
  simpl. split.
  - intros ->. split; reflexivity.
  - intros rest ->. split; [reflexivity|]. eexists. split; [reflexivity|]. split; reflexivity.
Qed.

End RawActivityProps.

(** *** The scenarios of the specification, on the sample host *)

Section RawActivityScenarios.

Import Scenario.



(** What [validatePayload] refuses, and what it lets through. *)
Example validatePayload_refusals :
  RawActivity.check None = Throw (Error "Payload must be an object")
  /\ RawActivity.check (Some {| RawActivity.type := None; RawActivity.event := Some [] |})
     = Throw (Error "Missing webhook type")
  /\ RawActivity.check (Some {| RawActivity.type := Some (lit "MINED_TRANSACTION");
                                RawActivity.event := Some [Some received] |})
     = Throw (ErrorOf "Unsupported webhook type: " (lit "MINED_TRANSACTION"))
  /\ RawActivity.check (activity []) = Throw (Error "Missing transaction data")
  /\ RawActivity.check (activity [None; Some received]) = Throw (Error "Missing transaction data")
  /\ RawActivity.check (activity [Some no_meta; Some received])
     = Throw (Error "Missing transaction metadata")
  /\ RawActivity.check (activity [Some no_instructions; Some received])
     = Return [Some no_instructions; Some received].
Proof. repeat split. Qed.

(** The first item is the one that is validated: when it lacks its
    metadata the notification is refused as a whole, and a sound item after
    it is not processed. *)
Example handleWebhook_first_item_validated :
  fst (run_batch [Some no_meta; Some received]) = Throw (Error "Missing transaction metadata")
  /\ transfers (snd (run_batch [Some no_meta; Some received])) = ∅
  /\ fst (run_batch [Some received; Some no_meta]) = Return tt
  /\ is_Some (transfers (snd (run_batch [Some received; Some no_meta])) !! lit "sigReceived").
Proof. vm_compute. repeat split. eauto. Qed.

(** Scenario D: the balance of the monitored address goes down, and no
    record is made. *)
Example processTransaction_outgoing :
  fst (run_item paid) = Return tt /\ transfers (snd (run_item paid)) = ∅.
Proof. vm_compute. split; reflexivity. Qed.

(** C6, evaluation at the failing input.  The item [no_accounts] has a
    positive balance change for the monitored address and a first
    instruction whose account list is empty.  [processTransaction] returns
    without an error and the store then holds a record for the item, with
    [from] left [undefined]; the batch that contains it is accepted.  The
    sibling case, the item [no_instructions] with an empty instruction list,
    does fail with a [TypeError] and stores nothing. *)
Theorem processTransaction_stores_without_sender :
  fst (run_item no_accounts) = Return tt
  /\ from <$> (transfers (snd (run_item no_accounts)) !! lit "sigNoAccounts") = Some None
  /\ amount <$> (transfers (snd (run_item no_accounts)) !! lit "sigNoAccounts")
     = Some (Num (Spec.delta 1000000000 1500000000))
  /\ fst (run_batch [Some no_accounts; Some received]) = Return tt
  /\ fst (run_item no_instructions)
     = Throw (TypeError "Cannot read properties of undefined (reading 'accounts')")
  /\ transfers (snd (run_item no_instructions)) = ∅.
Proof.
  assert (Hparts : Spec.item_parts no_accounts [Sample.sender; Sample.monitored]
                     (Some [{| RawActivity.accounts := [] |}])
                     {| RawActivity.fee := 5000;
                        RawActivity.pre_balances := [5000000000; 1000000000];
                        RawActivity.post_balances := [4499995000; 1500000000] |}).
  { unfold Spec.item_parts. do 4 eexists. repeat split. }
  destruct (processTransaction_missing_sender Sample.host Sample.config no_accounts _ _ _
              (clock 0) initial 1%nat 1000000000 1500000000 Hparts)
    as [_ Hstored]; try reflexivity.
  destruct (Hstored [] eq_refl) as (Hret & r & Hstore & Hfrom & Hamount).
  split; [exact Hret|]. unfold run_item in *. rewrite Hstore.
  change (RawActivity.signature no_accounts) with (lit "sigNoAccounts").
  rewrite lookup_insert_eq. simpl. rewrite Hfrom, Hamount.
  repeat split; vm_compute; reflexivity.
Qed.

(** Scenario F: the first item has no instruction, the second is sound: the
    notification is accepted, the store holds the second item's record and
    no other, and the failure of the first item is logged, by
    [processTransaction] and by the loop. *)
Lemma handleWebhook_scenario_F :
  fst (run_batch [Some no_instructions; Some received]) = Return tt
  /\ transactionHash <$> (transfers (snd (run_batch [Some no_instructions; Some received]))
                          !! lit "sigReceived") = Some (lit "sigReceived")
  /\ transfers (snd (run_batch [Some no_instructions; Some received])) !! lit "sigNoInstructions"
     = None
  /\ In (LError, "Error processing transaction in webhook"%string)
        (logs (snd (run_batch [Some no_instructions; Some received])))
  /\ In (LError, "Error processing transaction"%string)
        (logs (snd (run_batch [Some no_instructions; Some received]))).
Proof.
  pose proof (handleWebhook_isolates_failures Sample.host Sample.config clock
                (activity [Some no_instructions; Some received])
                [Some no_instructions; Some received] initial eq_refl) as H.
  destruct H as (Hret & Hstore & Hfound & _ & Hlogged & _).
  { repeat constructor; discriminate. }
  split; [exact Hret|]. split; [|split; [|apply (Hlogged (Some no_instructions));
                                           [now left|vm_compute; reflexivity]]].
  - assert (Hr := Hfound [Some no_instructions] (Some received) []
               {| amount := Num (Spec.delta 1000000000 1500000000);
                  tokenAddress := lit "SOL";
                  from := Some Sample.sender;
                  to := Some Sample.monitored;
                  timestamp := clock 1;
                  transactionHash := lit "sigReceived" |} eq_refl eq_refl).
    cbn [transactionHash] in Hr. unfold run_batch. rewrite Hr; [reflexivity|].
    intros [|k] tx' r' Hk; discriminate.
  - unfold run_batch. rewrite Hstore. vm_compute. reflexivity.
Defined.

(** The failure of the first item of scenario F is logged. *)
Example failure_of_first_item_logged :
  In (LError, "Error processing transaction in webhook"%string)
     (logs (snd (run_batch [Some no_instructions; Some received]))).
Proof. vm_compute. do 3 right. now left. Qed.

(** C3, counterexample.  Two notifications with a malformed and a sound
    item that are not accepted.  In the first the malformed item comes first
    and lacks its metadata: [validatePayload] refuses the notification and
    the sound item is not processed.  In the second the malformed item is a
    [null] between two sound items; the payload passes [validatePayload],
    the first item is stored, then the handler of the inner [catch] throws
    on [transaction.signature]: [handleWebhook] throws, and the third item,
    which would file a record, is never processed. *)
Lemma handleWebhook_rejects_notification :
  fst (run_batch [Some no_meta; Some received]) = Throw (Error "Missing transaction metadata")
  /\ transfers (snd (run_batch [Some no_meta; Some received])) = ∅
  /\ RawActivity.check (activity [Some received; None; Some received_again])
     = Return [Some received; None; Some received_again]
  /\ fst (run_batch [Some received; None; Some received_again])
     = Throw (TypeError "Cannot read properties of null (reading 'signature')")
  /\ is_Some (transfers (snd (run_batch [Some received; None; Some received_again]))
              !! lit "sigReceived")
  /\ transfers (snd (run_batch [Some received; None; Some received_again])) !! lit "sigAgain"
     = None
  /\ is_Some (Spec.stored_by Sample.host Sample.config (Some received_again) (clock 2)).
Proof.
  split; [vm_compute; reflexivity|]. split; [vm_compute; reflexivity|].
  assert (Hcheck : RawActivity.check (activity [Some received; None; Some received_again])
                   = Return ([Some received] ++ None :: [Some received_again]))
    by reflexivity.
  destruct (handleWebhook_null_item Sample.host Sample.config clock _ _ _ initial Hcheck)
    as [Hthrow Hstore].
  { repeat constructor. discriminate. }
  split; [exact Hcheck|]. split; [exact Hthrow|].
  unfold run_batch. rewrite Hstore.
  split; [|split]; vm_compute; eauto.
Qed.

End RawActivityScenarios.

(** ** The legacy token-event shape *)

Section LegacyProps.

Variable host : Host.
Variable config : Config.

Import Legacy.

Lemma is_digit_spec (c : Z) : is_digit c = true <-> 48 <= c <= 57.
Proof. unfold is_digit. rewrite andb_true_iff, !Z.leb_le. reflexivity. Qed.

(** A string splits into its leading digits and what [skip_digits] leaves. *)
Lemma skip_digits_split (s : JSString) :
  exists int,
    s = int ++ skip_digits s /\ Spec.digits int
    /\ take_digits s = map (fun c => c - 48) int
    /\ match skip_digits s with [] => True | c :: _ => is_digit c = false end.
Proof.
  induction s as [|c s (int & Hs & Hint & Htake & Hrest)]; simpl.
  - exists []. repeat split. constructor.
  - destruct (is_digit c) eqn:Hc.
    + exists (c :: int). simpl. repeat split.
      * now rewrite <- Hs.
      * constructor; [now apply is_digit_spec|assumption].
      * now rewrite Htake.
      * exact Hrest.
    + exists []. repeat split; [constructor|exact Hc].
Qed.

Lemma skip_digits_digits (s : JSString) : Spec.digits s -> skip_digits s = [].
Proof.
  induction 1 as [|c s Hc _ IH]; simpl; [reflexivity|].
  apply is_digit_spec in Hc. now rewrite Hc.
Qed.

Lemma skip_digits_app (int rest : JSString) :
  Spec.digits int -> skip_digits (int ++ rest) = skip_digits rest.
Proof.
  induction 1 as [|c s Hc _ IH]; simpl; [reflexivity|].
  apply is_digit_spec in Hc. now rewrite Hc.
Qed.

Lemma take_digits_nil (s : JSString) :
  take_digits s = [] -> match s with [] => True | c :: _ => is_digit c = false end.
Proof. destruct s as [|c s]; simpl; [trivial|]. destruct (is_digit c); [discriminate|trivial]. Qed.

(** The amount pattern, in words: a plain decimal numeral, or one of the two
    strings without any digit that the pattern lets through. *)
Lemma amount_re_spec (s : JSString) :
  amount_re s = true <-> Spec.plain_decimal_numeral s \/ s = [] \/ s = [46].
Proof.
  unfold amount_re. split.
  - destruct (skip_digits_split s) as (int & Hs & Hint & _ & Hrest).
    destruct (skip_digits s) as [|c rest] eqn:Hskip.
    + intros _. rewrite app_nil_r in Hs. subst s.
      destruct int as [|d int]; [now right; left|].
      left. exists (d :: int), []. repeat split; [assumption|constructor|now left|now right].
    + intros H. apply andb_true_iff in H as [Hc H]. apply Z.eqb_eq in Hc. subst c.
      destruct (skip_digits_split rest) as (frac & Hr & Hfrac & _ & _).
      destruct (skip_digits rest); [|discriminate]. rewrite app_nil_r in Hr. subst rest.
      destruct int as [|d int]; destruct frac as [|f frac]; simpl in Hs; subst s.
      * now right; right.
      * left. exists [], (f :: frac). repeat split; [constructor|assumption|now right|now left].
      * left. exists (d :: int), []. repeat split; [assumption|constructor|now left|now left].
      * left. exists (d :: int), (f :: frac). repeat split; [assumption..|now left|now left].
  - intros [(int & frac & Hint & Hfrac & _ & [-> | [-> ->]]) | [-> | ->]]; try reflexivity.
    + rewrite skip_digits_app by assumption. simpl. now rewrite skip_digits_digits.
    + now rewrite skip_digits_digits.
Qed.

(** The strings without a digit are no numerals. *)
Lemma empty_not_numeral : ~ Spec.plain_decimal_numeral [].
Proof.
  intros (int & frac & _ & _ & Hne & [H | [-> H]]).
  - destruct int; discriminate.
  - subst int. destruct Hne; congruence.
Qed.

Lemma point_not_numeral : ~ Spec.plain_decimal_numeral [46].
Proof.
  intros (int & frac & Hint & _ & Hne & [H | [-> H]]).
  - destruct int as [|d int]; simpl in H.
    + injection H as <-. destruct Hne; congruence.
    + injection H as <- H. destruct int; discriminate.
  - subst int. inversion Hint; lia.
Qed.

(** [parseFloat] of a string that matched the pattern is [NaN] exactly for
    those two strings. *)
Lemma parseFloat_NaN (s : JSString) :
  amount_re s = true -> (isNaN (parseFloat s) = true <-> s = [] \/ s = [46]).
Proof.
  intros Hre. split.
  - unfold parseFloat. intros Hnan.
    destruct (skip_digits_split s) as (int & Hs & Hint & Htake & _).
    rewrite Htake in Hnan.
    destruct int as [|d int]; [|discriminate]. simpl in Hs, Hnan.
    unfold amount_re in Hre. rewrite <- Hs in Hnan, Hre.
    destruct s as [|c rest]; [now left|].
    apply andb_true_iff in Hre as [Hc Hre]. rewrite Hc in Hnan. apply Z.eqb_eq in Hc. subst c.
    destruct (skip_digits_split rest) as (frac & Hr & _ & Htake' & _).
    rewrite Htake' in Hnan. destruct (skip_digits rest); [|discriminate].
    rewrite app_nil_r in Hr. subst rest.
    destruct frac; [now right|discriminate].
  - intros [-> | ->]; reflexivity.
Qed.

(** What a payload that passes [validatePayload] looks like. *)
Lemma check_Return (p : payload) (event : ValidEvent) :
  check host p = Return event ->
  p = WithEvent {| ev_tokenAddress := Str (tokenAddress event); ev_to := Str (to event);
                   ev_from := Str (from event); ev_amount := Str (amount event);
                   ev_hash := Str (hash event); ev_timestamp := Str (timestamp event) |}
  /\ address_re (tokenAddress event) = true /\ address_re (to event) = true
  /\ address_re (from event) = true /\ amount_re (amount event) = true
  /\ isNaN (Date_getTime host (timestamp event)) = false.
Proof.
  destruct p as [| |[f1 f2 f3 f4 f5 f6]]; try discriminate.
  unfold check, missingFields.
  destruct f1; simpl; try discriminate; destruct f2; simpl; try discriminate;
  destruct f3; simpl; try discriminate; destruct f4; simpl; try discriminate;
  destruct f5; simpl; try discriminate; destruct f6; simpl; try discriminate.
  destruct (address_re s) eqn:H1; simpl; try discriminate.
  destruct (address_re s0) eqn:H2; simpl; try discriminate.
  destruct (address_re s1) eqn:H3; simpl; try discriminate.
  destruct (amount_re s2) eqn:H4; simpl; try discriminate.
  destruct (isNaN (Date_getTime host s4)) eqn:H5; simpl; try discriminate.
  intros [= <-]. simpl. repeat split; assumption.
Qed.

(** The check on a payload all of whose fields are strings and whose three
    addresses have the address format: the amount is looked at next, then
    the timestamp. *)
Lemma check_amount (tokenAddress to from amount hash timestamp : JSString) :
  address_re tokenAddress = true -> address_re to = true -> address_re from = true ->
  check host (WithEvent {| ev_tokenAddress := Str tokenAddress; ev_to := Str to;
                           ev_from := Str from; ev_amount := Str amount;
                           ev_hash := Str hash; ev_timestamp := Str timestamp |})
  = if amount_re amount then
      if isNaN (Date_getTime host timestamp) then Throw (Error "Invalid timestamp format")
      else Return {| Legacy.tokenAddress := tokenAddress; Legacy.to := to; Legacy.from := from;
                     Legacy.amount := amount; Legacy.hash := hash;
                     Legacy.timestamp := timestamp |}
    else Throw (Error "Invalid amount format").
Proof.
  intros H1 H2 H3. unfold check, missingFields. simpl. rewrite H1, H2, H3. simpl.
  destruct (amount_re amount); simpl; [|reflexivity].
  destruct (isNaN (Date_getTime host timestamp)); reflexivity.
Qed.

(** The error of the amount format is thrown for no other reason. *)
Lemma check_amount_error (p : payload) :
  check host p = Throw (Error "Invalid amount format") ->
  exists e amount, p = WithEvent e /\ ev_amount e = Str amount /\ amount_re amount = false.
Proof.
  destruct p as [| |[f1 f2 f3 f4 f5 f6]]; try discriminate.
  unfold check, missingFields.
  destruct f1; simpl; try discriminate; destruct f2; simpl; try discriminate;
  destruct f3; simpl; try discriminate; destruct f4; simpl; try discriminate;
  destruct f5; simpl; try discriminate; destruct f6; simpl; try discriminate.
  destruct (address_re s) eqn:H1; simpl; try discriminate.
  destruct (address_re s0) eqn:H2; simpl; try discriminate.
  destruct (address_re s1) eqn:H3; simpl; try discriminate.
  destruct (amount_re s2) eqn:H4; simpl.
  - destruct (isNaN (Date_getTime host s4)); discriminate.
  - intros _. eexists _, s2. repeat split. exact H4.
Qed.

Local Abbreviation transfer_of := (Spec.transfer_of host).
Local Abbreviation monitored_token := (Spec.monitored_token host config).
Local Abbreviation monitored_recipient := (Spec.monitored_recipient host config).
Local Abbreviation logged := Spec.logged.

(** [handleWebhook] on a payload that passes [validatePayload]. *)
Lemma handleWebhook_legacy_checked (p : payload) (event : ValidEvent) (s : State) :
  check host p = Return event ->
  handleWebhook host config p s =
  if negb (monitored_token event) then
    (Return tt, logged [(LInfo, "Non-USDC transfer ignored"); (LDebug, "Comparing token addresses");
                        (LDebug, "Received webhook payload")]%string s)
  else if negb (monitored_recipient event) then
    (Return tt, logged [(LInfo, "Transfer to different address ignored");
                        (LDebug, "Comparing recipient addresses");
                        (LDebug, "Comparing token addresses");
                        (LDebug, "Received webhook payload")]%string s)
  else if isNaN (parseFloat (amount event)) then
    (Throw (Error "Failed to parse amount"),
     logged [(LError, "Error handling webhook"); (LError, "Failed to process transfer");
             (LDebug, "Comparing recipient addresses"); (LDebug, "Comparing token addresses");
             (LDebug, "Received webhook payload")]%string s)
  else
    (Return tt,
     {| transfers := <[hash event := transfer_of event]> (transfers s);
        logs := [(LInfo, "Transfer recorded"); (LDebug, "Comparing recipient addresses");
                 (LDebug, "Comparing token addresses");
                 (LDebug, "Received webhook payload")]%string ++ logs s |}).
Proof.
  intros Hcheck. pose proof (check_Return p event Hcheck) as (_ & _ & _ & _ & _ & Hts).
  unfold handleWebhook, validatePayload, record, Spec.monitored_token, Spec.monitored_recipient.
  run. rewrite Hcheck.
  destruct (negb (str_eqb _ _)); [reflexivity|].
  destruct (negb (str_eqb _ _)); [reflexivity|].
  destruct (isNaN (parseFloat (amount event))); [reflexivity|].
  rewrite Hts. reflexivity.
Qed.

(** [validatePayload] ends as its checks do, and only adds a log entry. *)
Lemma validatePayload_outcome (p : payload) (s : State) :
  fst (validatePayload host p s) = check host p
  /\ transfers (snd (validatePayload host p s)) = transfers s.
Proof.
  unfold validatePayload, try_catch, lift.
  destruct (check host p) as [event|e]; split; reflexivity.
Qed.

Lemma handleWebhook_legacy_refused (p : payload) (e : Exn) (s : State) :
  check host p = Throw e ->
  handleWebhook host config p s
  = (Throw e, logged [(LError, "Error handling webhook"); (LError, "Payload validation failed");
                      (LDebug, "Received webhook payload")]%string s).
Proof.
  intros Hcheck. unfold handleWebhook, validatePayload. run. rewrite Hcheck. reflexivity.
Qed.

Lemma handleWebhook_legacy_coherent (p : payload) (s : State) :
  Spec.coherent (transfers s) ->
  Spec.coherent (transfers (snd (handleWebhook host config p s))).
Proof.
  intros Hc. destruct (check host p) as [event|e] eqn:Hcheck.
  - rewrite (handleWebhook_legacy_checked p event s Hcheck).
    destruct (negb (monitored_token event)); [exact Hc|].
    destruct (negb (monitored_recipient event)); [exact Hc|].
    destruct (isNaN (parseFloat (amount event))); [exact Hc|].
    simpl. apply (coherent_insert (transfers s) (transfer_of event) Hc).
  - rewrite (handleWebhook_legacy_refused p e s Hcheck). exact Hc.
Qed.

Lemma getTransferByHash_spec (h : JSString) (s : State) :
  fst (getTransferByHash h s) = Return (transfers s !! h)
  /\ transfers (snd (getTransferByHash h s)) = transfers s.
Proof. unfold getTransferByHash. run. destruct (transfers s !! h); split; reflexivity. Qed.

End LegacyProps.

(** ** The HTTP handler *)

Section ControllerProps.

Context {Body : Type}.
Variable config : Config.
Variable service : Body -> M unit.

Import Controller.

Local Abbreviation handle := (Controller.handleWebhook config service).

(** A signature that verifies is not the empty string. *)
Lemma verified_nonempty (rawBody signature : JSString) (key : option JSString) :
  SignatureVerification.verifyAlchemySignature rawBody signature key = Return true ->
  signature <> [].
Proof.
  unfold SignatureVerification.verifyAlchemySignature, Crypto.createHmac.
  destruct key as [k|]; [|discriminate]. intros [= H]. apply str_eqb_true in H.
  intros ->. pose proof (proj1 (digest_shape k rawBody)) as Hlen.
  rewrite <- H in Hlen. discriminate.
Qed.

(** An authentic request reaches the service, and the reply tells whether
    the service returned or threw. *)
Lemma handleWebhook_authentic (req : Request Body) (s : State) :
  Spec.authentic config req ->
  handle req s =
  match service (body req) s with
  | (Return _, s1) =>
    (Return {| status := 200; json := Message "Webhook processed successfully" |}, s1)
  | (Throw _, s1) =>
    (Return {| status := 500; json := Message "Internal server error" |},
     Spec.logged [(LError, "Error processing webhook"%string)] s1)
  end.
Proof.
  intros (signature & raw & Hsig & Hraw & Hverify).
  pose proof (verified_nonempty _ _ _ Hverify) as Hne.
  unfold Controller.handleWebhook. rewrite Hsig, Hraw.
  destruct signature as [|c signature]; [congruence|].
  run. rewrite Hverify. simpl.
  destruct (service (body req) s) as [[[]|e] s1]; reflexivity.
Qed.

(** C5.  A request whose signature header is absent, is not a string, or is
    refused by the verifier is answered with status 401.  The service is not
    called: the outcome is the same whatever the service would do, and the
    state differs from the one before by a single log entry of the handler,
    so the stored transfers are unchanged. *)
Theorem handleWebhook_unauthorized (req : Request Body) (s : State) :
  Spec.unauthenticated config req ->
  (exists text entry,
     handle req s
     = (Return {| status := 401; json := Message text |}, Spec.logged [(LError, entry)] s))
  /\ transfers (snd (handle req s)) = transfers s
  /\ (forall service' : Body -> M unit,
        Controller.handleWebhook config service' req s = handle req s).
Proof.
  unfold Spec.unauthenticated, Controller.handleWebhook.
  destruct (x_alchemy_signature req) as [|signature|l].
  - intros _. run. split; [eexists _, _; reflexivity|]. split; reflexivity.
  - intros [-> | (raw & Hraw & Hverify)].
    + run. split; [eexists _, _; reflexivity|]. split; reflexivity.
    + rewrite Hraw. destruct signature as [|c signature].
      * run. split; [eexists _, _; reflexivity|]. split; reflexivity.
      * run. rewrite Hverify. simpl. split; [eexists _, _; reflexivity|]. split; reflexivity.
  - intros _. run. split; [eexists _, _; reflexivity|]. split; reflexivity.
Qed.

(** Whenever the handler does not answer 200 or reach the service, the
    transfers are as before: without a raw body, and when the verifier
    throws, the reply is 500. *)
Lemma handleWebhook_unverified_frame (req : Request Body) (s : State) :
  ~ Spec.authentic config req ->
  transfers (snd (handle req s)) = transfers s
  /\ (forall service' : Body -> M unit,
        Controller.handleWebhook config service' req s = handle req s).
Proof.
  intros Hno. unfold Controller.handleWebhook.
  destruct (x_alchemy_signature req) as [|signature|l] eqn:Hsig;
    [run; split; reflexivity| |run; split; reflexivity].
  destruct signature as [|c signature]; [run; split; reflexivity|].
  destruct (rawBody req) as [raw|] eqn:Hraw; [|run; split; reflexivity].
  run.
  destruct (SignatureVerification.verifyAlchemySignature (Utf8.decode raw) (c :: signature)
              (alchemyWebhookSigningKey config)) as [[|]|e] eqn:Hverify;
    simpl; try (split; reflexivity).
  exfalso. apply Hno. exists (c :: signature), raw. auto.
Qed.

(** The handler keeps the store coherent when the service does. *)
Lemma handleWebhook_controller_coherent (req : Request Body) (s : State) :
  (forall b s0, Spec.coherent (transfers s0) -> Spec.coherent (transfers (snd (service b s0)))) ->
  Spec.coherent (transfers s) -> Spec.coherent (transfers (snd (handle req s))).
Proof.
  intros Hservice Hc. unfold Controller.handleWebhook.
  destruct (x_alchemy_signature req) as [|signature|l] eqn:Hsig; [exact Hc| |exact Hc].
  destruct signature as [|c signature]; [exact Hc|].
  destruct (rawBody req) as [raw|] eqn:Hraw; [|exact Hc].
  run.
  destruct (SignatureVerification.verifyAlchemySignature (Utf8.decode raw) (c :: signature)
              (alchemyWebhookSigningKey config)) as [[|]|e] eqn:Hverify;
    simpl; try exact Hc.
  specialize (Hservice (body req) s Hc).
  destruct (service (body req) s) as [[[]|e] s1]; exact Hservice.
Qed.

End ControllerProps.

(** ** The store: records are filed under their hash *)

Section StoreProps.

Variable host : Host.
Variable config : Config.

Lemma reachable_coherent (s : State) :
  Spec.reachable host config s -> Spec.coherent (transfers s).
Proof.
  induction 1 as [|p s _ IH|clock p s _ IH|h s _ IH].
  - apply coherent_empty.
  - now apply handleWebhook_legacy_coherent.
  - now apply handleWebhook_raw_coherent.
  - now rewrite (proj2 (getTransferByHash_spec h s)).
Qed.

(** C10.  In every state the service can reach, through notifications of
    the legacy shape and of the address-activity shape in any order, a
    lookup that returns a record returns one whose [transactionHash] is the
    hash asked for. *)
Theorem lookup_returns_own_hash (s : State) (h : JSString) (r : TokenTransfer) :
  Spec.reachable host config s ->
  fst (Legacy.getTransferByHash h s) = Return (Some r) ->
  transactionHash r = h.
Proof.
  intros Hreach Hget. rewrite (proj1 (getTransferByHash_spec h s)) in Hget.
  injection Hget as Hget. exact (reachable_coherent s Hreach h r Hget).
Qed.

(** The two revisions of the service share the lookup. *)
Lemma getTransferByHash_same (h : JSString) (s : State) :
  RawActivity.getTransferByHash h s = Legacy.getTransferByHash h s.
Proof. reflexivity. Qed.

End StoreProps.

(** ** Validation and extraction of legacy events *)

Section LegacyService.

Variable host : Host.
Variable config : Config.

Import Legacy.

(** C8, as amended.  Let every field of the event be a string and the three
    addresses have the address format, so that the amount is looked at.
    The check of the amount passes exactly when the amount is a plain
    decimal numeral, or the empty string, or a point on its own; then the
    payload is valid as soon as the timestamp is.  In every other case, and
    in no case besides, [validatePayload] fails with the error
    [Invalid amount format]. *)
Theorem validatePayload_amount_pattern
    (tokenAddress to from amount hash timestamp : JSString) :
  address_re tokenAddress = true -> address_re to = true -> address_re from = true ->
  let p := WithEvent {| ev_tokenAddress := Str tokenAddress; ev_to := Str to;
                        ev_from := Str from; ev_amount := Str amount;
                        ev_hash := Str hash; ev_timestamp := Str timestamp |} in
  let passes := Spec.plain_decimal_numeral amount \/ amount = [] \/ amount = [46] in
  (passes ->
   check host p <> Throw (Error "Invalid amount format")
   /\ (isNaN (Date_getTime host timestamp) = false ->
       check host p = Return {| Legacy.tokenAddress := tokenAddress; Legacy.to := to;
                                Legacy.from := from; Legacy.amount := amount;
                                Legacy.hash := hash; Legacy.timestamp := timestamp |}))
  /\ (~ passes -> forall s,
        fst (validatePayload host p s) = Throw (Error "Invalid amount format"))
  /\ (forall p' s, fst (validatePayload host p' s) = Throw (Error "Invalid amount format") ->
        exists e a, p' = WithEvent e /\ ev_amount e = Str a
                    /\ ~ (Spec.plain_decimal_numeral a \/ a = [] \/ a = [46])).
Proof.
  intros H1 H2 H3 p passes. subst p passes.
  rewrite (check_amount host _ _ _ amount hash timestamp H1 H2 H3).
  split; [|split].
  - intros Hpass. apply amount_re_spec in Hpass. rewrite Hpass. split.
    + destruct (isNaN (Date_getTime host timestamp)); discriminate.
    + now intros ->.
  - intros Hfail s. rewrite (proj1 (validatePayload_outcome host _ s)).
    rewrite (check_amount host _ _ _ amount hash timestamp H1 H2 H3).
    destruct (amount_re amount) eqn:Hre; [|reflexivity].
    exfalso. apply Hfail. now apply amount_re_spec.
  - intros p' s Hthrow.
    assert (Hcheck : check host p' = Throw (Error "Invalid amount format")).
    { now rewrite <- (proj1 (validatePayload_outcome host p' s)). }
    destruct (check_amount_error host p' Hcheck) as (e & a & -> & Ha & Hre).
    exists e, a. repeat split; [exact Ha|].
    intros Hpass. apply amount_re_spec in Hpass. congruence.
Qed.

(** C7, as amended.  Let a legacy payload pass validation and both filters.
    If the amount does not parse (it is then the empty string or a point on
    its own), the failure is logged and thrown on: nothing is stored,
    [handleWebhook] throws [Failed to parse amount], and the handler answers
    an authentic request with status 500.  The timestamp of a valid payload
    always parses. *)
Theorem handleWebhook_parse_failure_rethrown (p : payload) (event : ValidEvent) (s : State) :
  check host p = Return event ->
  Spec.monitored_token host config event = true ->
  Spec.monitored_recipient host config event = true ->
  isNaN (parseFloat (amount event)) = true ->
  let result := handleWebhook host config p s in
  fst result = Throw (Error "Failed to parse amount")
  /\ transfers (snd result) = transfers s
  /\ In (LError, "Failed to process transfer"%string) (logs (snd result))
  /\ (amount event = [] \/ amount event = [46])
  /\ isNaN (Date_getTime host (timestamp event)) = false
  /\ (forall req : Controller.Request payload,
        Spec.authentic config req -> Controller.body req = p ->
        fst (Controller.handleWebhook config (handleWebhook host config) req s)
        = Return {| Controller.status := 500;
                    Controller.json := Controller.Message "Internal server error" |}).
Proof.
  intros Hcheck Htoken Hto Hnan result. subst result.
  pose proof (check_Return host p event Hcheck) as (_ & _ & _ & _ & Hre & Hts).
  assert (Hrun := handleWebhook_legacy_checked host config p event s Hcheck).
  rewrite Htoken, Hto, Hnan in Hrun. simpl in Hrun.
  rewrite Hrun. simpl. repeat split.
  - right. now left.
  - now apply parseFloat_NaN.
  - exact Hts.
  - intros req Hauth Hbody.
    rewrite (handleWebhook_authentic config _ req s Hauth), Hbody, Hrun. reflexivity.
Qed.

(** When the amount parses, the record is stored and the notification
    succeeds. *)
Lemma handleWebhook_legacy_stores (p : payload) (event : ValidEvent) (s : State) :
  check host p = Return event ->
  Spec.monitored_token host config event = true ->
  Spec.monitored_recipient host config event = true ->
  isNaN (parseFloat (amount event)) = false ->
  fst (handleWebhook host config p s) = Return tt
  /\ transfers (snd (handleWebhook host config p s))
     = <[hash event := Spec.transfer_of host event]> (transfers s).
Proof.
  intros Hcheck Htoken Hto Hnan.
  rewrite (handleWebhook_legacy_checked host config p event s Hcheck), Htoken, Hto, Hnan.
  split; reflexivity.
Qed.

(** A mismatch of the token or of the recipient stores nothing and is no
    error. *)
Lemma handleWebhook_legacy_filters (p : payload) (event : ValidEvent) (s : State) :
  check host p = Return event ->
  Spec.monitored_token host config event = false
  \/ Spec.monitored_recipient host config event = false ->
  fst (handleWebhook host config p s) = Return tt
  /\ transfers (snd (handleWebhook host config p s)) = transfers s.
Proof.
  intros Hcheck Hfilter.
  rewrite (handleWebhook_legacy_checked host config p event s Hcheck).
  destruct (Spec.monitored_token host config event); simpl; [|split; reflexivity].
  destruct Hfilter as [Hf|Hf]; [discriminate|]. rewrite Hf. split; reflexivity.
Qed.

(** C4.  The store is written by [handleWebhook] alone
    ([this.transfers.set(transfer.transactionHash, transfer)]) and read by
    [getTransferByHash].  Let two notifications pass validation and both
    filters, with amounts that parse, and carry one hash.  After the first
    the lookup of the hash returns its record; after the second it returns
    the record of the second, whole, and the store is the one that the
    second alone would have left: nothing of the first record remains.  A
    notification delivered twice leaves the store that one delivery
    leaves, so every lookup answers the same.  A lookup of a hash that is
    not stored returns [undefined] and does not throw. *)
Theorem handleWebhook_legacy_last_write_wins
    (p1 p2 : payload) (e1 e2 : ValidEvent) (s : State) :
  check host p1 = Return e1 -> check host p2 = Return e2 ->
  hash e1 = hash e2 ->
  Spec.monitored_token host config e1 = true ->
  Spec.monitored_recipient host config e1 = true ->
  isNaN (parseFloat (amount e1)) = false ->
  Spec.monitored_token host config e2 = true ->
  Spec.monitored_recipient host config e2 = true ->
  isNaN (parseFloat (amount e2)) = false ->
  let s1 := snd (handleWebhook host config p1 s) in
  let s2 := snd (handleWebhook host config p2 s1) in
  fst (getTransferByHash (hash e1) s1) = Return (Some (Spec.transfer_of host e1))
  /\ fst (getTransferByHash (hash e1) s2) = Return (Some (Spec.transfer_of host e2))
  /\ transfers s2 = transfers (snd (handleWebhook host config p2 s))
  /\ transfers (snd (handleWebhook host config p1 s1)) = transfers s1
  /\ (forall h, fst (getTransferByHash h (snd (handleWebhook host config p1 s1)))
                = fst (getTransferByHash h s1))
  /\ (forall h s', transfers s' !! h = None -> fst (getTransferByHash h s') = Return None).
Proof.
  intros H1 H2 Hhash Htoken1 Hto1 Hnan1 Htoken2 Hto2 Hnan2 s1 s2. subst s1 s2.
  pose proof (fun s0 => proj2 (handleWebhook_legacy_stores p1 e1 s0 H1 Htoken1 Hto1 Hnan1))
    as Hstore1.
  pose proof (fun s0 => proj2 (handleWebhook_legacy_stores p2 e2 s0 H2 Htoken2 Hto2 Hnan2))
    as Hstore2.
  assert (Hidem : transfers (snd (handleWebhook host config p1
                                    (snd (handleWebhook host config p1 s))))
                  = transfers (snd (handleWebhook host config p1 s))).
  { rewrite (Hstore1 (snd (handleWebhook host config p1 s))), (Hstore1 s).
    apply insert_insert_eq. }
  split; [|split; [|split; [|split; [exact Hidem|split]]]].
  - rewrite (proj1 (getTransferByHash_spec _ _)), Hstore1. f_equal. apply lookup_insert_eq.
  - rewrite (proj1 (getTransferByHash_spec _ _)), Hstore2, Hhash. f_equal.
    apply lookup_insert_eq.
  - rewrite (Hstore2 (snd (handleWebhook host config p1 s))), (Hstore1 s), (Hstore2 s), Hhash.
    apply insert_insert_eq.
  - intros h. rewrite !(proj1 (getTransferByHash_spec _ _)), Hidem. reflexivity.
  - intros h s' Habsent. rewrite (proj1 (getTransferByHash_spec _ _)), Habsent. reflexivity.
Qed.

End LegacyService.

(** ** Worked examples on the sample host *)

Section Examples.

Import Scenario.

(** Scenario A: the legacy event with amount 12.5 and hash abc123 is
    stored. *)
Example handleWebhook_scenario_A :
  fst (legacy (token_event (lit "12.5") (lit "abc123")) initial) = Return tt
  /\ transfers after_A !! lit "abc123" = Some record_A
  /\ (forall q, amount record_A = Num q -> (q == 25 # 2)%Q).
Proof.
  split; [vm_compute; reflexivity|]. split; [vm_compute; reflexivity|].
  intros q [= <-]. reflexivity.
Qed.

(** Scenario B: the same event to another recipient leaves the store
    empty. *)
Example handleWebhook_scenario_B :
  legacy (Legacy.WithEvent {|
            Legacy.ev_tokenAddress := Legacy.Str Sample.usdc;
            Legacy.ev_to := Legacy.Str Sample.sender;
            Legacy.ev_from := Legacy.Str Sample.sender;
            Legacy.ev_amount := Legacy.Str (lit "12.5");
            Legacy.ev_hash := Legacy.Str (lit "abc123");
            Legacy.ev_timestamp := Legacy.Str (lit "2024-01-01T00:00:00.000Z") |}) initial
  = (Return tt,
     Spec.logged [(LInfo, "Transfer to different address ignored");
                  (LDebug, "Comparing recipient addresses");
                  (LDebug, "Comparing token addresses");
                  (LDebug, "Received webhook payload")]%string initial).
Proof. vm_compute. reflexivity. Qed.

(** A missing field is named in the error. *)
Example validatePayload_missing_fields :
  Legacy.check Sample.host (Legacy.WithEvent {|
      Legacy.ev_tokenAddress := Legacy.Str Sample.usdc;
      Legacy.ev_to := Legacy.Absent;
      Legacy.ev_from := Legacy.Str Sample.sender;
      Legacy.ev_amount := Legacy.NotString;
      Legacy.ev_hash := Legacy.Absent;
      Legacy.ev_timestamp := Legacy.Str (lit "yesterday") |})
  = Throw (Error "Missing required fields: to, hash").
Proof. reflexivity. Qed.

(** C4 on the event of scenario A, followed by the same event with the
    amount 7: the lookup then returns the second record, and the first
    event delivered twice leaves the store of scenario A. *)
Lemma handleWebhook_legacy_last_write_wins_abc123 :
  fst (Legacy.getTransferByHash (lit "abc123") after_A) = Return (Some record_A)
  /\ fst (Legacy.getTransferByHash (lit "abc123")
            (snd (legacy (token_event (lit "7") (lit "abc123")) after_A)))
     = Return (Some record_A')
  /\ transfers (snd (legacy (token_event (lit "12.5") (lit "abc123")) after_A))
     = transfers after_A.
Proof.
  pose proof (handleWebhook_legacy_last_write_wins Sample.host Sample.config
                (token_event (lit "12.5") (lit "abc123")) (token_event (lit "7") (lit "abc123"))
                {| Legacy.tokenAddress := Sample.usdc; Legacy.to := Sample.monitored;
                   Legacy.from := Sample.sender; Legacy.amount := lit "12.5";
                   Legacy.hash := lit "abc123";
                   Legacy.timestamp := lit "2024-01-01T00:00:00.000Z" |}
                {| Legacy.tokenAddress := Sample.usdc; Legacy.to := Sample.monitored;
                   Legacy.from := Sample.sender; Legacy.amount := lit "7";
                   Legacy.hash := lit "abc123";
                   Legacy.timestamp := lit "2024-01-01T00:00:00.000Z" |}
                initial) as H.
  destruct H as (Hfirst & Hsecond & _ & Htwice & _); try (vm_compute; reflexivity).
  split; [|split].
  - exact Hfirst.
  - exact Hsecond.
  - exact Htwice.
Defined.

(** C10 on the state after scenario A. *)
Lemma lookup_returns_own_hash_abc123 :
  exists r, fst (Legacy.getTransferByHash (lit "abc123") after_A) = Return (Some r)
            /\ transactionHash r = lit "abc123".
Proof.
  exists record_A.
  assert (Hget : fst (Legacy.getTransferByHash (lit "abc123") after_A) = Return (Some record_A))
    by (vm_compute; reflexivity).
  split; [exact Hget|].
  apply (lookup_returns_own_hash Sample.host Sample.config after_A (lit "abc123") record_A).
  - apply Spec.reach_legacy, Spec.reach_initial.
  - exact Hget.
Defined.

(** C8 on the amount 12.5. *)
Lemma validatePayload_amount_pattern_12_5 :
  Legacy.check Sample.host (token_event (lit "12.5") (lit "abc123"))
  = Return {| Legacy.tokenAddress := Sample.usdc; Legacy.to := Sample.monitored;
              Legacy.from := Sample.sender; Legacy.amount := lit "12.5";
              Legacy.hash := lit "abc123";
              Legacy.timestamp := lit "2024-01-01T00:00:00.000Z" |}.
Proof.
  refine (proj2 (proj1 (validatePayload_amount_pattern Sample.host
            Sample.usdc Sample.monitored Sample.sender (lit "12.5") (lit "abc123")
            (lit "2024-01-01T00:00:00.000Z") _ _ _) _) _);
    try (vm_compute; reflexivity).
  left. exists (lit "12"), (lit "5").
  split; [repeat constructor; vm_compute; discriminate|].
  split; [repeat constructor; vm_compute; discriminate|].
  split; [left; discriminate|left; reflexivity].
Defined.

(** C8, counterexample.  The empty string and the point on its own are no
    numerals, and a payload whose amount is one of them is valid. *)
Lemma validatePayload_accepts_no_digit :
  Legacy.check Sample.host (token_event [] (lit "abc123"))
  = Return {| Legacy.tokenAddress := Sample.usdc; Legacy.to := Sample.monitored;
              Legacy.from := Sample.sender; Legacy.amount := [];
              Legacy.hash := lit "abc123";
              Legacy.timestamp := lit "2024-01-01T00:00:00.000Z" |}
  /\ ~ Spec.plain_decimal_numeral []
  /\ Legacy.check Sample.host (token_event (lit ".") (lit "abc123"))
     = Return {| Legacy.tokenAddress := Sample.usdc; Legacy.to := Sample.monitored;
                 Legacy.from := Sample.sender; Legacy.amount := lit ".";
                 Legacy.hash := lit "abc123";
                 Legacy.timestamp := lit "2024-01-01T00:00:00.000Z" |}
  /\ ~ Spec.plain_decimal_numeral (lit ".").
Proof.
  split; [vm_compute; reflexivity|]. split; [exact empty_not_numeral|].
  split; [vm_compute; reflexivity|exact point_not_numeral].
Qed.

(** C7 on the event whose amount is the empty string. *)
Lemma handleWebhook_parse_failure_empty_amount :
  fst (legacy (token_event [] (lit "abc123")) initial) = Throw (Error "Failed to parse amount")
  /\ transfers (snd (legacy (token_event [] (lit "abc123")) initial)) = ∅.
Proof.
  pose proof (handleWebhook_parse_failure_rethrown Sample.host Sample.config
                (token_event [] (lit "abc123"))
                {| Legacy.tokenAddress := Sample.usdc; Legacy.to := Sample.monitored;
                   Legacy.from := Sample.sender; Legacy.amount := [];
                   Legacy.hash := lit "abc123";
                   Legacy.timestamp := lit "2024-01-01T00:00:00.000Z" |} initial) as H.
  destruct H as (Hthrow & Hstore & _); try (vm_compute; reflexivity).
  split; [exact Hthrow|exact Hstore].
Defined.

(** C7, counterexample.  The request is authentic and its payload valid, in
    the monitored token and to the monitored address, with the empty string
    as amount.  The processing error is not kept to the item: the service
    throws, and the handler answers 500 instead of reporting a success. *)
Lemma legacy_parse_failure_is_reported :
  Legacy.check Sample.host (token_event [] (lit "abc123"))
  = Return {| Legacy.tokenAddress := Sample.usdc; Legacy.to := Sample.monitored;
              Legacy.from := Sample.sender; Legacy.amount := [];
              Legacy.hash := lit "abc123";
              Legacy.timestamp := lit "2024-01-01T00:00:00.000Z" |}
  /\ SignatureVerification.verifyAlchemySignature
       (Utf8.decode (token_event_json [] (lit "abc123")))
       (Crypto.update_digest (Utf8.encode Sample.secret)
          (Utf8.decode (token_event_json [] (lit "abc123"))))
       (Some Sample.secret) = Return true
  /\ fst (legacy (token_event [] (lit "abc123")) initial)
     = Throw (Error "Failed to parse amount")
  /\ fst (Controller.handleWebhook Sample.config legacy
            (signed (token_event_json [] (lit "abc123")) (token_event [] (lit "abc123")))
            initial)
     = Return {| Controller.status := 500;
                 Controller.json := Controller.Message "Internal server error" |}.
Proof. vm_compute. repeat split. Qed.

(** C5 on a request without the signature header (scenario E) and on one
    whose signature is the digest of another body. *)
Lemma handleWebhook_unauthorized_requests :
  transfers (snd (Controller.handleWebhook Sample.config legacy
                    {| Controller.x_alchemy_signature := Controller.HAbsent;
                       Controller.rawBody := Some (token_event_json (lit "12.5") (lit "abc123"));
                       Controller.body := token_event (lit "12.5") (lit "abc123") |}
                    initial)) = ∅
  /\ transfers (snd (Controller.handleWebhook Sample.config legacy
                       {| Controller.x_alchemy_signature :=
                            Controller.HString
                              (Crypto.update_digest (Utf8.encode Sample.secret) (lit "{}"));
                          Controller.rawBody := Some (token_event_json (lit "12.5") (lit "abc123"));
                          Controller.body := token_event (lit "12.5") (lit "abc123") |}
                       initial)) = ∅.
Proof.
  split.
  - refine (proj1 (proj2 (handleWebhook_unauthorized Sample.config legacy _ initial _))).
    exact I.
  - refine (proj1 (proj2 (handleWebhook_unauthorized Sample.config legacy _ initial _))).
    right. eexists. split; [reflexivity|]. vm_compute. reflexivity.
Defined.

(** An authentic request of scenario A is answered with status 200. *)
Example handleWebhook_accepts_scenario_A :
  fst (Controller.handleWebhook Sample.config legacy
         (signed (token_event_json (lit "12.5") (lit "abc123"))
                 (token_event (lit "12.5") (lit "abc123")))
         initial)
  = Return {| Controller.status := 200;
              Controller.json := Controller.Message "Webhook processed successfully" |}.
Proof. vm_compute. reflexivity. Qed.

End Examples.

(* ===================================================================== *)
(** * Part III.  Further properties of the code                            *)
(* ===================================================================== *)

(** Comparisons of integers that the context decides. *)
Ltac compare :=
  repeat match goal with
  | |- context [?a <=? ?b] =>
    first [ replace (a <=? b) with true by (symmetry; apply Z.leb_le; lia)
          | replace (a <=? b) with false by (symmetry; apply Z.leb_gt; lia) ]
  | |- context [?a <? ?b] =>
    first [ replace (a <? b) with true by (symmetry; apply Z.ltb_lt; lia)
          | replace (a <? b) with false by (symmetry; apply Z.ltb_ge; lia) ]
  end; cbn [andb orb negb].

(** ** The legacy service: validation, filing, and the laws of the store *)

Section LegacyLaws.

Variable host : Host.
Variable config : Config.

Import Legacy.

(** The character class of the address pattern is the Base58 alphabet. *)
Lemma base58_char_alphabet (c : Z) :
  base58_char c = true <-> In c Notions.base58_alphabet.
Proof.
  assert (Hfin : forallb (fun n => Bool.eqb (base58_char (Z.of_nat n))
                                     (existsb (Z.eqb (Z.of_nat n)) Notions.base58_alphabet))
                         (seq 0 123) = true) by (vm_compute; reflexivity).
  rewrite List.forallb_forall in Hfin.
  assert (Hex : In c Notions.base58_alphabet <-> existsb (Z.eqb c) Notions.base58_alphabet = true).
  { rewrite List.existsb_exists. split.
    - intros H. exists c. split; [exact H|apply Z.eqb_refl].
    - intros (x & Hx & Heq). apply Z.eqb_eq in Heq. now subst. }
  rewrite Hex. destruct (Z_lt_le_dec c 0) as [Hneg|Hpos].
  - assert (base58_char c = false) as -> by (unfold base58_char; compare; reflexivity).
    assert (existsb (Z.eqb c) Notions.base58_alphabet = false) as ->; [|reflexivity].
    apply not_true_is_false. rewrite <- Hex. intros Hin.
    assert (Forall (fun x => 0 <= x) Notions.base58_alphabet) as Hall
      by (vm_compute; repeat constructor; discriminate).
    rewrite List.Forall_forall in Hall. specialize (Hall c Hin). lia.
  - destruct (Z_lt_le_dec 122 c) as [Hbig|Hsmall].
    + assert (base58_char c = false) as -> by (unfold base58_char; compare; reflexivity).
      assert (existsb (Z.eqb c) Notions.base58_alphabet = false) as ->; [|reflexivity].
      apply not_true_is_false. rewrite <- Hex. intros Hin.
      assert (Forall (fun x => x <= 122) Notions.base58_alphabet) as Hall
        by (vm_compute; repeat constructor; discriminate).
      rewrite List.Forall_forall in Hall. specialize (Hall c Hin). lia.
    + specialize (Hfin (Z.to_nat c)). rewrite Z2Nat.id in Hfin by lia.
      apply eqb_prop in Hfin; [rewrite Hfin; reflexivity|].
      apply in_seq. lia.
Qed.


(** X1.  The address pattern [/^[1-9A-HJ-NP-Za-km-z]{32,44}$/] of
    [validatePayload] accepts exactly the strings of 32 to 44 characters of
    the Base58 alphabet, which has 58 characters, all different. *)
Theorem address_re_base58 (s : JSString) :
  (address_re s = true
   <-> (32 <= length s <= 44)%nat /\ Forall (fun c => In c Notions.base58_alphabet) s)
  /\ length Notions.base58_alphabet = 58%nat
  /\ NoDup Notions.base58_alphabet.
Proof.
  split; [|split; [reflexivity|]].
  - unfold address_re. rewrite !andb_true_iff, List.forallb_forall, List.Forall_forall.
    rewrite !Nat.leb_le. split.
    + intros [[Hall H32] H44]. split; [lia|].
      intros c Hc. apply base58_char_alphabet, Hall, Hc.
    + intros [[H32 H44] Hall]. split; [split|]; [|exact H32|exact H44].
      intros c Hc. apply base58_char_alphabet, Hall, Hc.
  - apply (bool_decide_unpack (NoDup Notions.base58_alphabet)). vm_compute. reflexivity.
Qed.

(** What [validatePayload] does to the state. *)
Lemma validatePayload_state (p : payload) (s : State) :
  snd (validatePayload host p s)
  = match check host p with
    | Return _ => s
    | Throw _ => Spec.logged [(LError, "Payload validation failed"%string)] s
    end.
Proof.
  unfold validatePayload, try_catch, lift.
  destruct (check host p) as [event|e]; reflexivity.
Qed.

(** X2.  [validatePayload] of the legacy service returns an event exactly
    when the payload is an object whose [event] has the six fields as
    strings, the three addresses match the address pattern, the amount
    matches the amount pattern and the timestamp parses; the event returned
    is the payload's.  The store is never touched, and a refusal, and only
    a refusal, is logged. *)
Theorem validatePayload_legacy_accepts (p : payload) (event : ValidEvent) (s : State) :
  (fst (validatePayload host p s) = Return event
   <-> p = WithEvent {| ev_tokenAddress := Str (tokenAddress event); ev_to := Str (to event);
                        ev_from := Str (from event); ev_amount := Str (amount event);
                        ev_hash := Str (hash event); ev_timestamp := Str (timestamp event) |}
       /\ address_re (tokenAddress event) = true /\ address_re (to event) = true
       /\ address_re (from event) = true /\ amount_re (amount event) = true
       /\ isNaN (Date_getTime host (timestamp event)) = false)
  /\ transfers (snd (validatePayload host p s)) = transfers s
  /\ (logs (snd (validatePayload host p s)) = logs s <-> exists ev, check host p = Return ev).
Proof.
  destruct (validatePayload_outcome host p s) as [Hfst Hstore].
  split; [|split; [exact Hstore|]].
  - rewrite Hfst. split; [apply check_Return|].
    intros (-> & H1 & H2 & H3 & H4 & H5).
    rewrite (check_amount host _ _ _ _ _ _ H1 H2 H3), H4, H5.
    destruct event; reflexivity.
  - rewrite validatePayload_state. destruct (check host p) as [ev|e]; simpl.
    + split; [eauto|reflexivity].
    + split.
      * intros H. exfalso. apply (f_equal (@length _)) in H. simpl in H. lia.
      * intros [ev Hev]. discriminate.
Qed.

(** The names of the missing fields are among the required ones. *)
Lemma missingFields_required (e : Event) : incl (missingFields e) Notions.requiredFields.
Proof.
  unfold missingFields. intros name Hin. apply in_map_iff in Hin as ((n & f) & <- & Hin).
  apply list_elem_of_In, list_elem_of_filter in Hin as [_ Hin].
  apply list_elem_of_In in Hin. simpl in Hin. simpl.
  repeat match goal with
         | H : _ \/ _ |- _ => destruct H as [H|H]
         | H : (_, _) = (_, _) |- _ => injection H as <- _
         end; tauto.
Qed.

(** X3.  A failure of the legacy [validatePayload] is always an [Error] of
    the code, never a [TypeError] of the runtime: its message is one of the
    two shape errors, the six type errors and the five format errors, or it
    lists the missing fields, which are then among the six required
    ones. *)
Theorem validatePayload_failure_messages (p : payload) (e : Exn) (s : State) :
  fst (validatePayload host p s) = Throw e ->
  exists m, e = Error m
    /\ (In m (Notions.shape_errors ++ Notions.type_errors ++ Notions.format_errors)
        \/ exists ev, p = WithEvent ev /\ missingFields ev <> []
             /\ incl (missingFields ev) Notions.requiredFields
             /\ m = ("Missing required fields: " ++ String.concat ", " (missingFields ev))%string).
Proof.
  rewrite (proj1 (validatePayload_outcome host p s)).
  destruct p as [| |ev]; simpl.
  - intros [= <-]. eexists. split; [reflexivity|]. left. simpl. tauto.
  - intros [= <-]. eexists. split; [reflexivity|]. left. simpl. tauto.
  - destruct (missingFields ev) as [|name names] eqn:Hmissing.
    + unfold and_then, string_of, must.
      repeat match goal with
             | |- context [match ?f with Absent => _ | NotString => _ | Str _ => _ end] =>
               destruct f
             | |- context [if ?b then _ else _] => destruct b
             | |- Throw _ = Throw _ -> _ =>
               intros [= <-]; eexists; split; [reflexivity|left; simpl; tauto]
             | |- Return _ = Throw _ -> _ => discriminate
             end.
    + intros [= <-]. eexists. split; [reflexivity|]. right. exists ev.
      split; [reflexivity|]. rewrite Hmissing. split; [discriminate|].
      split; [|reflexivity]. rewrite <- Hmissing. apply missingFields_required.
Qed.

(** X4.  [validatePayload] reports a timestamp exactly when nothing else is
    wrong: the error [Invalid timestamp format] is thrown if and only if
    the six fields are strings, the addresses and the amount match their
    patterns, and the timestamp does not parse. *)
Theorem validatePayload_timestamp_last (p : payload) (s : State) :
  fst (validatePayload host p s) = Throw (Error "Invalid timestamp format")
  <-> exists tokenAddress to from amount hash timestamp,
        p = WithEvent {| ev_tokenAddress := Str tokenAddress; ev_to := Str to;
                         ev_from := Str from; ev_amount := Str amount;
                         ev_hash := Str hash; ev_timestamp := Str timestamp |}
        /\ address_re tokenAddress = true /\ address_re to = true /\ address_re from = true
        /\ amount_re amount = true /\ isNaN (Date_getTime host timestamp) = true.
Proof.
  rewrite (proj1 (validatePayload_outcome host p s)). split.
  - destruct p as [| |[f1 f2 f3 f4 f5 f6]]; try discriminate.
    unfold check, missingFields.
    destruct f1; simpl; try discriminate; destruct f2; simpl; try discriminate;
    destruct f3; simpl; try discriminate; destruct f4; simpl; try discriminate;
    destruct f5; simpl; try discriminate; destruct f6; simpl; try discriminate.
    destruct (address_re s0) eqn:H1; simpl; try discriminate.
    destruct (address_re s1) eqn:H2; simpl; try discriminate.
    destruct (address_re s2) eqn:H3; simpl; try discriminate.
    destruct (amount_re s3) eqn:H4; simpl; try discriminate.
    destruct (isNaN (Date_getTime host s5)) eqn:H5; simpl; try discriminate.
    intros _. exists s0, s1, s2, s3, s4, s5. repeat split; assumption.
  - intros (a & b & c & d & h & t & -> & H1 & H2 & H3 & H4 & H5).
    rewrite (check_amount host _ _ _ _ _ _ H1 H2 H3), H4, H5. reflexivity.
Qed.




Local Abbreviation handle := (handleWebhook host config).
Local Abbreviation stored := (Notions.legacy_stored host config).

(** What the legacy [handleWebhook] does, on every payload: the record of
    the payload, if it has one, is filed, and the call throws when
    validation fails or the amount does not parse. *)
Lemma handleWebhook_legacy_files (p : payload) (s : State) :
  transfers (snd (handle p s)) = Spec.file (stored p) (transfers s)
  /\ fst (handle p s)
     = match check host p with
       | Throw e => Throw e
       | Return event =>
         if Spec.monitored_token host config event && Spec.monitored_recipient host config event
            && isNaN (parseFloat (amount event))
         then Throw (Error "Failed to parse amount")
         else Return tt
       end.
Proof.
  unfold Notions.legacy_stored. destruct (check host p) as [event|e] eqn:Hcheck.
  - rewrite (handleWebhook_legacy_checked host config p event s Hcheck).
    destruct (Spec.monitored_token host config event); [|split; reflexivity].
    destruct (Spec.monitored_recipient host config event); [|split; reflexivity].
    destruct (isNaN (parseFloat (amount event))); split; reflexivity.
  - rewrite (handleWebhook_legacy_refused host config p e s Hcheck). split; reflexivity.
Qed.


(** X5.  The legacy [handleWebhook] touches at most one entry of the store:
    when the payload passes validation and both filters and its amount
    parses, the call returns and the record is found under the payload's
    hash, every other hash being as before; for every other payload the
    store is unchanged.  The call returns exactly when the payload passes
    validation and is not a monitored transfer whose amount fails to
    parse. *)
Theorem handleWebhook_legacy_one_entry (p : payload) (h : JSString) (s : State) :
  match stored p with
  | Some r =>
    fst (handle p s) = Return tt
    /\ transfers (snd (handle p s)) !! transactionHash r = Some r
    /\ (h <> transactionHash r -> transfers (snd (handle p s)) !! h = transfers s !! h)
    /\ (forall event, check host p = Return event ->
          r = Spec.transfer_of host event /\ transactionHash r = hash event)
  | None => transfers (snd (handle p s)) = transfers s
  end
  /\ (fst (handle p s) = Return tt <-> Notions.legacy_throws host config p = false).
Proof.
  destruct (handleWebhook_legacy_files p s) as [Hstore Hfst].
  rewrite Hstore, Hfst. unfold Notions.legacy_stored, Notions.legacy_throws.
  destruct (check host p) as [event|e]; simpl.
  - destruct (Spec.monitored_token host config event); simpl; [|split; [reflexivity|tauto]].
    destruct (Spec.monitored_recipient host config event); simpl; [|split; [reflexivity|tauto]].
    destruct (isNaN (parseFloat (amount event))); simpl.
    + split; [reflexivity|]. split; discriminate.
    + split; [|tauto]. split; [reflexivity|]. split; [apply lookup_insert_eq|].
      split; [intros Hne; apply lookup_insert_ne; congruence|].
      intros event' [= <-]. split; reflexivity.
  - split; [reflexivity|]. split; discriminate.
Qed.

(** X6.  The legacy [handleWebhook] is idempotent: a notification delivered
    a second time ends as the first time and leaves the store as the first
    delivery left it. *)
Theorem handleWebhook_legacy_idempotent (p : payload) (s : State) :
  fst (handle p (snd (handle p s))) = fst (handle p s)
  /\ transfers (snd (handle p (snd (handle p s)))) = transfers (snd (handle p s)).
Proof.
  destruct (handleWebhook_legacy_files p (snd (handle p s))) as [Hstore2 Hfst2].
  destruct (handleWebhook_legacy_files p s) as [Hstore1 Hfst1].
  split; [congruence|]. rewrite Hstore2, Hstore1.
  destruct (stored p) as [r|]; simpl; [apply insert_insert_eq|reflexivity].
Qed.

(** X7.  Two legacy notifications that do not file under the same hash
    commute: the store is the same whichever is delivered first. *)
Theorem handleWebhook_legacy_commutes (p1 p2 : payload) (s : State) :
  (forall r1 r2, stored p1 = Some r1 -> stored p2 = Some r2 ->
                 transactionHash r1 <> transactionHash r2) ->
  transfers (snd (handle p2 (snd (handle p1 s))))
  = transfers (snd (handle p1 (snd (handle p2 s)))).
Proof.
  intros Hne.
  rewrite (proj1 (handleWebhook_legacy_files p2 _)), (proj1 (handleWebhook_legacy_files p1 s)).
  rewrite (proj1 (handleWebhook_legacy_files p1 _)), (proj1 (handleWebhook_legacy_files p2 s)).
  destruct (stored p1) as [r1|], (stored p2) as [r2|]; simpl; try reflexivity.
  apply insert_insert_ne. intros Heq. apply (Hne r1 r2); congruence.
Qed.

End LegacyLaws.

(** ** The address-activity service on every payload *)

Section RawActivityLaws.

Variable host : Host.
Variable config : Config.

Import RawActivity.

Local Abbreviation isMonitored := (RawActivity.isMonitoredAddress host config).
Local Abbreviation process := (RawActivity.processTransaction host config).
Local Abbreviation handle := (RawActivity.handleWebhook host config).
Local Abbreviation filed := (Spec.filed host config).

(** X8.  [validatePayload] of the address-activity service returns exactly
    when the payload is an object of type [ADDRESS_ACTIVITY] whose first
    item is an object with a first transaction and a first message that
    carries [account_keys] and [instructions], and with a first [meta]
    entry.  Nothing is asked of the items after the first.  The store is
    not touched. *)
Theorem validatePayload_raw_accepts (p : payload) (items : list item) (s : State) :
  (fst (validatePayload p s) = Return items
   <-> exists t0 rest detail details msg msgs keys ins m ms,
         p = Some {| type := Some ADDRESS_ACTIVITY; event := Some items |}
         /\ items = Some t0 :: rest
         /\ transaction t0 = detail :: details
         /\ message detail = msg :: msgs
         /\ account_keys msg = Some keys /\ instructions msg = Some ins
         /\ meta t0 = m :: ms)
  /\ transfers (snd (validatePayload p s)) = transfers s.
Proof.
  assert (Hfst : fst (validatePayload p s) = check p).
  { unfold validatePayload, try_catch, lift. destruct (check p); reflexivity. }
  split.
  - rewrite Hfst. split.
    + unfold check, and_then, must. destruct p as [[ty ev]|]; [|discriminate].
      cbn [type event falsy negb].
      destruct ty as [[|c ty]|]; cbn [falsy negb]; try discriminate.
      match goal with
      | |- context [@bool_decide ?P ?d] =>
        lazymatch P with (_ = _) => destruct (@bool_decide P d) eqn:Hty; [|discriminate] end
      end.
      apply bool_decide_eq_true in Hty. rewrite Hty.
      destruct ev as [[|[t0|] rest]|]; try discriminate.
      destruct (transaction t0) as [|[[|msg msgs]] details] eqn:Ht; try discriminate.
      destruct (account_keys msg) as [keys|] eqn:Hkeys;
        [|rewrite bool_decide_eq_false_2 by (intros [? ?]; discriminate); discriminate].
      destruct (instructions msg) as [ins|] eqn:Hins;
        [|rewrite bool_decide_eq_true_2, bool_decide_eq_false_2
            by (eauto || (intros [? ?]; discriminate)); discriminate].
      rewrite !bool_decide_eq_true_2 by eauto.
      destruct (meta t0) as [|m ms] eqn:Hm; [discriminate|].
      intros [= <-]. exists t0, rest, {| message := msg :: msgs |}, details, msg, msgs, keys, ins, m, ms.
      repeat split; assumption.
    + intros (t0 & rest & detail & details & msg & msgs & keys & ins & m & ms
              & -> & -> & Ht & Hmsg & Hkeys & Hins & Hm).
      unfold check, and_then, must. cbn [type event].
      replace (falsy (Some ADDRESS_ACTIVITY)) with false by reflexivity. cbn [negb].
      rewrite bool_decide_eq_true_2 by reflexivity.
      rewrite Ht. destruct detail as [msgs']. simpl in Hmsg. subst msgs'.
      rewrite Hkeys, Hins, Hm. rewrite !bool_decide_eq_true_2 by eauto. reflexivity.
  - unfold validatePayload, try_catch, lift. destruct (check p); reflexivity.
Qed.

(** A list of items has no [null], or a first one. *)
Lemma processed_split (items : list item) :
  (Forall (fun tx => tx <> None) items /\ Notions.processed items = items)
  \/ exists before after,
       items = before ++ None :: after
       /\ Forall (fun tx => tx <> None) before /\ Notions.processed items = before.
Proof.
  induction items as [|[t|] rest IH]; simpl.
  - left. split; [constructor|reflexivity].
  - destruct IH as [[Hall Heq]|(before & after & -> & Hall & Heq)].
    + left. split; [constructor; [discriminate|exact Hall]|now rewrite Heq].
    + right. exists (Some t :: before), after.
      split; [reflexivity|]. split; [constructor; [discriminate|exact Hall]|now rewrite Heq].
  - right. exists [], rest. split; [reflexivity|]. split; [constructor|reflexivity].
Qed.

(** What the address-activity [handleWebhook] files, on every payload. *)
Lemma handleWebhook_raw_files (clock : nat -> number) (p : payload) (s : State) :
  transfers (snd (handle clock p s))
  = filed clock 0 (Notions.processed (Notions.accepted p)) (transfers s).
Proof.
  unfold Notions.accepted. destruct (check p) as [items|e] eqn:Hcheck.
  - destruct (processed_split items) as [[Hall ->]|(before & after & Hitems & Hall & ->)].
    + rewrite (handleWebhook_checked host config clock p items s Hcheck). cbv zeta.
      destruct (processAll_objects host config clock items Hall 0
                  {| transfers := transfers s;
                     logs := (LDebug, "Received webhook payload"%string) :: logs s |})
        as (s' & Hs' & Hfiled).
      rewrite Hs'. exact Hfiled.
    + rewrite Hitems in Hcheck.
      apply (handleWebhook_null_item host config clock p before after s Hcheck Hall).
  - apply (handleWebhook_refused host config clock p e s Hcheck).
Qed.

(** X9.  The address-activity [handleWebhook] on every payload: it returns
    exactly when the payload passes validation and none of its items is
    [null], and the store ends as if the items before the first [null]
    had been filed one by one, in order; a payload that fails validation
    files nothing. *)
Theorem handleWebhook_raw_effect (clock : nat -> number) (p : payload) (s : State) :
  (fst (handle clock p s) = Return tt
   <-> exists items, check p = Return items /\ Forall (fun tx => tx <> None) items)
  /\ transfers (snd (handle clock p s))
     = filed clock 0 (Notions.processed (Notions.accepted p)) (transfers s)
  /\ (forall e, check p = Throw e ->
        fst (handle clock p s) = Throw e /\ transfers (snd (handle clock p s)) = transfers s).
Proof.
  split; [|split; [apply handleWebhook_raw_files|intros e; apply handleWebhook_refused]].
  destruct (check p) as [items|e] eqn:Hcheck.
  - destruct (processed_split items) as [[Hall _]|(before & after & Hitems & Hall & _)].
    + rewrite (handleWebhook_checked host config clock p items s Hcheck). cbv zeta.
      destruct (processAll_objects host config clock items Hall 0
                  {| transfers := transfers s;
                     logs := (LDebug, "Received webhook payload"%string) :: logs s |})
        as (s' & Hs' & _).
      rewrite Hs'. simpl. split; [eauto|reflexivity].
    + rewrite Hitems in Hcheck.
      rewrite (proj1 (handleWebhook_null_item host config clock p before after s Hcheck Hall)).
      split; [discriminate|]. intros (items' & [= <-] & Hall').
      rewrite Hitems, Forall_app in Hall'. destruct Hall' as [_ Hall'].
      inversion Hall' as [|? ? Hnull _]. congruence.
  - rewrite (proj1 (handleWebhook_refused host config clock p e s Hcheck)).
    split; [discriminate|]. intros (items & [=] & _).
Qed.



(** X10.  When the monitored address stands at an index for which the
    item lists no balance before or after the transaction, the balance
    read is [undefined], the change is [NaN] and not greater than zero:
    [processTransaction] files nothing, throws nothing, and logs that there
    is no positive balance change. *)
Theorem processTransaction_missing_balance
    (t : Transaction) (keys : list JSString) (ins : option (list TransactionInstruction))
    (m : TransactionMeta) (now : number) (s : State) (i : nat) :
  Spec.item_parts t keys ins m ->
  findIndex isMonitored keys = Some i ->
  nth_error (pre_balances m) i = None \/ nth_error (post_balances m) i = None ->
  process (Some t) now s
  = (Return tt,
     Spec.logged [(LDebug, "No positive balance change for monitored address");
                  (LDebug, "Processing transaction")]%string s).
Proof.
  intros Hparts Hi Hnone.
  rewrite (processTransaction_parts host config t keys ins m now s Hparts). cbv zeta.
  rewrite Hi.
  assert (gt0 (div (sub (toNumber (nth_error (post_balances m) i))
                        (toNumber (nth_error (pre_balances m) i)))
                   (Num (inject_Z LAMPORTS_PER_SOL))) = false) as ->; [|reflexivity].
  destruct Hnone as [-> | ->]; [destruct (nth_error (post_balances m) i)|]; reflexivity.
Qed.

(** X11.  A notification of the address-activity shape touches only the
    hashes of its own items: a hash that is the signature of none of the
    payload's items is found after the call as before it, whether the
    call returns or throws. *)
Theorem handleWebhook_raw_frame (clock : nat -> number) (p : payload) (h : JSString) (s : State) :
  (forall t, In (Some t) (Notions.accepted p) -> signature t <> h) ->
  transfers (snd (handle clock p s)) !! h = transfers s !! h.
Proof.
  intros Hother. rewrite handleWebhook_raw_files.
  apply filed_lookup_other. intros k tx r Hk Hr.
  apply stored_by_hash in Hr as (t & -> & ->). apply Hother.
  apply nth_error_In in Hk. clear -Hk.
  induction (Notions.accepted p) as [|[t'|] rest IH]; simpl in *; [tauto| |tauto].
  destruct Hk as [Hk|Hk]; [left; exact Hk|right; apply IH, Hk].
Qed.


(** X23.  The time of a record is the time of its delivery, not of the
    transaction: when an item that files a record is processed a second
    time, the record is replaced by one that differs in its timestamp only,
    and nothing else in the store changes. *)
Theorem processTransaction_redelivery
    (tx : item) (now now' : number) (r : TokenTransfer) (s : State) :
  Spec.stored_by host config tx now = Some r ->
  fst (process tx now' (snd (process tx now s))) = Return tt
  /\ transfers (snd (process tx now' (snd (process tx now s))))
     = <[transactionHash r :=
          {| amount := amount r; tokenAddress := tokenAddress r; from := from r; to := to r;
             timestamp := now'; transactionHash := transactionHash r |}]> (transfers s).
Proof.
  intros Hr.
  assert (Hr' : Spec.stored_by host config tx now'
                = Some {| amount := amount r; tokenAddress := tokenAddress r; from := from r;
                          to := to r; timestamp := now';
                          transactionHash := transactionHash r |}).
  { revert Hr. unfold Spec.stored_by. destruct tx as [t|]; [|discriminate]. simpl.
    destruct (head (transaction t)) as [detail|]; [|discriminate]. simpl.
    destruct (head (message detail)) as [msg|]; [|discriminate]. simpl.
    destruct (head (meta t)) as [m|]; [|discriminate]. simpl.
    destruct (account_keys msg) as [keys|]; [|discriminate]. simpl.
    destruct (findIndex isMonitored keys) as [i|]; [|discriminate]. simpl.
    destruct (gt0 _); [|discriminate].
    destruct (instructions msg) as [ins|]; [|discriminate]. simpl.
    destruct (head ins) as [first|]; [|discriminate]. simpl.
    intros [= <-]. reflexivity. }
  destruct (processTransaction_effect host config tx now' (snd (process tx now s)))
    as (Hstore' & _ & Hret' & _).
  destruct (processTransaction_effect host config tx now s) as (Hstore & _ & _ & _).
  split; [apply Hret'; rewrite Hr'; eauto|].
  rewrite Hstore', Hstore, Hr, Hr'. simpl. apply insert_insert_eq.
Qed.

End RawActivityLaws.

(** ** What the store holds, whatever has been delivered *)

Section StoreLaws.

Variable host : Host.
Variable config : Config.

Lemma file_dom (r : option TokenTransfer) (store : gmap JSString TokenTransfer) :
  dom store ⊆ dom (Spec.file r store).
Proof.
  destruct r as [x|]; simpl; [|reflexivity].
  rewrite dom_insert. apply union_subseteq_r.
Qed.

Lemma filed_dom (clock : nat -> number) (items : list RawActivity.item) :
  forall (i : nat) (store : gmap JSString TokenTransfer),
  dom store ⊆ dom (Spec.filed host config clock i items store).
Proof.
  induction items as [|tx rest IH]; intros i store; simpl; [reflexivity|].
  etransitivity; [apply file_dom|apply IH].
Qed.




(** X13.  Nothing is ever removed from the store: after a notification of
    either shape every hash that was stored is still stored, and a query
    leaves the store as it is. *)
Theorem store_never_forgets
    (clock : nat -> number) (p : Legacy.payload) (q : RawActivity.payload)
    (h : JSString) (s : State) :
  dom (transfers s) ⊆ dom (transfers (snd (Legacy.handleWebhook host config p s)))
  /\ dom (transfers s) ⊆ dom (transfers (snd (RawActivity.handleWebhook host config clock q s)))
  /\ transfers (snd (Legacy.getTransferByHash h s)) = transfers s
  /\ transfers (snd (RawActivity.getTransferByHash h s)) = transfers s.
Proof.
  split; [|split; [|split]].
  - rewrite (proj1 (handleWebhook_legacy_files host config p s)). apply file_dom.
  - rewrite (handleWebhook_raw_files host config clock q s). apply filed_dom.
  - apply getTransferByHash_spec.
  - rewrite getTransferByHash_same. apply getTransferByHash_spec.
Qed.

End StoreLaws.

(** ** The HTTP handlers, in their revisions *)

Section ControllerLaws.

Context {Body : Type}.
Variable config : Config.
Variable nullish : Body -> bool.
Variable service : Body -> M unit.

Import Controller.

Local Abbreviation handle := (Controller.handleWebhook config service).
Local Abbreviation logged := Spec.logged.

(** The handler of [webhookController.ts], case by case. *)
Lemma handleWebhook_cases (req : Request Body) (s : State) :
  handle req s
  = match x_alchemy_signature req with
    | HString ((_ :: _) as signature) =>
      match rawBody req with
      | None =>
        (Return {| status := 500; json := Message "Internal server error" |},
         logged [(LError, "Raw body not available"%string)] s)
      | Some raw =>
        match SignatureVerification.verifyAlchemySignature
                (Utf8.decode raw) signature (alchemyWebhookSigningKey config) with
        | Throw _ =>
          (Return {| status := 500; json := Message "Internal server error" |},
           logged [(LError, "Error processing webhook"%string)] s)
        | Return false =>
          (Return {| status := 401; json := Message "Invalid signature" |},
           logged [(LError, "Invalid webhook signature"%string)] s)
        | Return true =>
          match service (body req) s with
          | (Return _, s1) =>
            (Return {| status := 200; json := Message "Webhook processed successfully" |}, s1)
          | (Throw _, s1) =>
            (Return {| status := 500; json := Message "Internal server error" |},
             logged [(LError, "Error processing webhook"%string)] s1)
          end
        end
      end
    | _ =>
      (Return {| status := 401; json := Message "Missing signature" |},
       logged [(LError, "Missing or invalid signature"%string)] s)
    end.
Proof.
  unfold Controller.handleWebhook.
  destruct (x_alchemy_signature req) as [|[|c signature]|l]; try reflexivity.
  destruct (rawBody req) as [raw|]; [|reflexivity].
  run.
  destruct (SignatureVerification.verifyAlchemySignature _ _ _) as [[|]|e]; try reflexivity.
  simpl. destruct (service (body req) s) as [[[]|e] s1]; reflexivity.
Qed.

(** X14.  The handler of [webhookController.ts] always replies, with status
    200, 401 or 500: 200 exactly when the request is authentic and the
    service returns, 401 exactly when the signature is missing, not a
    string, empty, or refused by the verifier. *)
Theorem handleWebhook_status (req : Request Body) (s : State) :
  exists r,
    fst (handle req s) = Return r
    /\ (status r = 200 \/ status r = 401 \/ status r = 500)
    /\ (status r = 200
        <-> Spec.authentic config req /\ exists s1, service (body req) s = (Return tt, s1))
    /\ (status r = 401 <-> Spec.unauthenticated config req).
Proof.
  rewrite handleWebhook_cases. unfold Spec.authentic, Spec.unauthenticated.
  destruct req as [hdr raw b]. simpl.
  destruct hdr as [|[|c signature]|l].
  - eexists. split; [reflexivity|]. simpl. split; [tauto|]. split; [|tauto].
    split; [discriminate|]. intros [(? & ? & ? & _) _]. discriminate.
  - eexists. split; [reflexivity|]. simpl. split; [tauto|]. split; [|tauto].
    split; [discriminate|]. intros [(sg & rw & [= <-] & _ & Hv) _].
    apply verified_nonempty in Hv. congruence.
  - destruct raw as [raw|].
    + destruct (SignatureVerification.verifyAlchemySignature _ _ _) as [[|]|e] eqn:Hv.
      * destruct (service b s) as [[[]|e] s1] eqn:Hs.
        -- eexists. split; [reflexivity|]. simpl. split; [tauto|]. split.
           ++ split; [|reflexivity]. intros _. split; [|eauto].
              exists (c :: signature), raw. auto.
           ++ split; [discriminate|].
              intros [|(rw & [= <-] & Hv')]; [discriminate|congruence].
        -- eexists. split; [reflexivity|]. simpl. split; [tauto|]. split.
           ++ split; [discriminate|]. intros [_ [s1' [=]]].
           ++ split; [discriminate|].
              intros [|(rw & [= <-] & Hv')]; [discriminate|congruence].
      * eexists. split; [reflexivity|]. simpl. split; [tauto|]. split.
        -- split; [discriminate|].
           intros [(sg & rw & [= <-] & [= <-] & Hv') _]. congruence.
        -- split; [|reflexivity]. intros _. right. eauto.
      * eexists. split; [reflexivity|]. simpl. split; [tauto|]. split.
        -- split; [discriminate|].
           intros [(sg & rw & [= <-] & [= <-] & Hv') _]. congruence.
        -- split; [discriminate|].
           intros [|(rw & [= <-] & Hv')]; [discriminate|congruence].
    + eexists. split; [reflexivity|]. simpl. split; [tauto|]. split.
      * split; [discriminate|]. intros [(sg & rw & _ & [=] & _) _].
      * split; [discriminate|]. intros [|(rw & [=] & _)]; discriminate.
  - eexists. split; [reflexivity|]. simpl. split; [tauto|]. split; [|tauto].
    split; [discriminate|]. intros [(? & ? & ? & _) _]. discriminate.
Qed.


Local Abbreviation handle_logged :=
  (ControllerLogged.handleWebhook config Notions.unguarded nullish service).
Local Abbreviation handle_guarded :=
  (ControllerGuarded.handleWebhook config Notions.unguarded nullish service).

(** X15.  The logging revision of the handler, linked with the verifier
    that does not catch, replies as the plain revision does and leaves the
    store as the plain revision does, for a service that does not read the
    log and throws on a body that is [null] or [undefined] (on such a body
    the log entry written after the call of the service would throw). *)
Theorem handleWebhook_logged_agrees (req : Request Body) (s : State) :
  Notions.log_independent service ->
  Notions.refuses_nullish nullish service ->
  fst (handle_logged req s) = fst (handle req s)
  /\ transfers (snd (handle_logged req s)) = transfers (snd (handle req s)).
Proof.
  intros Hind Hnull. rewrite handleWebhook_cases.
  unfold ControllerLogged.handleWebhook, ControllerLogged.webhookType, Notions.unguarded.
  destruct req as [hdr raw b]. simpl.
  destruct hdr as [|[|c signature]|l]; try (split; reflexivity).
  destruct raw as [raw|]; [|split; reflexivity].
  run.
  destruct (SignatureVerification.verifyAlchemySignature _ _ _) as [[|]|e];
    try (split; reflexivity).
  simpl.
  match goal with
  | |- context [service b ?s2] =>
    lazymatch s2 with
    | s => fail
    | _ => destruct (Hind b s2 s eq_refl) as [Hf Ht];
           destruct (service b s2) as [[[]|e2] s2'] eqn:H2
    end
  end;
  destruct (service b s) as [[[]|e1] s1] eqn:H1; simpl in Hf, Ht; try discriminate.
  - destruct (nullish b) eqn:Hn.
    + destruct (Hnull b s Hn) as [e He]. rewrite H1 in He. discriminate.
    + split; [reflexivity|exact Ht].
  - split; [reflexivity|exact Ht].
Qed.

(** X16.  The guarded revision of the handler, with a signing key that is
    a string and not empty, replies with the status of the plain revision
    and leaves the store as the plain revision does, for a service that
    does not read the log and throws on a body that is [null] or
    [undefined]. *)
Theorem handleWebhook_guarded_agrees (req : Request Body) (s : State) :
  Notions.log_independent service ->
  Notions.refuses_nullish nullish service ->
  ControllerGuarded.no_key (alchemyWebhookSigningKey config) = false ->
  Notions.status_of (handle_guarded req s) = Notions.status_of (handle req s)
  /\ transfers (snd (handle_guarded req s)) = transfers (snd (handle req s)).
Proof.
  intros Hind Hnull Hkey. unfold Notions.status_of. rewrite handleWebhook_cases.
  unfold ControllerGuarded.handleWebhook, ControllerGuarded.verification,
    ControllerGuarded.processing, ControllerLogged.webhookType, Notions.unguarded.
  destruct req as [hdr raw b]. simpl.
  destruct hdr as [|[|c signature]|l]; try (split; reflexivity).
  destruct raw as [raw|]; [|split; reflexivity].
  run. rewrite Hkey.
  destruct (SignatureVerification.verifyAlchemySignature _ _ _) as [[|]|e] eqn:Hv;
    try (split; reflexivity).
  simpl.
  match goal with
  | |- context [service b ?s2] =>
    lazymatch s2 with
    | s => fail
    | _ => destruct (Hind b s2 s eq_refl) as [Hf Ht];
           destruct (service b s2) as [[[]|e2] s2'] eqn:H2
    end
  end;
  destruct (service b s) as [[[]|e1] s1] eqn:H1; simpl in Hf, Ht; try discriminate.
  - destruct (nullish b) eqn:Hn.
    + destruct (Hnull b s Hn) as [e He]. rewrite H1 in He. discriminate.
    + split; [reflexivity|exact Ht].
  - split; [reflexivity|exact Ht].
Qed.

(** X17.  With the signing key missing, a request that carries a signature
    and a raw body is answered differently by the revisions: the plain
    handler replies 500 (the verifier throws); the logging handler linked
    with the verifier that catches replies 401 [Invalid signature]; the
    guarded handler replies 500 [Configuration issue] without calling the
    verifier.  None of them calls the service, and the store is as
    before. *)
Theorem handleWebhook_without_key
    (req : Request Body) (c : Z) (signature : JSString) (raw : list Z) (s : State) :
  alchemyWebhookSigningKey config = None ->
  x_alchemy_signature req = HString (c :: signature) ->
  rawBody req = Some raw ->
  handle req s
  = (Return {| status := 500; json := Message "Internal server error" |},
     logged [(LError, "Error processing webhook"%string)] s)
  /\ ControllerLogged.handleWebhook
       config SignatureVerificationLogged.verifyAlchemySignature nullish service req s
     = (Return {| status := 401; json := Message "Invalid signature" |},
        logged [(LError, "Invalid webhook signature");
                (LError, "Error during signature verification");
                (LDebug, "Starting signature verification");
                (LDebug, "Processing webhook body");
                (LInfo, "Received webhook request")]%string s)
  /\ (forall verifier,
        ControllerGuarded.handleWebhook config verifier nullish service req s
        = (Return {| status := 500;
                     json := Message "Internal server error - Configuration issue" |},
           logged [(LError, "Webhook signing key not configured");
                   (LDebug, "Full request details");
                   (LInfo, "Received webhook request")]%string s)).
Proof.
  intros Hkey Hsig Hraw. split; [|split].
  - rewrite handleWebhook_cases, Hsig, Hraw, Hkey.
    unfold SignatureVerification.verifyAlchemySignature. reflexivity.
  - unfold ControllerLogged.handleWebhook, SignatureVerificationLogged.verifyAlchemySignature.
    rewrite Hsig, Hraw, Hkey. reflexivity.
  - intros verifier. unfold ControllerGuarded.handleWebhook.
    rewrite Hsig, Hraw, Hkey. reflexivity.
Qed.

(** The replies of the guarded handler, for a verifier that returns
    whenever the key is a string that is not empty. *)
Lemma guarded_replies_of
    (verifier : JSString -> JSString -> option JSString -> M bool)
    (req : Request Body) (s : State) :
  (ControllerGuarded.no_key (alchemyWebhookSigningKey config) = false ->
   forall rawBody signature st,
     exists b st', verifier rawBody signature (alchemyWebhookSigningKey config) st
                   = (Return b, st')) ->
  exists r,
    fst (ControllerGuarded.handleWebhook config verifier nullish service req s) = Return r
    /\ In r Notions.guarded_replies.
Proof.
  intros Hreturns.
  unfold ControllerGuarded.handleWebhook, ControllerGuarded.verification,
    ControllerGuarded.processing, ControllerLogged.webhookType.
  destruct req as [hdr raw b]. simpl.
  destruct hdr as [|[|c signature]|l];
    try (eexists; split; [reflexivity|simpl; tauto]).
  destruct raw as [raw|]; [|eexists; split; [reflexivity|simpl; tauto]].
  destruct (ControllerGuarded.no_key (alchemyWebhookSigningKey config)) eqn:Hkey;
    [eexists; split; [reflexivity|simpl; tauto]|].
  run.
  match goal with
  | |- context [verifier ?rb ?sg ?k ?st] =>
    destruct (Hreturns eq_refl rb sg st) as ([|] & st' & ->)
  end; simpl; [|eexists; split; [reflexivity|simpl; tauto]].
  match goal with
  | |- context [service b ?s2] => destruct (service b s2) as [[[]|e2] s2']
  end; simpl; [|eexists; split; [reflexivity|simpl; tauto]].
  destruct (nullish b); eexists; (split; [reflexivity|simpl; tauto]).
Qed.

(** X18.  The guarded handler, linked with either revision of the
    verifier, always replies, and with one of seven replies.  The reply
    [Signature verification failed] of the [catch] around the verification
    is not among them: once the key is known to be a string that is not
    empty, neither revision of the verifier throws. *)
Theorem handleWebhook_guarded_replies (req : Request Body) (s : State) :
  (exists r, fst (handle_guarded req s) = Return r /\ In r Notions.guarded_replies)
  /\ (exists r,
        fst (ControllerGuarded.handleWebhook
               config SignatureVerificationLogged.verifyAlchemySignature nullish service req s)
        = Return r
        /\ In r Notions.guarded_replies).
Proof.
  split; apply guarded_replies_of.
  - intros Hkey rawBody signature st. unfold Notions.unguarded, lift.
    destruct (alchemyWebhookSigningKey config) as [key|]; [|discriminate].
    destruct (verifyAlchemySignature_returns rawBody signature key) as [b ->]. eauto.
  - intros _ rawBody signature st.
    destruct (verifyAlchemySignature_logged_total
                rawBody signature (alchemyWebhookSigningKey config) st)
      as (b & st' & -> & _). eauto.
Qed.

(** X19.  The handler that compares the header [x-webhook-auth] with the
    configured token calls the service exactly when the header is one
    string equal to the token, and then replies 200 or, when the service
    throws, 500; in every other case it replies 401 [Unauthorized], logs
    once and calls nothing.  The token is the empty string when the
    variable is not set: a request with an empty header is then
    let through. *)
Theorem handleWebhook_token
    (token : JSString) (req : ControllerToken.Request Body) (s : State) :
  let result := ControllerToken.handleWebhook token service req s in
  (ControllerToken.x_webhook_auth req = HString token ->
   result = match service (ControllerToken.body req) s with
            | (Return _, s1) =>
              (Return {| status := 200; json := Message "Webhook processed successfully" |}, s1)
            | (Throw _, s1) =>
              (Return {| status := 500; json := Message "Internal server error" |},
               logged [(LError, "Error processing webhook"%string)] s1)
            end)
  /\ (ControllerToken.x_webhook_auth req <> HString token ->
      result = (Return {| status := 401; json := Message "Unauthorized" |},
                logged [(LError, "Invalid webhook authentication"%string)] s))
  /\ (token = [] -> ControllerToken.x_webhook_auth req = HString [] ->
      exists r s1, result = (Return r, s1) /\ status r <> 401).
Proof.
  cbv zeta. unfold ControllerToken.handleWebhook, ControllerToken.differs.
  assert (Hequal : ControllerToken.x_webhook_auth req = HString token ->
    ControllerToken.handleWebhook token service req s
    = match service (ControllerToken.body req) s with
      | (Return _, s1) =>
        (Return {| status := 200; json := Message "Webhook processed successfully" |}, s1)
      | (Throw _, s1) =>
        (Return {| status := 500; json := Message "Internal server error" |},
         logged [(LError, "Error processing webhook"%string)] s1)
      end).
  { intros Heq. unfold ControllerToken.handleWebhook, ControllerToken.differs.
    rewrite Heq, str_eqb_refl. run.
    destruct (service (ControllerToken.body req) s) as [[[]|e] s1]; reflexivity. }
  split; [exact Hequal|split].
  - intros Hne. destruct (ControllerToken.x_webhook_auth req) as [|sg|l]; try reflexivity.
    destruct (str_eqb sg token) eqn:Heq; [|reflexivity].
    apply str_eqb_true in Heq. congruence.
  - intros -> Hhdr. specialize (Hequal Hhdr).
    unfold ControllerToken.handleWebhook, ControllerToken.differs in Hequal. rewrite Hequal.
    destruct (service (ControllerToken.body req) s) as [[[]|e] s1];
      eexists _, _; (split; [reflexivity|simpl; discriminate]).
Qed.

End ControllerLaws.

(** ** From the request to the query *)

Section EndToEnd.

Variable host : Host.
Variable config : Config.

Import Controller.

(** X20.  [queryTransaction], in both revisions and linked with either
    service, replies 200 with the record stored under the hash, or 404 when
    there is none; it never replies 500, and it leaves the store as it
    is. *)
Theorem queryTransaction_reply (h : JSString) (s : State) :
  let reply :=
    match transfers s !! h with
    | Some r => {| status := 200; json := Transfer r |}
    | None => {| status := 404; json := Message "Transaction not found" |}
    end in
  (fst (Controller.queryTransaction Legacy.getTransferByHash h s) = Return reply
   /\ transfers (snd (Controller.queryTransaction Legacy.getTransferByHash h s)) = transfers s)
  /\ (fst (Controller.queryTransaction RawActivity.getTransferByHash h s) = Return reply
      /\ transfers (snd (Controller.queryTransaction RawActivity.getTransferByHash h s))
         = transfers s)
  /\ (fst (ControllerLogged.queryTransaction Legacy.getTransferByHash h s) = Return reply
      /\ transfers (snd (ControllerLogged.queryTransaction Legacy.getTransferByHash h s))
         = transfers s).
Proof.
  cbv zeta.
  unfold Controller.queryTransaction, ControllerLogged.queryTransaction,
    RawActivity.getTransferByHash, Legacy.getTransferByHash.
  run. destruct (transfers s !! h) as [r|]; repeat split; reflexivity.
Qed.

(** X21.  From the request to the query: an authentic request whose body
    is a legacy notification that passes validation and both filters, with
    an amount that parses, is answered with status 200, and the query for
    its hash is then answered with status 200 and the record of the
    notification. *)
Theorem webhook_then_query (req : Request Legacy.payload) (r : TokenTransfer) (s : State) :
  Spec.authentic config req ->
  Notions.legacy_stored host config (body req) = Some r ->
  let handled := Controller.handleWebhook config (Legacy.handleWebhook host config) req s in
  fst handled
  = Return {| status := 200; json := Message "Webhook processed successfully" |}
  /\ fst (Controller.queryTransaction Legacy.getTransferByHash (transactionHash r) (snd handled))
     = Return {| status := 200; json := Transfer r |}.
Proof.
  intros Hauth Hstored. cbv zeta.
  rewrite (handleWebhook_authentic config _ req s Hauth).
  destruct (handleWebhook_legacy_files host config (body req) s) as [Hstore Hfst].
  rewrite Hstored in Hstore. simpl in Hstore.
  assert (Hret : fst (Legacy.handleWebhook host config (body req) s) = Return tt).
  { rewrite Hfst. unfold Notions.legacy_stored in Hstored.
    destruct (Legacy.check host (body req)) as [event|e]; [|discriminate].
    destruct (Spec.monitored_token host config event); [|discriminate].
    destruct (Spec.monitored_recipient host config event); [|discriminate].
    destruct (isNaN (Legacy.parseFloat (Legacy.amount event))); [discriminate|reflexivity]. }
  destruct (Legacy.handleWebhook host config (body req) s) as [[[]|e] s1]; [|discriminate].
  simpl in Hstore. simpl. split; [reflexivity|].
  unfold Controller.queryTransaction, Legacy.getTransferByHash. run.
  rewrite Hstore, lookup_insert_eq. reflexivity.
Qed.

End EndToEnd.

(** ** The two revisions of the verifier *)

Section VerifierRevisions.

(** X22.  The revision of [verifyAlchemySignature] that logs and catches
    returns what the other revision returns when that one returns, and
    [false] where that one throws, which it does only for a missing key;
    it never throws, and besides its log entries it leaves the state
    as it is. *)
Theorem verifyAlchemySignature_revisions
    (rawBody signature : JSString) (key : option JSString) (s : State) :
  match SignatureVerification.verifyAlchemySignature rawBody signature key with
  | Return b =>
    SignatureVerificationLogged.verifyAlchemySignature rawBody signature key s
    = (Return b, Spec.logged [(LDebug, "Signature verification completed");
                              (LDebug, "Starting signature verification")]%string s)
  | Throw _ =>
    key = None
    /\ SignatureVerificationLogged.verifyAlchemySignature rawBody signature key s
       = (Return false, Spec.logged [(LError, "Error during signature verification");
                                     (LDebug, "Starting signature verification")]%string s)
  end.
Proof.
  unfold SignatureVerification.verifyAlchemySignature,
    SignatureVerificationLogged.verifyAlchemySignature.
  destruct key as [k|]; simpl; [reflexivity|]. split; reflexivity.
Qed.

(** X24.  [verifyAlchemySignature] accepts a signature only if it is
    spelled as [digest('hex')] spells it: 64 characters, each a digit or a
    letter from [a] to [f] in lower case.  The same digest in upper case,
    or with a prefix, is refused. *)
Theorem verifyAlchemySignature_accepts_only_hex
    (rawBody signature : JSString) (key : option JSString) :
  SignatureVerification.verifyAlchemySignature rawBody signature key = Return true ->
  length signature = 64%nat /\ Forall Spec.lower_hex signature.
Proof.
  unfold SignatureVerification.verifyAlchemySignature, Crypto.createHmac.
  destruct key as [k|]; [|discriminate]. intros [= H]. apply str_eqb_true in H.
  rewrite H. apply digest_shape.
Qed.

End VerifierRevisions.

(** ** The further properties on the worked examples *)

Section FurtherExamples.

Import Scenario.

(** Both services fit the handlers that log: they do not read the log,
    and the legacy one throws on a body that is not an object. *)
Lemma legacy_log_independent (host : Host) (config : Config) :
  Notions.log_independent (Legacy.handleWebhook host config).
Proof.
  intros p s s' Hstore.
  destruct (handleWebhook_legacy_files host config p s) as [Hs Hf].
  destruct (handleWebhook_legacy_files host config p s') as [Hs' Hf'].
  split; congruence.
Qed.

Lemma legacy_refuses_nullish (host : Host) (config : Config) :
  Notions.refuses_nullish Cases.not_an_object (Legacy.handleWebhook host config).
Proof.
  intros [| |ev] s; try discriminate. intros _.
  rewrite (proj2 (handleWebhook_legacy_files host config Legacy.NotAnObject s)).
  simpl. eauto.
Qed.

Lemma request_A_authentic : Spec.authentic Sample.config Cases.request_A.
Proof.
  eexists _, _. split; [reflexivity|]. split; [reflexivity|].
  unfold SignatureVerification.verifyAlchemySignature. simpl.
  rewrite str_eqb_refl. reflexivity.
Qed.

(** X3 on an event whose amount has a comma. *)
Lemma validatePayload_failure_messages_comma :
  exists m,
    Error "Invalid amount format" = Error m
    /\ (In m (Notions.shape_errors ++ Notions.type_errors ++ Notions.format_errors)
        \/ exists ev,
             token_event (lit "12,5") (lit "abc123") = Legacy.WithEvent ev
             /\ Legacy.missingFields ev <> []
             /\ incl (Legacy.missingFields ev) Notions.requiredFields
             /\ m = ("Missing required fields: "
                     ++ String.concat ", " (Legacy.missingFields ev))%string).
Proof.
  apply (validatePayload_failure_messages Sample.host
           (token_event (lit "12,5") (lit "abc123")) (Error "Invalid amount format") initial).
  vm_compute. reflexivity.
Defined.

(** X7 on two events with the hashes abc123 and def456. *)
Lemma handleWebhook_legacy_commutes_abc_def :
  transfers (snd (legacy (token_event (lit "7") (lit "def456"))
                    (snd (legacy (token_event (lit "12.5") (lit "abc123")) initial))))
  = transfers (snd (legacy (token_event (lit "12.5") (lit "abc123"))
                      (snd (legacy (token_event (lit "7") (lit "def456")) initial)))).
Proof.
  apply (handleWebhook_legacy_commutes Sample.host Sample.config
           (token_event (lit "12.5") (lit "abc123")) (token_event (lit "7") (lit "def456"))
           initial).
  intros r1 r2 H1 H2. vm_compute in H1, H2.
  injection H1 as <-. injection H2 as <-. discriminate.
Defined.

(** X10 on an item that lists one balance for two accounts. *)
Lemma processTransaction_missing_balance_short :
  RawActivity.processTransaction Sample.host Sample.config (Some Cases.short_balances)
    (clock 0) initial
  = (Return tt,
     Spec.logged [(LDebug, "No positive balance change for monitored address");
                  (LDebug, "Processing transaction")]%string initial).
Proof.
  apply (processTransaction_missing_balance Sample.host Sample.config Cases.short_balances
           [Sample.sender; Sample.monitored] (Some [transfer_instruction])
           {| RawActivity.fee := 5000;
              RawActivity.pre_balances := [5000000000];
              RawActivity.post_balances := [4499995000; 1500000000] |}
           (clock 0) initial 1).
  - unfold Spec.item_parts. do 4 eexists. repeat split.
  - vm_compute. reflexivity.
  - left. reflexivity.
Defined.

(** X11: the record of scenario A stays as it is when an address-activity
    notification with another signature is served. *)
Lemma handleWebhook_raw_frame_abc123 :
  transfers (snd (RawActivity.handleWebhook Sample.host Sample.config clock
                    (activity [Some received]) after_A)) !! lit "abc123"
  = transfers after_A !! lit "abc123".
Proof.
  apply (handleWebhook_raw_frame Sample.host Sample.config clock
           (activity [Some received]) (lit "abc123") after_A).
  intros t Hin. vm_compute in Hin. destruct Hin as [[= <-]|[]]. discriminate.
Defined.


(** X15 on the request of scenario A, served by the legacy service. *)
Lemma handleWebhook_logged_agrees_scenario_A :
  fst (ControllerLogged.handleWebhook Sample.config Notions.unguarded Cases.not_an_object
         legacy Cases.request_A initial)
  = fst (Controller.handleWebhook Sample.config legacy Cases.request_A initial)
  /\ transfers (snd (ControllerLogged.handleWebhook Sample.config Notions.unguarded
                       Cases.not_an_object legacy Cases.request_A initial))
     = transfers (snd (Controller.handleWebhook Sample.config legacy Cases.request_A initial)).
Proof.
  apply (handleWebhook_logged_agrees Sample.config Cases.not_an_object legacy
           Cases.request_A initial).
  - apply legacy_log_independent.
  - apply legacy_refuses_nullish.
Defined.

(** X16 on the same request. *)
Lemma handleWebhook_guarded_agrees_scenario_A :
  Notions.status_of (ControllerGuarded.handleWebhook Sample.config Notions.unguarded
                       Cases.not_an_object legacy Cases.request_A initial)
  = Notions.status_of (Controller.handleWebhook Sample.config legacy Cases.request_A initial)
  /\ transfers (snd (ControllerGuarded.handleWebhook Sample.config Notions.unguarded
                       Cases.not_an_object legacy Cases.request_A initial))
     = transfers (snd (Controller.handleWebhook Sample.config legacy Cases.request_A initial)).
Proof.
  apply (handleWebhook_guarded_agrees Sample.config Cases.not_an_object legacy
           Cases.request_A initial).
  - apply legacy_log_independent.
  - apply legacy_refuses_nullish.
  - reflexivity.
Defined.

(** X17 on a request with a signature, served without a signing key. *)
Lemma handleWebhook_without_key_abc :
  Controller.handleWebhook Cases.keyless legacy Cases.request_abc initial
  = (Return {| Controller.status := 500;
               Controller.json := Controller.Message "Internal server error" |},
     Spec.logged [(LError, "Error processing webhook"%string)] initial)
  /\ fst (ControllerLogged.handleWebhook
            Cases.keyless SignatureVerificationLogged.verifyAlchemySignature
            Cases.not_an_object legacy Cases.request_abc initial)
     = Return {| Controller.status := 401;
                 Controller.json := Controller.Message "Invalid signature" |}
  /\ fst (ControllerGuarded.handleWebhook
            Cases.keyless SignatureVerificationLogged.verifyAlchemySignature
            Cases.not_an_object legacy Cases.request_abc initial)
     = Return {| Controller.status := 500;
                 Controller.json :=
                   Controller.Message "Internal server error - Configuration issue" |}.
Proof.
  destruct (handleWebhook_without_key Cases.keyless Cases.not_an_object legacy
              Cases.request_abc 97 (lit "bc") (lit "{}") initial
              eq_refl eq_refl eq_refl) as (Hplain & Hlogged & Hguarded).
  split; [exact Hplain|]. split; [rewrite Hlogged; reflexivity|].
  rewrite Hguarded. reflexivity.
Defined.

(** X21 on the request of scenario A. *)
Lemma webhook_then_query_abc123 :
  fst (Controller.handleWebhook Sample.config (Legacy.handleWebhook Sample.host Sample.config)
         Cases.request_A initial)
  = Return {| Controller.status := 200;
              Controller.json := Controller.Message "Webhook processed successfully" |}
  /\ fst (Controller.queryTransaction Legacy.getTransferByHash (lit "abc123")
            (snd (Controller.handleWebhook Sample.config
                    (Legacy.handleWebhook Sample.host Sample.config) Cases.request_A initial)))
     = Return {| Controller.status := 200; Controller.json := Controller.Transfer record_A |}.
Proof.
  apply (webhook_then_query Sample.host Sample.config Cases.request_A record_A initial).
  - apply request_A_authentic.
  - vm_compute. reflexivity.
Defined.

(** X23 on the item of scenario C, delivered again one millisecond
    later. *)
Lemma processTransaction_redelivery_received :
  fst (RawActivity.processTransaction Sample.host Sample.config (Some received) (clock 1)
         (snd (run_item received))) = Return tt
  /\ transfers (snd (RawActivity.processTransaction Sample.host Sample.config (Some received)
                       (clock 1) (snd (run_item received))))
     = <[lit "sigReceived" :=
          {| amount := Num (Spec.delta 1000000000 1500000000);
             tokenAddress := lit "SOL";
             from := Some Sample.sender;
             to := Some Sample.monitored;
             timestamp := clock 1;
             transactionHash := lit "sigReceived" |}]> ∅.
Proof.
  apply (processTransaction_redelivery Sample.host Sample.config (Some received)
           (clock 0) (clock 1)
           {| amount := Num (Spec.delta 1000000000 1500000000);
              tokenAddress := lit "SOL";
              from := Some Sample.sender;
              to := Some Sample.monitored;
              timestamp := clock 0;
              transactionHash := lit "sigReceived" |}
           initial).
  reflexivity.
Defined.

(** X24 on the digest of an empty object. *)
Lemma verifyAlchemySignature_accepts_only_hex_digest :
  length (Crypto.update_digest (Utf8.encode Sample.secret) (lit "{}")) = 64%nat
  /\ Forall Spec.lower_hex (Crypto.update_digest (Utf8.encode Sample.secret) (lit "{}")).
Proof.
  apply (verifyAlchemySignature_accepts_only_hex (lit "{}") _ (Some Sample.secret)).
  unfold SignatureVerification.verifyAlchemySignature. simpl.
  rewrite str_eqb_refl. reflexivity.
Defined.

End FurtherExamples.
